(** * Order lifecycle, rate/spread bookkeeping and JSON-backed stores

    A shallow embedding of the order/rate core of the exchange bot:
    - [bot/models/rates.py]      (module [RatesModel]),
    - [bot/models/user.py], [bot/models/order.py]
                                 (modules [User] and [Order]),
    - [bot/config/config.py]     (module [ConfigStore]),
    - [bot/database.py]          (module [Database]),
    - [bot/utils/helpers.py]     (module [Helpers]),
    - [bot/handlers/operator.py] (module [Operator]),
    followed by the properties of the specification, C1 to C10.

    Python floats are modelled as exact rationals ([Q], compared with
    [==]); dictionaries with a fixed set of keys as records; the users
    dictionary as a [gmap]; the JSON files, the logger and the outgoing
    messages as fields of an explicit [World] threaded through a state
    monad.  The outcome of every file write and of every message sent is
    taken from a plan carried by the world, so that the [try/except] paths
    of the code are part of the model.  The constants [ADMIN_ID] and
    [MAIN_CHAT_ID] of [bot/config/constants.py] are parameters. *)

From Stdlib Require Import ZArith QArith Qabs Qround Lia List Bool.
From Stdlib Require Import Ascii String DecimalString DecimalN DecimalPos.
From stdpp Require Import base option gmap.
From Stdlib Require Import Lqa Sorted.

Local Open Scope Z_scope.
Local Open Scope Q_scope.

(** ** Rate/Spread calculator: [bot/models/rates.py] *)

Module RatesModel.

(** The [rates] dictionary: its four keys are read with [rates["..."]]. *)
Record Rates : Type := mkRates {
  ltc_usd_buy  : Q;
  ltc_usd_sell : Q;
  usd_rub_buy  : Q;
  usd_rub_sell : Q
}.

(** The spec's invariant on a rate set; the code never checks it. *)
Definition valid_rates (r : Rates) : Prop :=
  0 < ltc_usd_buy r /\ 0 < ltc_usd_sell r /\
  0 < usd_rub_buy r /\ 0 < usd_rub_sell r.

Definition calculate_ltc_price_in_rubles
    (ltc_amount : Q) (is_buy : bool) (rates : Rates) : Q :=
  if is_buy
  then ltc_amount * ltc_usd_buy rates * usd_rub_buy rates
  else ltc_amount * ltc_usd_sell rates * usd_rub_sell rates.

(** Python's [/] raises [ZeroDivisionError] on a zero divisor: [None]. *)
Definition py_div (a b : Q) : option Q :=
  if Qeq_bool b 0 then None else Some (a / b).

Definition calculate_ltc_amount_from_rubles
    (rub_amount : Q) (is_buy : bool) (rates : Rates) : option Q :=
  if is_buy
  then py_div rub_amount (ltc_usd_buy rates * usd_rub_buy rates)
  else py_div rub_amount (ltc_usd_sell rates * usd_rub_sell rates).

Definition calculate_spread
    (rub_amount : Q) (is_buy : bool) (rates : Rates) : option Q :=
  match calculate_ltc_amount_from_rubles rub_amount is_buy rates with
  | None => None
  | Some ltc_amount =>
      let '(buy_price, sell_price) :=
        if is_buy
        then (ltc_amount * ltc_usd_sell rates * usd_rub_sell rates,
              ltc_amount * ltc_usd_buy rates * usd_rub_buy rates)
        else (ltc_amount * ltc_usd_buy rates * usd_rub_buy rates,
              ltc_amount * ltc_usd_sell rates * usd_rub_sell rates) in
      Some (Qabs (sell_price - buy_price))
  end.

(** The rate set of the scenario (also the default configuration's). *)
Definition scenario_rates : Rates :=
  {| ltc_usd_buy := 80; ltc_usd_sell := 78;
     usd_rub_buy := 735 # 10; usd_rub_sell := 72 |}.

End RatesModel.


(** ** Records of the stores *)

(** A user record ([bot/models/user.py], [USER_MODEL]); the fields the
    modelled functions read with [user.get(...)]. *)
Module User.
Inductive Role : Type := user | operator | admin | blocked.

Record t : Type := mk {
  username         : string;
  role             : Role;
  balance          : Q;
  total_volume     : Q;
  completed_orders : Z;
  referrals        : list Z;
  referrer_id      : option Z
}.

Definition is_admin_role (r : Role) : bool :=
  match r with admin => true | _ => false end.

Definition is_operator_or_admin_role (r : Role) : bool :=
  match r with operator | admin => true | _ => false end.

Definition with_balance (b : Q) (u : t) : t :=
  mk (username u) (role u) b (total_volume u) (completed_orders u)
     (referrals u) (referrer_id u).

Definition with_stats (v : Q) (n : Z) (u : t) : t :=
  mk (username u) (role u) (balance u) v n (referrals u) (referrer_id u).
End User.

(** An order record ([bot/models/order.py], [ORDER_MODEL]). *)
Module Order.
Inductive Status : Type := active | in_progress | completed.
Inductive OrderType : Type := buy | sell.

Record t : Type := mk {
  id                : Z;
  order_number      : string;
  user_id           : Z;
  username          : string;
  order_type        : OrderType;
  amount            : Q;
  status            : Status;
  created_at        : string;
  updated_at        : string;
  operator_id       : option Z;
  operator_username : option string;
  completed_at      : option string;
  spread            : option Q
}.

Definition status_eqb (a b : Status) : bool :=
  match a, b with
  | active, active | in_progress, in_progress | completed, completed => true
  | _, _ => false
  end.

Definition is_buy (ty : OrderType) : bool :=
  match ty with buy => true | sell => false end.

(** One [key: value] entry of an [updates] dictionary. *)
Inductive assignment : Type :=
| Set_status (s : Status)
| Set_operator_id (op : Z)
| Set_operator_username (name : string)
| Set_completed_at (ts : string)
| Set_spread (q : Q)
| Set_updated_at (ts : string).

Definition assign (o : t) (a : assignment) : t :=
  match a with
  | Set_status s =>
      mk (id o) (order_number o) (user_id o) (username o) (order_type o)
         (amount o) s (created_at o) (updated_at o) (operator_id o)
         (operator_username o) (completed_at o) (spread o)
  | Set_operator_id op =>
      mk (id o) (order_number o) (user_id o) (username o) (order_type o)
         (amount o) (status o) (created_at o) (updated_at o) (Some op)
         (operator_username o) (completed_at o) (spread o)
  | Set_operator_username name =>
      mk (id o) (order_number o) (user_id o) (username o) (order_type o)
         (amount o) (status o) (created_at o) (updated_at o) (operator_id o)
         (Some name) (completed_at o) (spread o)
  | Set_completed_at ts =>
      mk (id o) (order_number o) (user_id o) (username o) (order_type o)
         (amount o) (status o) (created_at o) (updated_at o) (operator_id o)
         (operator_username o) (Some ts) (spread o)
  | Set_spread q =>
      mk (id o) (order_number o) (user_id o) (username o) (order_type o)
         (amount o) (status o) (created_at o) (updated_at o) (operator_id o)
         (operator_username o) (completed_at o) (Some q)
  | Set_updated_at ts =>
      mk (id o) (order_number o) (user_id o) (username o) (order_type o)
         (amount o) (status o) (created_at o) ts (operator_id o)
         (operator_username o) (completed_at o) (spread o)
  end.

(** [{**order, **updates}]: the entries of [updates] override, in order. *)
Definition merge (o : t) (updates : list assignment) : t :=
  fold_left assign updates o.
End Order.

(** The orders document, [{"orders": [...], "next_id": n}]. *)
Record OrdersData : Type := mkOrdersData {
  orders  : list Order.t;
  next_id : Z
}.

(** A referral level [{"min": _, "max": _, "percentage": _}]; [max] may be
    [float("inf")]. *)
Inductive bound : Type := Finite (q : Q) | Infinity.

Record Level : Type := mkLevel {
  level_min        : Q;
  level_max        : bound;
  level_percentage : Q
}.

(** The configuration document.  [referral] is [config["referral"]["levels"]]
    when both keys are present; [referral_levels] is the older
    [config["referral_levels"]] dictionary, its keys already read as integers.
    The [currencies] entry is not read by any function modelled here. *)
Record Config : Type := mkConfig {
  admin_ids       : list Z;
  operator_ids    : option (list Z);
  rates           : RatesModel.Rates;
  min_amount      : option Q;
  referral        : option (list Level);
  referral_levels : option (list (Z * Q))
}.

(** ** The world: files, fault plan, logger and outgoing messages *)

Module Persistence.

(** What a JSON file on disk can be: absent, present but unreadable or
    not parsable, or holding a document. *)
Inductive file (A : Type) : Type :=
| Missing
| Unparsable
| Holds (doc : A).
Arguments Missing {A}.
Arguments Unparsable {A}.
Arguments Holds {A} doc.

(** How one [open(..., "w")] + [json.dump] goes: it succeeds, [open]
    raises (nothing is touched), or [json.dump] raises after the file was
    truncated. *)
Inductive write_outcome : Type := WriteOk | WriteFailOpen | WriteFailDump.

Definition write_file {A} (o : write_outcome) (doc : A) (f : file A)
  : file A :=
  match o with
  | WriteOk => Holds doc
  | WriteFailOpen => f
  | WriteFailDump => Unparsable
  end.

Inductive send_outcome : Type := SendOk | SendFail.

Inductive collection : Type := ConfigFile | UsersDb | OrdersDb.

Inductive log_entry : Type :=
| Info_configuration_loaded
| Error_loading_configuration
| Info_using_default_configuration
| Info_configuration_not_found
| Info_configuration_saved
| Error_saving_configuration
| Error_reading_users
| Error_saving_users
| Error_reading_orders
| Error_saving_orders
| Error_user_not_found_for_bonus (uid : Z)
| Error_referrer_not_found (rid : Z)
| Error_bonus_notification
| Error_missing_user_id
| Error_group_notification
| Error_order_notification
| Error_client_notification.

Inductive message : Type :=
| Msg_referral_bonus (referral : string) (bonus percentage balance : Q)
| Msg_client_completed (o : Order.t)
| Msg_group_completed (o : Order.t)
| Msg_admin_group_failed (o : Order.t)
| Msg_admin_notification_error
| Msg_client_taken (number : string) (operator_name : string)
| Msg_group_taken (o : Order.t) (operator_name : string).

Record World : Type := mkWorld {
  config_file : file Config;
  users_db    : file (gmap Z User.t);
  orders_db   : file OrdersData;
  write_plan  : list write_outcome;   (* outcomes of the coming writes *)
  send_plan   : list send_outcome;    (* outcomes of the coming sends *)
  journal     : list (collection * write_outcome);  (* writes attempted *)
  log         : list log_entry;
  outbox      : list (Z * message)
}.

(** The state monad every store function runs in. *)
Definition M (A : Type) : Type := World -> A * World.

Definition ret {A} (a : A) : M A := fun w => (a, w).

Definition bind {A B} (c : M A) (k : A -> M B) : M B :=
  fun w => let '(a, w') := c w in k a w'.

Definition logger (e : log_entry) : M unit := fun w =>
  (tt, mkWorld (config_file w) (users_db w) (orders_db w) (write_plan w)
         (send_plan w) (journal w) (log w ++ [e]) (outbox w)).

(** The outcome of the next write: the head of the plan, success once the
    plan is exhausted. *)
Definition next_write (w : World) : write_outcome * list write_outcome :=
  match write_plan w with
  | [] => (WriteOk, [])
  | o :: rest => (o, rest)
  end.

(** [bot.send_message(chat_id, text)]: [SendFail] stands for a raised
    exception. *)
Definition send_message (chat_id : Z) (text : message) : M send_outcome :=
  fun w =>
    match send_plan w with
    | SendFail :: rest =>
        (SendFail,
         mkWorld (config_file w) (users_db w) (orders_db w) (write_plan w)
           rest (journal w) (log w) (outbox w))
    | _ =>
        (SendOk,
         mkWorld (config_file w) (users_db w) (orders_db w) (write_plan w)
           (tl (send_plan w)) (journal w) (log w)
           (outbox w ++ [(chat_id, text)]))
    end.

End Persistence.

Declare Scope store_scope.
Delimit Scope store_scope with store.
Notation "x <- c ;; k" := (Persistence.bind c (fun x => k))
  (at level 100, c at next level, right associativity) : store_scope.
Notation "c ;;; k" := (Persistence.bind c (fun _ => k))
  (at level 100, right associativity) : store_scope.


(** ** Config store: [bot/config/config.py] *)

Module ConfigStore.
Import Persistence.
Local Open Scope store_scope.

Definition default_levels : list Level :=
  [ mkLevel 1   (Finite 10)  10;
    mkLevel 11  (Finite 25)  (125 # 10);
    mkLevel 26  (Finite 50)  15;
    mkLevel 51  (Finite 100) (175 # 10);
    mkLevel 101 Infinity     20 ].

Definition DEFAULT_CONFIG : Config :=
  {| admin_ids := [];
     operator_ids := Some [];
     rates := RatesModel.scenario_rates;
     min_amount := Some 1000;
     referral := Some default_levels;
     referral_levels := None |}.

(** [open(CONFIG_FILE, "w")] + [json.dump], inside [try/except Exception]:
    the exception of a failed write is logged and not re-raised. *)
Definition save_config (config : Config) : M unit := fun w =>
  let '(o, plan) := next_write w in
  let w' := mkWorld (write_file o config (config_file w)) (users_db w)
              (orders_db w) plan (send_plan w)
              (journal w ++ [(ConfigFile, o)]) (log w) (outbox w) in
  match o with
  | WriteOk => logger Info_configuration_saved w'
  | _ => logger Error_saving_configuration w'
  end.

(** [DEFAULT_CONFIG.copy()] is returned as [DEFAULT_CONFIG]: no function
    modelled here mutates a configuration it has loaded. *)
Definition load_config : M Config := fun w =>
  match config_file w with
  | Holds config =>
      (logger Info_configuration_loaded ;;; ret config) w
  | Unparsable =>
      (logger Error_loading_configuration ;;;
       logger Info_using_default_configuration ;;;
       ret DEFAULT_CONFIG) w
  | Missing =>
      (logger Info_configuration_not_found ;;;
       let config := DEFAULT_CONFIG in
       save_config config ;;;
       ret config) w
  end.

(** [x <= level["max"]], where the maximum may be [float("inf")]. *)
Definition le_bound (x : Q) (b : bound) : bool :=
  match b with
  | Finite q => Qle_bool x q
  | Infinity => true
  end.

(** [level["min"] <= referral_count <= level["max"]]. *)
Definition level_contains (referral_count : Z) (l : Level) : bool :=
  Qle_bool (level_min l) (inject_Z referral_count)
  && le_bound (inject_Z referral_count) (level_max l).

(** The [for level in levels] loop of the new structure, with its
    fall-through [return 0.05]. *)
Fixpoint scan_levels (levels : list Level) (referral_count : Z) : Q :=
  match levels with
  | [] => 5 # 100
  | level :: rest =>
      if level_contains referral_count level
      then level_percentage level / 100
      else scan_levels rest referral_count
  end.

(** Python's order on [(int, float)] tuples, used by [sorted]. *)
Definition pair_leb (a b : Z * Q) : bool :=
  (fst a <? fst b)%Z || ((fst a =? fst b)%Z && Qle_bool (snd a) (snd b)).

Fixpoint insert_sorted (x : Z * Q) (l : list (Z * Q)) : list (Z * Q) :=
  match l with
  | [] => [x]
  | y :: rest => if pair_leb x y then x :: l else y :: insert_sorted x rest
  end.

Definition sorted (l : list (Z * Q)) : list (Z * Q) :=
  fold_right insert_sorted [] l.

(** The loop of the old structure: the value of the highest level reached,
    leaving at the first level above the count. *)
Fixpoint scan_old_levels (percentage : Q) (levels : list (Z * Q))
    (referral_count : Z) : Q :=
  match levels with
  | [] => percentage
  | (level, value) :: rest =>
      if (referral_count >=? level)%Z
      then scan_old_levels value rest referral_count
      else percentage
  end.

Definition get_referral_percentage (referral_count : Z) : M Q :=
  config <- load_config ;;
  match referral config with
  | Some levels => ret (scan_levels levels referral_count)
  | None =>
      match referral_levels config with
      | Some levels => ret (scan_old_levels 0 (sorted levels) referral_count)
      | None => ret (5 # 100)
      end
  end.

Definition get_current_rates : M RatesModel.Rates :=
  config <- load_config ;;
  ret (rates config).

Section WithConstants.
Variable ADMIN_ID : Z.

Definition is_admin (user_id : Z) : M bool :=
  if (user_id =? ADMIN_ID)%Z then ret true
  else
    config <- load_config ;;
    ret (existsb (Z.eqb user_id) (admin_ids config)).

End WithConstants.

End ConfigStore.


(** ** Record store: [bot/database.py] *)

Module Database.
Import Persistence.
Local Open Scope store_scope.

(** *** Users *)

Definition get_users : M (gmap Z User.t) := fun w =>
  match users_db w with
  | Holds users => ret users w
  | _ => (logger Error_reading_users ;;; ret (∅ : gmap Z User.t)) w
  end.

Definition save_users (users : gmap Z User.t) : M unit := fun w =>
  let '(o, plan) := next_write w in
  let w' := mkWorld (config_file w) (write_file o users (users_db w))
              (orders_db w) plan (send_plan w)
              (journal w ++ [(UsersDb, o)]) (log w) (outbox w) in
  match o with
  | WriteOk => ret tt w'
  | _ => logger Error_saving_users w'
  end.

(** The dictionary is keyed by [str(user_id)], which is one-to-one on
    integers: the key is the integer itself. *)
Definition get_user (user_id : Z) : M (option User.t) :=
  users <- get_users ;;
  ret (users !! user_id).

Definition save_user (user_id : Z) (user_data : User.t) : M unit :=
  users <- get_users ;;
  save_users (<[user_id := user_data]> users).

(** *** Orders *)

Definition empty_orders : OrdersData := mkOrdersData [] 1.

Definition get_orders : M OrdersData := fun w =>
  match orders_db w with
  | Holds orders_data => ret orders_data w
  | _ => (logger Error_reading_orders ;;; ret empty_orders) w
  end.

Definition save_orders (orders_data : OrdersData) : M unit := fun w =>
  let '(o, plan) := next_write w in
  let w' := mkWorld (config_file w) (users_db w)
              (write_file o orders_data (orders_db w)) plan (send_plan w)
              (journal w ++ [(OrdersDb, o)]) (log w) (outbox w) in
  match o with
  | WriteOk => ret tt w'
  | _ => logger Error_saving_orders w'
  end.

(** [f"{n:05d}"]: the decimal digits, zero-filled to five characters, the
    sign (if any) counted in the width and written first. *)
Definition digits (n : N) : string :=
  NilEmpty.string_of_uint (N.to_uint n).

Fixpoint zeros (k : nat) : string :=
  match k with
  | O => EmptyString
  | S k' => String "0"%char (zeros k')
  end.

Definition zero_fill (width : nat) (s : string) : string :=
  String.append (zeros (width - String.length s)) s.

Definition format_05d (n : Z) : string :=
  if (n <? 0)%Z
  then String "-"%char (zero_fill 4 (digits (Z.abs_N n)))
  else zero_fill 5 (digits (Z.to_N n)).

Definition make_order_number (order_id : Z) : string :=
  String "Z"%char (format_05d order_id).

Definition create_order (now : string) (user_id : Z) (username : string)
    (order_type : Order.OrderType) (amount : Q) : M Order.t :=
  orders_data <- get_orders ;;
  let order_id := next_id orders_data in
  let order_number := make_order_number order_id in
  let order :=
    Order.mk order_id order_number user_id username order_type amount
      Order.active now now None None None None in
  save_orders (mkOrdersData (orders orders_data ++ [order]) (order_id + 1)%Z) ;;;
  ret order.

(** The first order of the list with the given identifier, and its index
    (the [for i, order in enumerate(...)] loops). *)
Fixpoint find_order (order_id : Z) (l : list Order.t)
  : option (nat * Order.t) :=
  match l with
  | [] => None
  | order :: rest =>
      if (Order.id order =? order_id)%Z then Some (O, order)
      else
        match find_order order_id rest with
        | Some (i, found) => Some (S i, found)
        | None => None
        end
  end.

Definition get_order (order_id : Z) : M (option Order.t) :=
  orders_data <- get_orders ;;
  ret (snd <$> find_order order_id (orders orders_data)).

(** [updates["updated_at"] = now] is written as a last entry: in the merge
    a later entry overrides an earlier one of the same key. *)
Definition update_order (now : string) (order_id : Z)
    (updates : list Order.assignment) : M (option Order.t) :=
  orders_data <- get_orders ;;
  match find_order order_id (orders orders_data) with
  | Some (i, order) =>
      let updates := updates ++ [Order.Set_updated_at now] in
      let updated := Order.merge order updates in
      save_orders (mkOrdersData (<[i := updated]> (orders orders_data))
                     (next_id orders_data)) ;;;
      ret (Some updated)
  | None => ret None
  end.

End Database.


(** ** Helpers: [bot/utils/helpers.py] *)

Module Helpers.
Import Persistence ConfigStore Database.
Local Open Scope store_scope.

(** [round(x, 2)] on exact rationals: nearest multiple of 1/100, ties to the
    even one.  The code rounds the float it has computed, which may lie a
    last bit off the exact value: where the exact value is a tie of the
    third decimal, the code's cent can be the other neighbour. *)
Definition round_half_even (y : Q) : Z :=
  let f := Qfloor y in
  match Qcompare (y - inject_Z f) (1 # 2) with
  | Lt => f
  | Gt => (f + 1)%Z
  | Eq => if Z.even f then f else (f + 1)%Z
  end.

Definition round2 (x : Q) : Q := inject_Z (round_half_even (x * 100)) / 100.

(** [None] stands for the [ZeroDivisionError] of [amount / actual_rate]. *)
Definition calculate_spread (amount : Q) (order_type : Order.OrderType)
  : M (option Q) :=
  rates <- get_current_rates ;;
  let is_buy := Order.is_buy order_type in
  let '(actual_rate, our_cost_rate) :=
    if is_buy
    then (RatesModel.ltc_usd_buy rates * RatesModel.usd_rub_buy rates,
          RatesModel.ltc_usd_sell rates * RatesModel.usd_rub_sell rates)
    else (RatesModel.ltc_usd_sell rates * RatesModel.usd_rub_sell rates,
          RatesModel.ltc_usd_buy rates * RatesModel.usd_rub_buy rates) in
  match RatesModel.py_div amount actual_rate with
  | None => ret None
  | Some ltc_amount =>
      let our_cost := ltc_amount * our_cost_rate in
      let spread := if is_buy then amount - our_cost else our_cost - amount in
      ret (Some (round2 spread))
  end.

Definition process_referral_bonus (user_id : Z) (spread : Q) : M unit :=
  user <- get_user user_id ;;
  match user with
  | None => logger (Error_user_not_found_for_bonus user_id)
  | Some user =>
      match User.referrer_id user with
      | None => ret tt
      | Some referrer_id =>
          if (referrer_id =? 0)%Z then ret tt
          else
            referrer <- get_user referrer_id ;;
            match referrer with
            | None => logger (Error_referrer_not_found referrer_id)
            | Some referrer =>
                let referral_count :=
                  Z.of_nat (List.length (User.referrals referrer)) in
                bonus_percentage <- get_referral_percentage referral_count ;;
                if Qle_bool bonus_percentage 0 then ret tt
                else
                  let bonus_amount := (spread * bonus_percentage) / 100 in
                  if Qle_bool bonus_amount 0 then ret tt
                  else
                    let current_balance := User.balance referrer in
                    let referrer :=
                      User.with_balance (current_balance + bonus_amount)
                        referrer in
                    save_user referrer_id referrer ;;;
                    sent <- send_message referrer_id
                              (Msg_referral_bonus (User.username user)
                                 bonus_amount bonus_percentage
                                 (User.balance referrer)) ;;
                    match sent with
                    | SendOk => ret tt
                    | SendFail => logger Error_bonus_notification
                    end
            end
      end
  end.

Section WithConstants.
Variables ADMIN_ID MAIN_CHAT_ID : Z.

Definition check_admin (user_id : Z) : M bool :=
  if (user_id =? ADMIN_ID)%Z then ret true
  else
    user <- get_user user_id ;;
    match user with
    | None => ret false
    | Some user =>
        if User.is_admin_role (User.role user) then ret true
        else is_admin ADMIN_ID user_id
    end.

Definition check_operator (user_id : Z) : M bool :=
  is_adm <- check_admin user_id ;;
  if is_adm then ret true
  else
    user <- get_user user_id ;;
    match user with
    | None => ret false
    | Some user => ret (User.is_operator_or_admin_role (User.role user))
    end.

(** The outer [except Exception] of [send_order_notification]. *)
Definition notification_failed : M unit :=
  logger Error_order_notification ;;;
  _ <- send_message ADMIN_ID Msg_admin_notification_error ;;
  ret tt.

(** What follows the two notifications: the bonus, then the owner's
    statistics.  [spread > 0] raises on a missing ([None]) spread. *)
Definition settle_completed (order : Order.t) : M unit :=
  let user_id := Order.user_id order in
  match Order.spread order with
  | None => notification_failed
  | Some spread =>
      (if Qlt_le_dec 0 spread
       then process_referral_bonus user_id spread
       else ret tt) ;;;
      user <- get_user user_id ;;
      match user with
      | None => ret tt
      | Some user =>
          save_user user_id
            (User.with_stats (User.total_volume user + Order.amount order)
               (User.completed_orders user + 1)%Z user)
      end
  end.

Definition send_order_notification (order : Order.t) : M unit :=
  let user_id := Order.user_id order in
  if (user_id =? 0)%Z then logger Error_missing_user_id
  else
    to_client <- send_message user_id (Msg_client_completed order) ;;
    match to_client with
    | SendFail => notification_failed
    | SendOk =>
        to_group <- send_message MAIN_CHAT_ID (Msg_group_completed order) ;;
        match to_group with
        | SendOk => settle_completed order
        | SendFail =>
            logger Error_group_notification ;;;
            to_admin <- send_message ADMIN_ID (Msg_admin_group_failed order) ;;
            match to_admin with
            | SendOk => settle_completed order
            | SendFail => notification_failed
            end
        end
    end.

End WithConstants.

End Helpers.


(** ** Operator handlers: [bot/handlers/operator.py] *)

Module Operator.
Import Persistence ConfigStore Database Helpers.
Local Open Scope store_scope.

(** The text passed to [update.callback_query.answer], or the exception
    that leaves the handler. *)
Inductive answer : Type :=
| No_operator_rights
| Order_not_found
| Order_not_active
| Order_not_in_progress
| Order_of_another_operator
| Update_failed
| Order_taken
| Order_completed
| Raised_ZeroDivisionError.

(** [str(n)] for an integer. *)
Definition str_int (n : Z) : string :=
  if (n <? 0)%Z then String "-"%char (digits (Z.abs_N n))
  else digits (Z.to_N n).

Section WithConstants.
Variables ADMIN_ID MAIN_CHAT_ID : Z.

(** [operator_view_order]: its reads of the stores; the rendering of the
    message is left out. *)
Definition operator_view_order (user_id order_id : Z) : M unit :=
  ok <- check_operator ADMIN_ID user_id ;;
  if negb ok then ret tt
  else
    _ <- get_order order_id ;;
    ret tt.

(** What [operator_take_order] does once the order is updated: the two
    notifications (a failed send is logged) and the redirect to the order
    view. *)
Definition notify_order_taken (order : Order.t) (username : string)
    (user_id order_id : Z) : M unit :=
  let client_id := Order.user_id order in
  let order_number := Order.order_number order in
  (if (client_id =? 0)%Z then ret tt
   else
     sent <- send_message client_id
               (Msg_client_taken order_number username) ;;
     match sent with
     | SendOk => ret tt
     | SendFail => logger Error_client_notification
     end) ;;;
  (sent <- send_message MAIN_CHAT_ID (Msg_group_taken order username) ;;
   match sent with
   | SendOk => ret tt
   | SendFail => logger Error_group_notification
   end) ;;;
  operator_view_order user_id order_id.

(** The operator's display name: the Telegram username, or [ID:<id>] when
    there is none. *)
Definition operator_name (user_id : Z) (tg_username : option string)
  : string :=
  match tg_username with
  | None | Some EmptyString => String.append "ID:" (str_int user_id)
  | Some name => name
  end.

Definition operator_take_order (now : string) (user_id : Z)
    (tg_username : option string) (order_id : Z) : M answer :=
  ok <- check_operator ADMIN_ID user_id ;;
  if negb ok then ret No_operator_rights
  else
    order <- get_order order_id ;;
    match order with
    | None => ret Order_not_found
    | Some order =>
        if negb (Order.status_eqb (Order.status order) Order.active)
        then ret Order_not_active
        else
          let username := operator_name user_id tg_username in
          let updates :=
            [ Order.Set_status Order.in_progress;
              Order.Set_operator_id user_id;
              Order.Set_operator_username username ] in
          updated_order <- update_order now order_id updates ;;
          match updated_order with
          | None => ret Update_failed
          | Some _ =>
              notify_order_taken order username user_id order_id ;;;
              ret Order_taken
          end
    end.

(** [now] stamps [completed_at]; [update_order] reads the clock again
    ([now_update]) for [updated_at]. *)
Definition operator_complete_order (now now_update : string)
    (user_id order_id : Z) : M answer :=
  ok <- check_operator ADMIN_ID user_id ;;
  if negb ok then ret No_operator_rights
  else
    order <- get_order order_id ;;
    match order with
    | None => ret Order_not_found
    | Some order =>
        if negb (Order.status_eqb (Order.status order) Order.in_progress)
        then ret Order_not_in_progress
        else
          if negb (bool_decide (Order.operator_id order = Some user_id))
          then ret Order_of_another_operator
          else
            let amount := Order.amount order in
            let order_type := Order.order_type order in
            spread <- calculate_spread amount order_type ;;
            match spread with
            | None => ret Raised_ZeroDivisionError
            | Some spread =>
                let updates :=
                  [ Order.Set_status Order.completed;
                    Order.Set_completed_at now;
                    Order.Set_spread spread ] in
                updated_order <- update_order now_update order_id updates ;;
                match updated_order with
                | None => ret Update_failed
                | Some updated_order =>
                    send_order_notification ADMIN_ID MAIN_CHAT_ID
                      updated_order ;;;
                    ret Order_completed
                end
            end
    end.

End WithConstants.

End Operator.


(** ** Sessions of lifecycle operations *)

Module Lifecycle.
Import Persistence Database Operator.
Local Open Scope store_scope.

(** The operations a session is made of. *)
Inductive Op : Type :=
| Create (now : string) (user_id : Z) (username : string)
    (order_type : Order.OrderType) (amount : Q)
| Take (now : string) (caller : Z) (tg_username : option string)
    (order_id : Z)
| Complete (now now_update : string) (caller order_id : Z).

Section WithConstants.
Variables ADMIN_ID MAIN_CHAT_ID : Z.

Definition step (op : Op) : M unit :=
  match op with
  | Create now user_id username order_type amount =>
      _ <- create_order now user_id username order_type amount ;; ret tt
  | Take now caller tg_username order_id =>
      _ <- operator_take_order ADMIN_ID MAIN_CHAT_ID now caller tg_username
             order_id ;;
      ret tt
  | Complete now now_update caller order_id =>
      _ <- operator_complete_order ADMIN_ID MAIN_CHAT_ID now now_update
             caller order_id ;;
      ret tt
  end.

Fixpoint run (ops : list Op) : M unit :=
  match ops with
  | [] => ret tt
  | op :: rest => step op ;;; run rest
  end.

End WithConstants.

(** The status under which [get_order] shows an order. *)
Definition status_of (order_id : Z) (w : World) : option Order.Status :=
  Order.status <$> fst (get_order order_id w).

(** No coming write is cut short after truncating its file. *)
Definition never_truncated (w : World) : Prop :=
  ~ In WriteFailDump (write_plan w).

(** How operation [op] may change the order [order_id], read as [o] before
    and as [o'] after: its status stays; or it was active and [op] is a
    [Take] of it, which puts it in progress and stamps the operator; or it
    was in progress and [op] is a [Complete] of it, which completes it and
    stamps the completion time and the spread. *)
Definition allowed (op : Op) (order_id : Z) (o o' : Order.t) : Prop :=
  Order.status o' = Order.status o
  \/ (Order.status o = Order.active /\ Order.status o' = Order.in_progress
      /\ exists now caller tg,
           op = Take now caller tg order_id
           /\ Order.operator_id o' = Some caller
           /\ Order.operator_username o' = Some (operator_name caller tg))
  \/ (Order.status o = Order.in_progress /\ Order.status o' = Order.completed
      /\ exists now now_update caller,
           op = Complete now now_update caller order_id
           /\ Order.completed_at o' = Some now
           /\ exists q, Order.spread o' = Some q).

(** What one operation may write to the orders document [d]: [Create]
    appends a fresh active order under [next_id]; [Take] rewrites the first
    order with the identifier, which must be active; [Complete] rewrites
    it, and it must be in progress and assigned to the caller. *)
Inductive lifecycle_write : Op -> OrdersData -> OrdersData -> Prop :=
| lw_create now user_id username order_type amount d :
    lifecycle_write (Create now user_id username order_type amount) d
      (mkOrdersData
         (orders d ++
          [Order.mk (next_id d) (make_order_number (next_id d)) user_id
             username order_type amount Order.active now now
             None None None None])
         (next_id d + 1)%Z)
| lw_take now caller tg order_id d i o :
    find_order order_id (orders d) = Some (i, o) ->
    Order.status o = Order.active ->
    lifecycle_write (Take now caller tg order_id) d
      (mkOrdersData
         (<[i := Order.merge o
                   [ Order.Set_status Order.in_progress;
                     Order.Set_operator_id caller;
                     Order.Set_operator_username (operator_name caller tg);
                     Order.Set_updated_at now ]]> (orders d))
         (next_id d))
| lw_complete now now_update caller order_id d i o spread :
    find_order order_id (orders d) = Some (i, o) ->
    Order.status o = Order.in_progress ->
    Order.operator_id o = Some caller ->
    lifecycle_write (Complete now now_update caller order_id) d
      (mkOrdersData
         (<[i := Order.merge o
                   [ Order.Set_status Order.completed;
                     Order.Set_completed_at now;
                     Order.Set_spread spread;
                     Order.Set_updated_at now_update ]]> (orders d))
         (next_id d)).



End Lifecycle.


(** ** Vocabulary of the statements *)

Import Persistence ConfigStore Database Helpers.
Local Open Scope store_scope.

(** What [get_orders] makes of the file. *)
Definition read_orders (f : file OrdersData) : OrdersData :=
  match f with
  | Holds orders_data => orders_data
  | _ => empty_orders
  end.

(** The outcomes of the writes attempted on the orders file, oldest first. *)
Fixpoint orders_writes (j : list (collection * write_outcome))
  : list write_outcome :=
  match j with
  | [] => []
  | (OrdersDb, o) :: rest => o :: orders_writes rest
  | _ :: rest => orders_writes rest
  end.

(** [c] neither changes the orders file nor attempts a write on it, and
    uses up write outcomes only from the front of the plan. *)
Definition keeps_orders {A} (c : M A) : Prop :=
  forall w,
    orders_db (snd (c w)) = orders_db w
    /\ orders_writes (journal (snd (c w))) = orders_writes (journal w)
    /\ (forall out, In out (write_plan (snd (c w))) -> In out (write_plan w)).

(** At [w], [c] either keeps the orders file, or replaces it by the result
    of one write of a document related by [R] to the one read. *)
Definition effect_at {A} (R : OrdersData -> OrdersData -> Prop)
    (c : M A) (w : World) : Prop :=
  let w' := snd (c w) in
  (forall out, In out (write_plan w') -> In out (write_plan w))
  /\ ((orders_db w' = orders_db w
       /\ orders_writes (journal w') = orders_writes (journal w))
      \/ exists out d',
           (out = WriteOk \/ In out (write_plan w))
           /\ R (read_orders (orders_db w)) d'
           /\ orders_db w' = write_file out d' (orders_db w)).


(** ** A concrete shop *)

Module Scenario.
Import Lifecycle.

Definition ADMIN_ID : Z := 1.
Definition MAIN_CHAT_ID : Z := (-100).

(** The owner of the orders (referred by user 9), the referrer with one
    referral, and an operator. *)
Definition owner : User.t :=
  User.mk "alice" User.user 0 0 0 [] (Some 9%Z).
Definition referrer : User.t :=
  User.mk "bob" User.user 0 0 0 [5%Z] None.
Definition clerk : User.t :=
  User.mk "carol" User.operator 0 0 0 [] None.

Definition shop_users : gmap Z User.t :=
  <[5%Z := owner]> (<[9%Z := referrer]> (<[7%Z := clerk]> ∅)).

Definition order1 : Order.t :=
  Order.mk 1 "Z00001" 5 "alice" Order.buy 5880 Order.active
    "2024-01-01T10:00:00" "2024-01-01T10:00:00" None None None None.

(** Order 2 is in progress, taken by the operator 7. *)
Definition order2 : Order.t :=
  Order.mk 2 "Z00002" 5 "alice" Order.buy 5880 Order.in_progress
    "2024-01-01T11:00:00" "2024-01-01T11:30:00" (Some 7%Z) (Some "carol"%string)
    None None.

Definition order3 : Order.t :=
  Order.mk 3 "Z00003" 5 "alice" Order.sell 1000 Order.completed
    "2024-01-01T12:00:00" "2024-01-01T12:45:00" (Some 7%Z) (Some "carol"%string)
    (Some "2024-01-01T12:45:00"%string) (Some (4490 # 100)).

Definition shop_orders : OrdersData :=
  mkOrdersData [order1; order2; order3] 4.

(** Every file readable, no failure planned. *)
Definition shop : World :=
  mkWorld (Holds DEFAULT_CONFIG) (Holds shop_users) (Holds shop_orders)
    [] [] [] [] [].

(** A fresh store, as [init_db] leaves it. *)
Definition fresh : World :=
  mkWorld (Holds DEFAULT_CONFIG) (Holds ∅) (Holds empty_orders)
    [] [] [] [] [].

(** The fresh store, with the next write failing at [open]. *)
Definition fresh_failing : World :=
  mkWorld (Holds DEFAULT_CONFIG) (Holds ∅) (Holds empty_orders)
    [WriteFailOpen] [] [] [] [].


End Scenario.


(** * Further code of the cited files *)

(** ** Rate products *)

(** The price of one crypto unit in local fiat, for a direction: the
    product both conversions of [bot/models/rates.py] use. *)
Definition direction_rate (is_buy : bool) (r : RatesModel.Rates) : Q :=
  if is_buy then RatesModel.ltc_usd_buy r * RatesModel.usd_rub_buy r
  else RatesModel.ltc_usd_sell r * RatesModel.usd_rub_sell r.

(** What [get_users] and [load_config] make of their files. *)
Definition read_users (f : file (gmap Z User.t)) : gmap Z User.t :=
  match f with
  | Holds users => users
  | _ => ∅
  end.

Definition read_config (f : file Config) : Config :=
  match f with
  | Holds config => config
  | _ => DEFAULT_CONFIG
  end.

(** ** Record store, continued: [bot/database.py] *)

Module Queries.
Import Persistence Database.
Local Open Scope store_scope.

Definition get_referrals (user_id : Z) : M (list Z) :=
  user <- get_user user_id ;;
  match user with
  | Some user => ret (User.referrals user)
  | None => ret []
  end.

Definition with_referrals (l : list Z) (u : User.t) : User.t :=
  User.mk (User.username u) (User.role u) (User.balance u)
    (User.total_volume u) (User.completed_orders u) l (User.referrer_id u).

Definition add_referral (user_id referral_id : Z) : M unit :=
  user <- get_user user_id ;;
  match user with
  | None => ret tt
  | Some user =>
      if existsb (Z.eqb referral_id) (User.referrals user) then ret tt
      else
        save_user user_id
          (with_referrals (User.referrals user ++ [referral_id]) user)
  end.

Definition get_order_by_number (order_number : string) : M (option Order.t) :=
  orders_data <- get_orders ;;
  ret (List.find (fun order => String.eqb (Order.order_number order)
                                 order_number)
         (orders orders_data)).

Definition get_active_orders : M (list Order.t) :=
  orders_data <- get_orders ;;
  ret (List.filter
         (fun order => Order.status_eqb (Order.status order) Order.active)
         (orders orders_data)).

Definition get_in_progress_orders : M (list Order.t) :=
  orders_data <- get_orders ;;
  ret (List.filter
         (fun order => Order.status_eqb (Order.status order) Order.in_progress)
         (orders orders_data)).

Definition get_completed_orders : M (list Order.t) :=
  orders_data <- get_orders ;;
  ret (List.filter
         (fun order => Order.status_eqb (Order.status order) Order.completed)
         (orders orders_data)).

Definition get_user_orders (user_id : Z) : M (list Order.t) :=
  orders_data <- get_orders ;;
  ret (List.filter (fun order => (Order.user_id order =? user_id)%Z)
         (orders orders_data)).

Definition get_operator_orders (operator_id : Z) : M (list Order.t) :=
  orders_data <- get_orders ;;
  ret (List.filter
         (fun order => bool_decide (Order.operator_id order = Some operator_id))
         (orders orders_data)).

End Queries.

(** ** Stores and effects beyond the lifecycle *)

(** The commands collection, and the log lines and messages of the
    functions below, are kept beside the [World] of the lifecycle. *)
Module Extended.
Import Persistence ConfigStore Database Helpers Queries.

(** A custom command record of [data/commands.json]. *)
Record Command : Type := mkCommand {
  command  : string;
  response : string;
  buttons  : list string
}.

Inductive xlog_entry : Type :=
| Info_admin_added (uid : Z)
| Info_admin_removed (uid : Z)
| Info_operator_added (uid : Z)
| Info_operator_removed (uid : Z)
| Info_rates_updated
| Info_min_amount_updated (amount : Q)
| Error_reading_commands
| Error_saving_commands
| Error_notify_referrer
| Info_database_initialized.

Inductive xmessage : Type :=
| Msg_new_referral (username : string).

Record XWorld : Type := mkXWorld {
  base             : World;
  commands_db      : file (list Command);
  commands_journal : list write_outcome;  (* writes attempted on commands *)
  xlog             : list xlog_entry;
  xoutbox          : list (Z * xmessage)
}.

Definition MX (A : Type) : Type := XWorld -> A * XWorld.

Definition xret {A} (a : A) : MX A := fun x => (a, x).

Definition xbind {A B} (c : MX A) (k : A -> MX B) : MX B :=
  fun x => let '(a, x') := c x in k a x'.

(** A computation on the lifecycle's world, run on the base. *)
Definition lift {A} (c : M A) : MX A := fun x =>
  let '(a, w') := c (base x) in
  (a, mkXWorld w' (commands_db x) (commands_journal x) (xlog x) (xoutbox x)).

Definition xlogger (e : xlog_entry) : MX unit := fun x =>
  (tt, mkXWorld (base x) (commands_db x) (commands_journal x)
         (xlog x ++ [e]) (xoutbox x)).

(** The base world with its write plan, or its send plan, advanced by
    one. *)
Definition pop_write (w : World) : World :=
  mkWorld (config_file w) (users_db w) (orders_db w) (snd (next_write w))
    (send_plan w) (journal w) (log w) (outbox w).

Definition pop_send (w : World) : World :=
  mkWorld (config_file w) (users_db w) (orders_db w) (write_plan w)
    (tl (send_plan w)) (journal w) (log w) (outbox w).

Definition xsend (chat_id : Z) (text : xmessage) : MX send_outcome := fun x =>
  match send_plan (base x) with
  | SendFail :: _ =>
      (SendFail,
       mkXWorld (pop_send (base x)) (commands_db x) (commands_journal x)
         (xlog x) (xoutbox x))
  | _ =>
      (SendOk,
       mkXWorld (pop_send (base x)) (commands_db x) (commands_journal x)
         (xlog x) (xoutbox x ++ [(chat_id, text)]))
  end.

End Extended.

Declare Scope xstore_scope.
Delimit Scope xstore_scope with xstore.
Notation "x <- c ;; k" := (Extended.xbind c (fun x => k))
  (at level 100, c at next level, right associativity) : xstore_scope.
Notation "c ;;; k" := (Extended.xbind c (fun _ => k))
  (at level 100, right associativity) : xstore_scope.

(** ** Config store, continued: the mutators of [bot/config/config.py]

    Each mutator changes the dictionary it has loaded and saves it.  When
    that dictionary is the copy of [DEFAULT_CONFIG] (file missing or
    unreadable) its nested lists are those of the module's default, which
    this model does not track: the properties of these functions are
    stated for a configuration file that holds a document. *)

Module ConfigAdmin.
Import Persistence ConfigStore Extended.

Definition with_admin_ids (l : list Z) (c : Config) : Config :=
  mkConfig l (operator_ids c) (rates c) (min_amount c) (referral c)
    (referral_levels c).

Definition with_operator_ids (l : option (list Z)) (c : Config) : Config :=
  mkConfig (admin_ids c) l (rates c) (min_amount c) (referral c)
    (referral_levels c).

Definition with_rates (r : RatesModel.Rates) (c : Config) : Config :=
  mkConfig (admin_ids c) (operator_ids c) r (min_amount c) (referral c)
    (referral_levels c).

Definition with_min_amount (a : option Q) (c : Config) : Config :=
  mkConfig (admin_ids c) (operator_ids c) (rates c) a (referral c)
    (referral_levels c).

(** [l.remove(x)]: the first occurrence goes. *)
Fixpoint remove_first (x : Z) (l : list Z) : list Z :=
  match l with
  | [] => []
  | y :: rest => if (y =? x)%Z then rest else y :: remove_first x rest
  end.

Definition update_rates (ltc_usd_buy ltc_usd_sell usd_rub_buy usd_rub_sell : Q)
  : MX unit :=
  (config <- lift load_config ;;
   lift (save_config
           (with_rates
              (RatesModel.mkRates ltc_usd_buy ltc_usd_sell usd_rub_buy
                 usd_rub_sell) config)) ;;;
   xlogger Info_rates_updated)%xstore.

Definition add_admin (user_id : Z) : MX unit :=
  (config <- lift load_config ;;
   if existsb (Z.eqb user_id) (admin_ids config) then xret tt
   else
     lift (save_config
             (with_admin_ids (admin_ids config ++ [user_id]) config)) ;;;
     xlogger (Info_admin_added user_id))%xstore.

Definition remove_admin (user_id : Z) : MX unit :=
  (config <- lift load_config ;;
   if existsb (Z.eqb user_id) (admin_ids config)
   then
     lift (save_config
             (with_admin_ids (remove_first user_id (admin_ids config))
                config)) ;;;
     xlogger (Info_admin_removed user_id)
   else xret tt)%xstore.

(** A missing ["operator_ids"] entry is first set to the empty list. *)
Definition add_operator (user_id : Z) : MX unit :=
  (config <- lift load_config ;;
   let ids := match operator_ids config with Some l => l | None => [] end in
   if existsb (Z.eqb user_id) ids then xret tt
   else
     lift (save_config (with_operator_ids (Some (ids ++ [user_id])) config)) ;;;
     xlogger (Info_operator_added user_id))%xstore.

(** With the entry missing, the function returns before any save. *)
Definition remove_operator (user_id : Z) : MX unit :=
  (config <- lift load_config ;;
   match operator_ids config with
   | None => xret tt
   | Some ids =>
       if existsb (Z.eqb user_id) ids
       then
         lift (save_config
                 (with_operator_ids (Some (remove_first user_id ids))
                    config)) ;;;
         xlogger (Info_operator_removed user_id)
       else xret tt
   end)%xstore.

(** With the entry missing, [is_operator] saves the configuration with an
    empty list before answering. *)
Definition is_operator (user_id : Z) : M bool :=
  (config <- load_config ;;
   match operator_ids config with
   | None =>
       save_config (with_operator_ids (Some []) config) ;;;
       ret false
   | Some ids => ret (existsb (Z.eqb user_id) ids)
   end)%store.

Definition get_min_amount : M Q :=
  (config <- load_config ;;
   ret (match min_amount config with Some a => a | None => 1000 end))%store.

Definition set_min_amount (amount : Q) : MX unit :=
  (config <- lift load_config ;;
   lift (save_config (with_min_amount (Some amount) config)) ;;;
   xlogger (Info_min_amount_updated amount))%xstore.

End ConfigAdmin.

(** ** Custom commands and initialisation: [bot/database.py] *)

Module Commands.
Import Persistence Database Extended.
Local Open Scope xstore_scope.

Definition get_commands : MX (list Command) := fun x =>
  match commands_db x with
  | Holds commands => xret commands x
  | _ => (xlogger Error_reading_commands ;;; xret []) x
  end.

(** One [open(..., "w")] + [json.dump] on the commands file, outside any
    [try]: the outcome is handed back. *)
Definition write_commands (commands : list Command) : MX write_outcome :=
  fun x =>
    let o := fst (next_write (base x)) in
    (o, mkXWorld (pop_write (base x))
          (write_file o commands (commands_db x))
          (commands_journal x ++ [o]) (xlog x) (xoutbox x)).

Definition save_commands (commands : list Command) : MX unit :=
  o <- write_commands commands ;;
  match o with
  | WriteOk => xret tt
  | _ => xlogger Error_saving_commands
  end.

(** [cmd["command"] == name]. *)
Definition named (name : string) (cmd : Command) : bool :=
  String.eqb (command cmd) name.

(** The list with its first command named [name] replaced, if there is
    one. *)
Fixpoint replace_command (name : string) (new : Command)
    (commands : list Command) : option (list Command) :=
  match commands with
  | [] => None
  | cmd :: rest =>
      if named name cmd then Some (new :: rest)
      else
        match replace_command name new rest with
        | Some rest' => Some (cmd :: rest')
        | None => None
        end
  end.

(** [buttons or []]. *)
Definition buttons_or_empty (b : option (list string)) : list string :=
  match b with Some l => l | None => [] end.

Definition add_custom_command (name response : string)
    (btns : option (list string)) : MX unit :=
  commands <- get_commands ;;
  let new := mkCommand name response (buttons_or_empty btns) in
  match replace_command name new commands with
  | Some commands' => save_commands commands'
  | None => save_commands (commands ++ [new])
  end.

Definition remove_custom_command (name : string) : MX bool :=
  commands <- get_commands ;;
  let initial_length := List.length commands in
  let commands :=
    List.filter (fun cmd => negb (named name cmd)) commands in
  if (List.length commands <? initial_length)%nat
  then save_commands commands ;;; xret true
  else xret false.

Definition get_custom_command (name : string) : MX (option Command) :=
  commands <- get_commands ;;
  xret (List.find (named name) commands).

(** The writes of [init_db] are not guarded: a failed one raises. *)
Definition write_users_unguarded (users : gmap Z User.t) : MX write_outcome :=
  fun x =>
    let w := base x in
    let o := fst (next_write w) in
    (o, mkXWorld
          (mkWorld (config_file w) (write_file o users (users_db w))
             (orders_db w) (snd (next_write w)) (send_plan w)
             (journal w ++ [(UsersDb, o)]) (log w) (outbox w))
          (commands_db x) (commands_journal x) (xlog x) (xoutbox x)).

Definition write_orders_unguarded (d : OrdersData) : MX write_outcome :=
  fun x =>
    let w := base x in
    let o := fst (next_write w) in
    (o, mkXWorld
          (mkWorld (config_file w) (users_db w)
             (write_file o d (orders_db w)) (snd (next_write w))
             (send_plan w) (journal w ++ [(OrdersDb, o)]) (log w) (outbox w))
          (commands_db x) (commands_journal x) (xlog x) (xoutbox x)).

(** Whether a file exists ([os.path.exists]). *)
Definition exists_file {A} (f : file A) : bool :=
  match f with Missing => false | _ => true end.

(** [init_db]; [false] when an exception leaves it.  The creation of the
    [data] directory is left out. *)
Definition init_db : MX bool := fun x =>
  (users_ok <- (if exists_file (users_db (base x)) then xret WriteOk
                else write_users_unguarded ∅) ;;
   match users_ok with
   | WriteOk =>
       fun x1 =>
         (orders_ok <- (if exists_file (orders_db (base x1)) then xret WriteOk
                        else write_orders_unguarded empty_orders) ;;
          match orders_ok with
          | WriteOk =>
              fun x2 =>
                (commands_ok <- (if exists_file (commands_db x2)
                                 then xret WriteOk
                                 else write_commands []) ;;
                 match commands_ok with
                 | WriteOk =>
                     xlogger Info_database_initialized ;;; xret true
                 | _ => xret false
                 end) x2
          | _ => xret false
          end) x1
   | _ => xret false
   end) x.

Definition read_commands (f : file (list Command)) : list Command :=
  match f with
  | Holds commands => commands
  | _ => []
  end.

End Commands.

(** ** Registration: [start_command] of [bot/handlers/user.py], and the
    referral link of [bot/utils/helpers.py] *)

Module Registration.
Import Persistence Database Helpers Queries Extended.
Local Open Scope xstore_scope.

Definition generate_referral_link (user_id : Z) : string :=
  String.append "https://t.me/your_crypto_exchange_bot?start="
    (Operator.str_int user_id).

(** [user.username or f"user_{user_id}"]. *)
Definition display_name (user_id : Z) (tg_username : option string) : string :=
  match tg_username with
  | None | Some EmptyString =>
      String.append "user_" (Operator.str_int user_id)
  | Some name => name
  end.

(** The referral parameter of [/start]: [arg] is the integer read from
    [context.args[0]], [None] when there is no argument or [int] raises
    [ValueError]; one's own id is dropped. *)
Definition referral_argument (user_id : Z) (arg : option Z) : option Z :=
  match arg with
  | Some referral_id =>
      if (referral_id =? user_id)%Z then None else Some referral_id
  | None => None
  end.

Section WithConstants.
Variable ADMIN_ID : Z.

(** The result is the pair of rights the menu is built from; the welcome
    text and its sending are left out.  The keys [user_id], [discount] and
    [joined_at] of the new record are not part of [User.t]. *)
Definition start_command (user_id : Z) (tg_username : option string)
    (arg : option Z) : MX (bool * bool) :=
  let username := display_name user_id tg_username in
  let referral_id := referral_argument user_id arg in
  user_data <- lift (get_user user_id) ;;
  match user_data with
  | Some _ => xret tt
  | None =>
      lift (save_user user_id
              (User.mk username User.user 0 0 0 [] referral_id)) ;;;
      match referral_id with
      | None => xret tt
      | Some referral_id =>
          if (referral_id =? 0)%Z then xret tt
          else
            lift (add_referral referral_id user_id) ;;;
            referrer <- lift (get_user referral_id) ;;
            match referrer with
            | None => xret tt
            | Some _ =>
                sent <- xsend referral_id (Msg_new_referral username) ;;
                match sent with
                | SendOk => xret tt
                | SendFail => xlogger Error_notify_referrer
                end
            end
      end
  end ;;;
  is_admin_user <- lift (check_admin ADMIN_ID user_id) ;;
  is_operator_user <- lift (check_operator ADMIN_ID user_id) ;;
  xret (is_admin_user, is_operator_user).

End WithConstants.

End Registration.

(** The shape every orders document written by [create_order] and
    [update_order] keeps: identifiers pairwise distinct and below
    [next_id], each order number derived from its identifier. *)
Definition well_numbered (d : OrdersData) : Prop :=
  List.NoDup (List.map Order.id (orders d))
  /\ (forall o, In o (orders d) ->
        (Order.id o < next_id d)%Z
        /\ Order.order_number o = make_order_number (Order.id o)).

(** [c] leaves the users file alone and does not change what the
    configuration file reads as. *)
Definition keeps_settings {A} (c : M A) : Prop :=
  forall w,
    users_db (snd (c w)) = users_db w
    /\ read_config (config_file (snd (c w))) = read_config (config_file w).

(** Strictly increasing thresholds (of the older referral levels). *)
Definition by_threshold (a b : Z * Q) : Prop := (fst a < fst b)%Z.

(** ** Further concrete worlds *)

Module MoreScenarios.
Import Scenario.

(** The configuration of the older layout, with its referral levels keyed
    by threshold (listed out of order, as a dictionary may). *)
Definition legacy_config : Config :=
  {| admin_ids := [11%Z];
     operator_ids := None;
     rates := RatesModel.scenario_rates;
     min_amount := None;
     referral := None;
     referral_levels :=
       Some [(10%Z, 2 # 10); (1%Z, 1 # 10); (20%Z, 25 # 100);
             (5%Z, 15 # 100)] |}.

Definition legacy_shop : World :=
  mkWorld (Holds legacy_config) (Holds shop_users) (Holds shop_orders)
    [] [] [] [] [].

(** A shop whose configured buy rate was set to zero. *)
Definition zero_rate_config : Config :=
  {| admin_ids := [];
     operator_ids := Some [];
     rates := RatesModel.mkRates 0 78 (735 # 10) 72;
     min_amount := Some 1000;
     referral := Some default_levels;
     referral_levels := None |}.

Definition zero_rate_shop : World :=
  mkWorld (Holds zero_rate_config) (Holds shop_users) (Holds shop_orders)
    [] [] [] [] [].

(** The shop when the next message cannot be delivered. *)
Definition unreachable_shop : World :=
  mkWorld (Holds DEFAULT_CONFIG) (Holds shop_users) (Holds shop_orders)
    [] [SendFail] [] [] [].

(** Order 2 as the completion handler stores it. *)
Definition order2_completed : Order.t :=
  Order.merge order2
    [ Order.Set_status Order.completed;
      Order.Set_completed_at "2024-01-02T09:00:00";
      Order.Set_spread 264;
      Order.Set_updated_at "2024-01-02T09:00:01" ].

(** The legacy shop with two custom commands, and an installation with
    no file yet. *)
Definition help_command : Extended.Command :=
  Extended.mkCommand "help" "Write to the operator." [].

Definition rates_command : Extended.Command :=
  Extended.mkCommand "rates" "See the menu." ["Rates"%string].

Definition legacy_xshop : Extended.XWorld :=
  Extended.mkXWorld legacy_shop (Holds [help_command; rates_command])
    [] [] [].

Definition first_start : Extended.XWorld :=
  Extended.mkXWorld (mkWorld Missing Missing Missing [] [] [] [] [])
    Missing [] [] [].

End MoreScenarios.


(** * Verification *)

(** ** Properties of the calculator *)

Section RatesFacts.
Import RatesModel.

Lemma py_div_nonzero (a b : Q) :
  ~ b == 0 -> py_div a b = Some (a / b).
Proof.
  intros Hb. unfold py_div.
  destruct (Qeq_bool b 0) eqn:E; [|reflexivity].
  apply Qeq_bool_eq in E. contradiction.
Qed.

Lemma rate_product_nonzero (a b : Q) : 0 < a -> 0 < b -> ~ a * b == 0.
Proof.
  intros Ha Hb Hab.
  assert (H : 0 < a * b) by (apply Qmult_lt_0_compat; assumption).
  rewrite Hab in H. exact (Qlt_irrefl 0 H).
Qed.

Lemma direction_rate_nonzero (r : Rates) (is_buy : bool) :
  valid_rates r ->
  ~ (if is_buy then ltc_usd_buy r * usd_rub_buy r
     else ltc_usd_sell r * usd_rub_sell r) == 0.
Proof.
  intros (Hlb & Hls & Hub & Hus).
  destruct is_buy; apply rate_product_nonzero; assumption.
Qed.

(** C6. Round-trip law: for a valid rate set, converting a crypto amount
    to its fiat value and back with the same direction's rates returns
    the amount (the division is defined and the result equals [x] as a
    rational). *)
Theorem roundtrip_crypto_fiat
    (r : Rates) (x : Q) (is_buy : bool) (Hvalid : valid_rates r) :
  exists y,
    calculate_ltc_amount_from_rubles
      (calculate_ltc_price_in_rubles x is_buy r) is_buy r = Some y
    /\ y == x.
Proof.
  pose proof (direction_rate_nonzero r is_buy Hvalid) as Hnz.
  unfold calculate_ltc_amount_from_rubles, calculate_ltc_price_in_rubles.
  destruct is_buy; simpl in Hnz;
    (rewrite py_div_nonzero by exact Hnz);
    eexists; (split; [reflexivity|]).
  - rewrite <- Qmult_assoc. apply Qdiv_mult_l. exact Hnz.
  - rewrite <- Qmult_assoc. apply Qdiv_mult_l. exact Hnz.
Qed.

Lemma roundtrip_crypto_fiat_witness :
  valid_rates scenario_rates /\
  exists y,
    calculate_ltc_amount_from_rubles
      (calculate_ltc_price_in_rubles (7 # 2) false scenario_rates)
      false scenario_rates = Some y
    /\ y == 7 # 2.
Proof.
  assert (Hv : valid_rates scenario_rates)
    by (unfold valid_rates; simpl; repeat split; reflexivity).
  split; [exact Hv|].
  exact (roundtrip_crypto_fiat scenario_rates (7 # 2) false Hv).
Defined.


End RatesFacts.

(** ** Properties of the config store *)

Section ConfigFacts.
Import Persistence ConfigStore.

Lemma Qle_bool_inject_Z (a b : Z) :
  Qle_bool (inject_Z a) (inject_Z b) = (a <=? b)%Z.
Proof. unfold Qle_bool. simpl. now rewrite !Z.mul_1_r. Qed.

(** The loop returns at the first level, in list order, that contains the
    count. *)
Lemma scan_levels_find (levels : list Level) (n : Z) :
  scan_levels levels n =
  match List.find (level_contains n) levels with
  | Some l => level_percentage l / 100
  | None => 5 # 100
  end.
Proof.
  induction levels as [|l rest IH]; simpl; [reflexivity|].
  destruct (level_contains n l); [reflexivity | exact IH].
Qed.

(** In the default table a count below 1 is in no level and every other
    count is in exactly one. *)
Lemma default_levels_partition (n : Z) :
  List.length (List.filter (level_contains n) default_levels) =
  if (1 <=? n)%Z then 1%nat else 0%nat.
Proof.
  unfold default_levels, level_contains, le_bound. cbn [List.filter].
  cbn [level_min level_max level_percentage].
  change 1 with (inject_Z 1). change 10 with (inject_Z 10).
  change 11 with (inject_Z 11). change 25 with (inject_Z 25).
  change 26 with (inject_Z 26). change 50 with (inject_Z 50).
  change 51 with (inject_Z 51). change 100 with (inject_Z 100).
  change 101 with (inject_Z 101).
  rewrite !Qle_bool_inject_Z.
  repeat match goal with
         | |- context [(?a <=? ?b)%Z] => destruct (Z.leb_spec a b)
         end; simpl; try reflexivity; lia.
Qed.

(** C2 (as the code has it). [get_referral_percentage] returns the level's
    percentage divided by 100, a decimal fraction: with the default table
    0.10 for 10 referrals, 0.125 for 11, 0.20 for 1000 and the 0.05 floor
    for 0.  For any table it returns the fraction of the first level, in
    list order, whose [min, max] contains the count, or 0.05 when none does
    (also when the file is missing or unreadable and the default table is
    used); in the default table at most one level contains a count, and
    exactly one when the count is at least 1. *)
Theorem referral_percentage_is_fraction :
  (forall adm ops rt mn rl users ords wp sp jr lg ob,
     let w := mkWorld (Holds (mkConfig adm ops rt mn (Some default_levels) rl))
                users ords wp sp jr lg ob in
     fst (get_referral_percentage 10 w) == 10 / 100
     /\ fst (get_referral_percentage 11 w) == (125 # 10) / 100
     /\ fst (get_referral_percentage 1000 w) == 20 / 100
     /\ fst (get_referral_percentage 0 w) == 5 # 100)
  /\ (forall adm ops rt mn levels rl users ords wp sp jr lg ob n,
        fst (get_referral_percentage n
               (mkWorld (Holds (mkConfig adm ops rt mn (Some levels) rl))
                  users ords wp sp jr lg ob)) =
        match List.find (level_contains n) levels with
        | Some l => level_percentage l / 100
        | None => 5 # 100
        end)
  /\ (forall users ords wp sp jr lg ob n,
        fst (get_referral_percentage n
               (mkWorld Missing users ords wp sp jr lg ob)) =
        scan_levels default_levels n
        /\ fst (get_referral_percentage n
                  (mkWorld Unparsable users ords wp sp jr lg ob)) =
           scan_levels default_levels n)
  /\ (forall n,
        List.length (List.filter (level_contains n) default_levels) =
        if (1 <=? n)%Z then 1%nat else 0%nat).
Proof.
  split; [intros; repeat split; reflexivity|].
  split; [intros; cbn; apply scan_levels_find|].
  split; [|exact default_levels_partition].
  intros. split.
  - unfold get_referral_percentage, bind, load_config. cbn.
    unfold save_config, next_write. cbn.
    destruct wp as [|[| |] plan]; reflexivity.
  - reflexivity.
Qed.

(** The claim's own figure fails: for 10 referrals the function returns
    0.10, not 10. *)
Lemma referral_percentage_10_is_not_10 :
  ~ fst (get_referral_percentage 10
           (mkWorld (Holds DEFAULT_CONFIG) (Holds ∅)
              (Holds Database.empty_orders) [] [] [] [] [])) == 10.
Proof. intros H. vm_compute in H. discriminate H. Qed.

(** C9. [load_config] returns the persisted document when the file holds
    one (writing nothing); on a missing file it returns the default and
    attempts one write of it, which leaves the default on disk when the
    write succeeds; on an unreadable or unparsable file it returns the
    default, logs the failure and attempts no write, so the bad file stays
    as it was.  The record stores are never touched. *)
Theorem load_config_cases (w : World) :
  let config := fst (load_config w) in
  let w' := snd (load_config w) in
  users_db w' = users_db w /\ orders_db w' = orders_db w /\
  match config_file w with
  | Holds doc =>
      config = doc /\ config_file w' = Holds doc /\ journal w' = journal w
  | Missing =>
      config = DEFAULT_CONFIG
      /\ journal w' = journal w ++ [(ConfigFile, fst (next_write w))]
      /\ match fst (next_write w) with
         | WriteOk => config_file w' = Holds DEFAULT_CONFIG
         | WriteFailOpen => config_file w' = Missing
         | WriteFailDump => config_file w' = Unparsable
         end
  | Unparsable =>
      config = DEFAULT_CONFIG /\ config_file w' = Unparsable
      /\ journal w' = journal w
      /\ log w' = log w ++ [Error_loading_configuration;
                            Info_using_default_configuration]
  end.
Proof.
  destruct w as [cf us os wp sp jr lg ob].
  unfold load_config, save_config, next_write.
  destruct cf as [| |doc]; cbn.
  - destruct wp as [|[| |] plan]; cbn; repeat split; reflexivity.
  - rewrite <- app_assoc. repeat split; reflexivity.
  - repeat split; reflexivity.
Qed.

End ConfigFacts.

(** ** Which computations leave the orders collection alone *)

Lemma orders_writes_app j1 j2 :
  orders_writes (j1 ++ j2) = orders_writes j1 ++ orders_writes j2.
Proof.
  induction j1 as [|[[| |] o] j1 IH]; simpl; rewrite ?IH; reflexivity.
Qed.

Lemma keeps_ret {A} (a : A) : keeps_orders (ret a).
Proof. intros w. simpl. auto. Qed.

Lemma keeps_bind {A B} (c : M A) (k : A -> M B) :
  keeps_orders c -> (forall a, keeps_orders (k a)) -> keeps_orders (bind c k).
Proof.
  intros Hc Hk w. unfold bind.
  destruct (c w) as [a w1] eqn:E.
  destruct (Hc w) as (H1 & H2 & H3). rewrite E in H1, H2, H3. simpl in *.
  destruct (Hk a w1) as (K1 & K2 & K3).
  repeat split; [congruence | congruence | auto].
Qed.

Lemma keeps_logger e : keeps_orders (logger e).
Proof. intros w. simpl. auto. Qed.

Lemma keeps_send_message chat text : keeps_orders (send_message chat text).
Proof.
  intros w. unfold send_message.
  destruct (send_plan w) as [|[|] rest]; simpl; auto.
Qed.

Lemma next_write_in (w : World) out :
  In out (snd (next_write w)) -> In out (write_plan w).
Proof.
  unfold next_write. destruct (write_plan w); simpl; auto.
Qed.

Lemma keeps_save_config config : keeps_orders (save_config config).
Proof.
  intros w. unfold save_config.
  pose proof (next_write_in w) as Hin.
  destruct (next_write w) as [[| |] plan]; simpl in *;
    rewrite orders_writes_app, app_nil_r; auto.
Qed.

Lemma keeps_save_users users : keeps_orders (save_users users).
Proof.
  intros w. unfold save_users.
  pose proof (next_write_in w) as Hin.
  destruct (next_write w) as [[| |] plan]; simpl in *;
    rewrite orders_writes_app, app_nil_r; auto.
Qed.

Lemma keeps_get_users : keeps_orders get_users.
Proof.
  intros w. unfold get_users. destruct (users_db w); cbn; auto.
Qed.

Lemma keeps_get_orders : keeps_orders get_orders.
Proof.
  intros w. unfold get_orders. destruct (orders_db w) eqn:E; cbn; auto.
Qed.

Create HintDb keeps discriminated.
#[local] Hint Resolve keeps_ret keeps_logger keeps_send_message keeps_save_config
  keeps_save_users keeps_get_users keeps_get_orders : keeps.

(** Splits a computation along its binds and case analyses. *)
Ltac keeps_step :=
  match goal with
  | |- keeps_orders (bind _ _) => apply keeps_bind; [|intros ?]
  | |- keeps_orders (match ?x with _ => _ end) => destruct x
  | |- keeps_orders (let '(_, _) := ?x in _) => destruct x
  | |- keeps_orders _ => solve [auto with keeps]
  end.
Ltac keeps_auto := repeat keeps_step.

Lemma keeps_load_config : keeps_orders load_config.
Proof.
  intros w. unfold load_config.
  destruct (config_file w); revert w.
  - apply (keeps_bind (logger _)); [auto with keeps|intros _].
    apply keeps_bind; auto with keeps.
  - apply (keeps_bind (logger _)); [auto with keeps|intros _].
    apply (keeps_bind (logger _)); auto with keeps.
  - apply (keeps_bind (logger _)); auto with keeps.
Qed.
#[local] Hint Resolve keeps_load_config : keeps.

Lemma keeps_get_user uid : keeps_orders (get_user uid).
Proof. unfold get_user. keeps_auto. Qed.

Lemma keeps_save_user uid data : keeps_orders (save_user uid data).
Proof. unfold save_user. keeps_auto. Qed.

Lemma keeps_get_order oid : keeps_orders (get_order oid).
Proof. unfold get_order. keeps_auto. Qed.

Lemma keeps_get_referral_percentage n :
  keeps_orders (get_referral_percentage n).
Proof. unfold get_referral_percentage. keeps_auto. Qed.

Lemma keeps_get_current_rates : keeps_orders get_current_rates.
Proof. unfold get_current_rates. keeps_auto. Qed.

Lemma keeps_is_admin adm uid : keeps_orders (is_admin adm uid).
Proof. unfold is_admin. keeps_auto. Qed.

#[local] Hint Resolve keeps_get_user keeps_save_user keeps_get_order
  keeps_get_referral_percentage keeps_get_current_rates keeps_is_admin
  : keeps.

Lemma keeps_check_admin adm uid : keeps_orders (check_admin adm uid).
Proof. unfold check_admin. keeps_auto. Qed.
#[local] Hint Resolve keeps_check_admin : keeps.

Lemma keeps_check_operator adm uid : keeps_orders (check_operator adm uid).
Proof. unfold check_operator. keeps_auto. Qed.

Lemma keeps_calculate_spread amount ty :
  keeps_orders (Helpers.calculate_spread amount ty).
Proof. unfold Helpers.calculate_spread. keeps_auto. Qed.

Lemma keeps_process_referral_bonus uid spread :
  keeps_orders (process_referral_bonus uid spread).
Proof. unfold process_referral_bonus. keeps_auto. Qed.

Lemma keeps_notification_failed adm : keeps_orders (notification_failed adm).
Proof. unfold notification_failed. keeps_auto. Qed.

#[local] Hint Resolve keeps_check_operator keeps_calculate_spread
  keeps_process_referral_bonus keeps_notification_failed : keeps.

Lemma keeps_settle_completed adm o : keeps_orders (settle_completed adm o).
Proof. unfold settle_completed. keeps_auto. Qed.
#[local] Hint Resolve keeps_settle_completed : keeps.

Lemma keeps_send_order_notification adm chat o :
  keeps_orders (send_order_notification adm chat o).
Proof. unfold send_order_notification. keeps_auto. Qed.

Lemma keeps_operator_view_order adm uid oid :
  keeps_orders (Operator.operator_view_order adm uid oid).
Proof. unfold Operator.operator_view_order. keeps_auto. Qed.
#[local] Hint Resolve keeps_send_order_notification
  keeps_operator_view_order : keeps.

Lemma keeps_notify_order_taken adm chat o name uid oid :
  keeps_orders (Operator.notify_order_taken adm chat o name uid oid).
Proof. unfold Operator.notify_order_taken. keeps_auto. Qed.


(** ** Properties of the orders collection *)

Lemma get_orders_fst (w : World) :
  fst (get_orders w) = read_orders (orders_db w).
Proof. unfold get_orders. destruct (orders_db w); reflexivity. Qed.

Lemma get_orders_snd (w : World) :
  let w' := snd (get_orders w) in
  config_file w' = config_file w /\ users_db w' = users_db w
  /\ orders_db w' = orders_db w /\ write_plan w' = write_plan w
  /\ send_plan w' = send_plan w /\ journal w' = journal w
  /\ outbox w' = outbox w.
Proof.
  unfold get_orders. destruct (orders_db w) eqn:E; cbn; rewrite ?E; tauto.
Qed.

Lemma get_order_fst (order_id : Z) (w : World) :
  fst (get_order order_id w) =
  snd <$> find_order order_id (orders (read_orders (orders_db w))).
Proof.
  unfold get_order, bind. rewrite <- get_orders_fst.
  destruct (get_orders w); reflexivity.
Qed.

Lemma find_order_none (order_id : Z) (l : list Order.t) :
  (forall o, In o l -> Order.id o <> order_id) ->
  find_order order_id l = None.
Proof.
  induction l as [|o l IH]; intros H; simpl; [reflexivity|].
  destruct (Z.eqb_spec (Order.id o) order_id) as [Heq|Hne].
  - exfalso. exact (H o (or_introl eq_refl) Heq).
  - rewrite IH; [reflexivity|]. intros o' Hin. apply H. right. exact Hin.
Qed.

Lemma find_order_some (order_id : Z) (l : list Order.t) i o :
  find_order order_id l = Some (i, o) ->
  l !! i = Some o /\ Order.id o = order_id.
Proof.
  revert i. induction l as [|x l IH]; intros i H; simpl in H; [discriminate|].
  destruct (Z.eqb_spec (Order.id x) order_id) as [Heq|Hne].
  - injection H as <- <-. split; [reflexivity | exact Heq].
  - destruct (find_order order_id l) as [[j found]|]; [|discriminate].
    injection H as <- <-. exact (IH j eq_refl).
Qed.

Lemma update_order_absent now order_id updates (w : World) :
  find_order order_id (orders (read_orders (orders_db w))) = None ->
  update_order now order_id updates w = (None, snd (get_orders w)).
Proof.
  intros H. unfold update_order, bind. rewrite <- get_orders_fst in H.
  destruct (get_orders w) as [d w1]. simpl in *. rewrite H. reflexivity.
Qed.

(** C10. For an identifier that no order of the collection carries,
    [update_order] returns [None] and attempts no write: the orders file,
    the other files, the journal of writes and the write plan are as
    before. *)
Theorem update_order_unknown_id
    (now : string) (order_id : Z) (updates : list Order.assignment)
    (w : World)
    (Habsent : forall o, In o (orders (fst (get_orders w))) ->
                         Order.id o <> order_id) :
  let w' := snd (update_order now order_id updates w) in
  fst (update_order now order_id updates w) = None
  /\ orders_db w' = orders_db w
  /\ journal w' = journal w
  /\ write_plan w' = write_plan w
  /\ users_db w' = users_db w
  /\ config_file w' = config_file w.
Proof.
  rewrite get_orders_fst in Habsent.
  rewrite (update_order_absent now order_id updates w
             (find_order_none _ _ Habsent)).
  cbn [fst snd].
  destruct (get_orders_snd w) as (Hc & Hu & Ho & Hp & _ & Hj & _).
  tauto.
Qed.

(** ** Computations that write the orders collection at most once *)

Lemma bind_run {A B} (c : M A) (k : A -> M B) (w : World) :
  bind c k w = k (fst (c w)) (snd (c w)).
Proof. unfold bind. destruct (c w). reflexivity. Qed.

Lemma effect_keeps {A} R (c : M A) w : keeps_orders c -> effect_at R c w.
Proof.
  intros H. destruct (H w) as (H1 & H2 & H3).
  split; [exact H3 | left; auto].
Qed.

Lemma effect_bind_l {A B} R (c : M A) (k : A -> M B) w :
  keeps_orders c ->
  effect_at R (k (fst (c w))) (snd (c w)) ->
  effect_at R (bind c k) w.
Proof.
  intros Hc [Hplan Hk]. destruct (Hc w) as (H1 & H2 & H3).
  unfold effect_at. rewrite bind_run. cbv zeta. split; [auto|].
  destruct Hk as [[K1 K2]|(out & d' & Hout & HR & K)].
  - left. split; congruence.
  - right. exists out, d'. rewrite H1 in HR, K.
    repeat split; [|exact HR|exact K].
    destruct Hout as [->|Hin]; [left; reflexivity | right; auto].
Qed.

Lemma effect_bind_r {A B} R (c : M A) (k : A -> M B) w :
  effect_at R c w ->
  (forall a, keeps_orders (k a)) ->
  effect_at R (bind c k) w.
Proof.
  intros [Hplan Hc] Hk.
  destruct (Hk (fst (c w)) (snd (c w))) as (K1 & K2 & K3).
  unfold effect_at. rewrite bind_run. cbv zeta. split; [auto|].
  destruct Hc as [[H1 H2]|(out & d' & Hout & HR & H)].
  - left. split; congruence.
  - right. exists out, d'. repeat split; [exact Hout|exact HR|congruence].
Qed.

Lemma effect_save_orders (R : OrdersData -> OrdersData -> Prop) d' w :
  R (read_orders (orders_db w)) d' -> effect_at R (save_orders d') w.
Proof.
  intros HR. unfold effect_at, save_orders, next_write.
  destruct (write_plan w) as [|o plan] eqn:E.
  - cbn. split; [tauto|]. right. exists WriteOk, d'. auto.
  - assert (Hw : forall out, In out plan -> In out (o :: plan))
      by (intros; right; assumption).
    assert (Hr : exists out d'0,
               (out = WriteOk \/ In out (o :: plan))
               /\ R (read_orders (orders_db w)) d'0
               /\ write_file o d' (orders_db w)
                  = write_file out d'0 (orders_db w)).
    { exists o, d'. repeat split; [right; left; reflexivity | exact HR]. }
    destruct o; cbn; (split; [exact Hw | right; exact Hr]).
Qed.

Lemma effect_update_order (R : OrdersData -> OrdersData -> Prop)
    now order_id updates w :
  (forall i o,
     find_order order_id (orders (read_orders (orders_db w))) = Some (i, o) ->
     R (read_orders (orders_db w))
       (mkOrdersData
          (<[i := Order.merge o (updates ++ [Order.Set_updated_at now])]>
             (orders (read_orders (orders_db w))))
          (next_id (read_orders (orders_db w))))) ->
  effect_at R (update_order now order_id updates) w.
Proof.
  intros HR. unfold update_order.
  apply effect_bind_l; [apply keeps_get_orders|].
  rewrite get_orders_fst.
  destruct (get_orders_snd w) as (_ & _ & Ho & _).
  destruct (find_order order_id (orders (read_orders (orders_db w))))
    as [[i o]|] eqn:F.
  - apply effect_bind_r; [|intros; apply keeps_ret].
    apply effect_save_orders. rewrite Ho. apply HR. reflexivity.
  - apply effect_keeps, keeps_ret.
Qed.

Lemma status_eqb_eq (a b : Order.Status) :
  Order.status_eqb a b = true <-> a = b.
Proof. destruct a, b; simpl; split; congruence. Qed.

Section StepEffects.
Import Operator Lifecycle.
Variables ADMIN_ID MAIN_CHAT_ID : Z.

Lemma effect_create now user_id username order_type amount w :
  effect_at (lifecycle_write (Create now user_id username order_type amount))
    (create_order now user_id username order_type amount) w.
Proof.
  unfold create_order.
  apply effect_bind_l; [apply keeps_get_orders|].
  rewrite get_orders_fst.
  destruct (get_orders_snd w) as (_ & _ & Ho & _).
  apply effect_bind_r; [|intros; apply keeps_ret].
  apply effect_save_orders. rewrite Ho. constructor.
Qed.

Lemma effect_take now caller tg order_id w :
  effect_at (lifecycle_write (Take now caller tg order_id))
    (operator_take_order ADMIN_ID MAIN_CHAT_ID now caller tg order_id) w.
Proof.
  unfold operator_take_order.
  apply effect_bind_l; [apply keeps_check_operator|].
  destruct (keeps_check_operator ADMIN_ID caller w) as (H1 & _).
  set (w1 := snd (check_operator ADMIN_ID caller w)) in *.
  destruct (fst (check_operator ADMIN_ID caller w)); cbn [negb];
    [|apply effect_keeps, keeps_ret].
  apply effect_bind_l; [apply keeps_get_order|].
  destruct (keeps_get_order order_id w1) as (H2 & _).
  set (w2 := snd (get_order order_id w1)) in *.
  rewrite get_order_fst.
  destruct (find_order order_id (orders (read_orders (orders_db w1))))
    as [[i o]|] eqn:F; cbn [fmap option_fmap option_map snd];
    [|apply effect_keeps, keeps_ret].
  destruct (Order.status_eqb (Order.status o) Order.active) eqn:Est;
    cbn [negb]; [|apply effect_keeps, keeps_ret].
  apply status_eqb_eq in Est.
  apply effect_bind_r.
  - apply effect_update_order. intros i' o' F'.
    rewrite H2 in *. rewrite F in F'. injection F' as <- <-.
    cbn [app]. apply lw_take; assumption.
  - intros [updated|]; [|apply keeps_ret].
    apply keeps_bind; [apply keeps_notify_order_taken|intros; apply keeps_ret].
Qed.

Lemma effect_complete now now_update caller order_id w :
  effect_at (lifecycle_write (Complete now now_update caller order_id))
    (operator_complete_order ADMIN_ID MAIN_CHAT_ID now now_update caller
       order_id) w.
Proof.
  unfold operator_complete_order.
  apply effect_bind_l; [apply keeps_check_operator|].
  destruct (keeps_check_operator ADMIN_ID caller w) as (H1 & _).
  set (w1 := snd (check_operator ADMIN_ID caller w)) in *.
  destruct (fst (check_operator ADMIN_ID caller w)); cbn [negb];
    [|apply effect_keeps, keeps_ret].
  apply effect_bind_l; [apply keeps_get_order|].
  destruct (keeps_get_order order_id w1) as (H2 & _).
  set (w2 := snd (get_order order_id w1)) in *.
  rewrite get_order_fst.
  destruct (find_order order_id (orders (read_orders (orders_db w1))))
    as [[i o]|] eqn:F; cbn [fmap option_fmap option_map snd];
    [|apply effect_keeps, keeps_ret].
  destruct (Order.status_eqb (Order.status o) Order.in_progress) eqn:Est;
    cbn [negb]; [|apply effect_keeps, keeps_ret].
  apply status_eqb_eq in Est.
  destruct (bool_decide (Order.operator_id o = Some caller)) eqn:Eop;
    cbn [negb]; [|apply effect_keeps, keeps_ret].
  apply bool_decide_eq_true in Eop.
  apply effect_bind_l; [apply keeps_calculate_spread|].
  destruct (keeps_calculate_spread (Order.amount o) (Order.order_type o) w2)
    as (H3 & _).
  set (w3 := snd (Helpers.calculate_spread _ _ w2)) in *.
  destruct (fst (Helpers.calculate_spread _ _ w2)) as [spread|];
    [|apply effect_keeps, keeps_ret].
  apply effect_bind_r.
  - apply effect_update_order. intros i' o' F'.
    rewrite H3, H2 in *. rewrite F in F'. injection F' as <- <-.
    cbn [app]. apply lw_complete; assumption.
  - intros [updated|]; [|apply keeps_ret].
    apply keeps_bind;
      [apply keeps_send_order_notification|intros; apply keeps_ret].
Qed.

Lemma effect_step op w :
  effect_at (lifecycle_write op) (step ADMIN_ID MAIN_CHAT_ID op) w.
Proof.
  destruct op; cbn [step];
    (apply effect_bind_r; [|intros; apply keeps_ret]).
  - apply effect_create.
  - apply effect_take.
  - apply effect_complete.
Qed.

End StepEffects.

(** ** Status transitions *)

Section Transitions.
Import Operator Lifecycle.
Variables ADMIN_ID MAIN_CHAT_ID : Z.

Lemma find_order_app order_id l l' i o :
  find_order order_id l = Some (i, o) ->
  find_order order_id (l ++ l') = Some (i, o).
Proof.
  revert i. induction l as [|x l IH]; intros i H; simpl in *; [discriminate|].
  destruct (Order.id x =? order_id)%Z; [exact H|].
  destruct (find_order order_id l) as [[j found]|]; [|discriminate].
  injection H as <- <-. rewrite (IH j eq_refl). reflexivity.
Qed.

Lemma find_order_insert target l i o o' order_id :
  find_order target l = Some (i, o) ->
  Order.id o' = target ->
  find_order order_id (<[i := o']> l) =
  if (order_id =? target)%Z then Some (i, o') else find_order order_id l.
Proof.
  intros H Hid. revert i H.
  induction l as [|x l IH]; intros i H; simpl in H; [discriminate|].
  destruct (Z.eqb_spec (Order.id x) target) as [Hx|Hx].
  - injection H as <- <-. simpl. rewrite Hid.
    destruct (Z.eqb_spec order_id target) as [->|Hne].
    + now rewrite Z.eqb_refl.
    + destruct (Z.eqb_spec target order_id); [congruence|].
      destruct (Z.eqb_spec (Order.id x) order_id); [congruence|reflexivity].
  - destruct (find_order target l) as [[j found]|] eqn:F; [|discriminate].
    injection H as <- <-. simpl. rewrite (IH j eq_refl).
    destruct (Z.eqb_spec (Order.id x) order_id) as [Hxo|Hxo].
    + destruct (Z.eqb_spec order_id target); [congruence|reflexivity].
    + destruct (order_id =? target)%Z; reflexivity.
Qed.

Lemma merge_id o updates : Order.id (Order.merge o updates) = Order.id o.
Proof.
  unfold Order.merge. revert o.
  induction updates as [|a updates IH]; intros o; simpl; [reflexivity|].
  rewrite IH. destruct a; reflexivity.
Qed.

(** One lifecycle write keeps every order of the document findable at its
    place, and changes it only as [allowed]. *)
Lemma lifecycle_write_order op d d' order_id i o :
  lifecycle_write op d d' ->
  find_order order_id (orders d) = Some (i, o) ->
  exists o', find_order order_id (orders d') = Some (i, o')
             /\ allowed op order_id o o'.
Proof.
  intros Hw Hfind. destruct Hw as
    [ now user_id username order_type amount d
    | now caller tg target d j old Hold Hst
    | now now_update caller target d j old spread Hold Hst Hop ]; cbn [orders].
  - exists o. split; [apply find_order_app; exact Hfind | left; reflexivity].
  - pose proof (find_order_some _ _ _ _ Hold) as [_ Hid].
    rewrite (find_order_insert target (orders d) j old _ order_id Hold)
      by (rewrite merge_id; exact Hid).
    destruct (Z.eqb_spec order_id target) as [->|Hne].
    + rewrite Hold in Hfind. injection Hfind as <- <-.
      eexists. split; [reflexivity|]. right. left.
      repeat split; [exact Hst|]. exists now, caller, tg. auto.
    + exists o. split; [exact Hfind | left; reflexivity].
  - pose proof (find_order_some _ _ _ _ Hold) as [_ Hid].
    rewrite (find_order_insert target (orders d) j old _ order_id Hold)
      by (rewrite merge_id; exact Hid).
    destruct (Z.eqb_spec order_id target) as [->|Hne].
    + rewrite Hold in Hfind. injection Hfind as <- <-.
      eexists. split; [reflexivity|]. right. right.
      repeat split; [exact Hst|]. exists now, now_update, caller.
      repeat split. exists spread. reflexivity.
    + exists o. split; [exact Hfind | left; reflexivity].
Qed.

(** After one step an order that was visible is either lost with the whole
    document, which takes a truncating write failure, or visible again and
    changed only as [allowed]. *)
Lemma step_order op w order_id o :
  fst (get_order order_id w) = Some o ->
  let w' := snd (step ADMIN_ID MAIN_CHAT_ID op w) in
  (forall out, In out (write_plan w') -> In out (write_plan w))
  /\ ((In WriteFailDump (write_plan w) /\ fst (get_order order_id w') = None)
      \/ exists o', fst (get_order order_id w') = Some o'
                    /\ allowed op order_id o o').
Proof.
  intros Hget w'. rewrite get_order_fst in Hget.
  destruct (effect_step ADMIN_ID MAIN_CHAT_ID op w) as [Hplan Heff].
  fold w' in Hplan, Heff. split; [exact Hplan|].
  rewrite get_order_fst.
  destruct (find_order order_id (orders (read_orders (orders_db w))))
    as [[i found]|] eqn:F; [|discriminate].
  cbn in Hget. injection Hget as ->.
  destruct Heff as [[Hsame _]|(out & d' & Hout & HR & Hdb)].
  - right. exists o. rewrite Hsame, F. split; [reflexivity | left; reflexivity].
  - destruct (lifecycle_write_order _ _ _ _ _ _ HR F) as (o' & F' & Hal).
    rewrite Hdb. destruct out; cbn [write_file read_orders].
    + right. exists o'. rewrite F'. split; [reflexivity | exact Hal].
    + right. exists o. rewrite F. split; [reflexivity | left; reflexivity].
    + left. destruct Hout as [Hout|Hin]; [discriminate|].
      split; [exact Hin | reflexivity].
Qed.

Lemma run_cons op ops w :
  run ADMIN_ID MAIN_CHAT_ID (op :: ops) w =
  run ADMIN_ID MAIN_CHAT_ID ops (snd (step ADMIN_ID MAIN_CHAT_ID op w)).
Proof. cbn [run]. rewrite bind_run. reflexivity. Qed.

(** Completed is terminal along every run without truncating failures. *)
Lemma completed_is_terminal ops : forall w order_id,
  never_truncated w ->
  status_of order_id w = Some Order.completed ->
  status_of order_id (snd (run ADMIN_ID MAIN_CHAT_ID ops w))
  = Some Order.completed.
Proof.
  induction ops as [|op ops IH]; intros w order_id Hnt Hst; [exact Hst|].
  rewrite run_cons. unfold status_of in Hst.
  destruct (fst (get_order order_id w)) as [o|] eqn:Hget; [|discriminate].
  cbn in Hst. injection Hst as Hst.
  destruct (step_order op w order_id o Hget) as [Hplan Hstep].
  apply IH.
  - intros Hin. apply Hnt, Hplan, Hin.
  - destruct Hstep as [[Hin _]|(o' & Hget' & Hal)]; [contradiction|].
    unfold status_of. rewrite Hget'. cbn. f_equal.
    destruct Hal as [Hal|[(Hact & _)|(Hin & _)]]; congruence.
Qed.

(** The guard of [operator_take_order]. *)
Lemma take_rejected now caller tg order_id w o :
  fst (get_order order_id w) = Some o ->
  Order.status o <> Order.active ->
  let r := operator_take_order ADMIN_ID MAIN_CHAT_ID now caller tg order_id w in
  fst r = (if fst (check_operator ADMIN_ID caller w)
           then Order_not_active else No_operator_rights)
  /\ orders_db (snd r) = orders_db w
  /\ orders_writes (journal (snd r)) = orders_writes (journal w)
  /\ fst (get_order order_id (snd r)) = Some o.
Proof.
  intros Hget Hst. unfold operator_take_order. rewrite bind_run.
  destruct (keeps_check_operator ADMIN_ID caller w) as (H1 & J1 & _).
  set (w1 := snd (check_operator ADMIN_ID caller w)) in *.
  assert (Hget1 : fst (get_order order_id w1) = Some o)
    by (rewrite get_order_fst, H1, <- get_order_fst; exact Hget).
  destruct (fst (check_operator ADMIN_ID caller w)); cbn [negb].
  - rewrite bind_run. rewrite Hget1.
    destruct (keeps_get_order order_id w1) as (H2 & J2 & _).
    set (w2 := snd (get_order order_id w1)) in *.
    destruct (Order.status_eqb (Order.status o) Order.active) eqn:E.
    + apply status_eqb_eq in E. contradiction.
    + cbn. repeat split; [congruence|congruence|].
      rewrite get_order_fst, H2, <- get_order_fst. exact Hget1.
  - cbn. auto.
Qed.

(** The guard of [operator_complete_order]. *)
Lemma complete_rejected now now_update caller order_id w o :
  fst (get_order order_id w) = Some o ->
  Order.status o <> Order.in_progress ->
  let r := operator_complete_order ADMIN_ID MAIN_CHAT_ID now now_update
             caller order_id w in
  fst r = (if fst (check_operator ADMIN_ID caller w)
           then Order_not_in_progress else No_operator_rights)
  /\ orders_db (snd r) = orders_db w
  /\ orders_writes (journal (snd r)) = orders_writes (journal w)
  /\ fst (get_order order_id (snd r)) = Some o.
Proof.
  intros Hget Hst. unfold operator_complete_order. rewrite bind_run.
  destruct (keeps_check_operator ADMIN_ID caller w) as (H1 & J1 & _).
  set (w1 := snd (check_operator ADMIN_ID caller w)) in *.
  assert (Hget1 : fst (get_order order_id w1) = Some o)
    by (rewrite get_order_fst, H1, <- get_order_fst; exact Hget).
  destruct (fst (check_operator ADMIN_ID caller w)); cbn [negb].
  - rewrite bind_run. rewrite Hget1.
    destruct (keeps_get_order order_id w1) as (H2 & J2 & _).
    set (w2 := snd (get_order order_id w1)) in *.
    destruct (Order.status_eqb (Order.status o) Order.in_progress) eqn:E.
    + apply status_eqb_eq in E. contradiction.
    + cbn. repeat split; [congruence|congruence|].
      rewrite get_order_fst, H2, <- get_order_fst. exact Hget1.
  - cbn. auto.
Qed.

Lemma plan_stays_empty {A} (c : M A) w :
  keeps_orders c -> write_plan w = [] -> write_plan (snd (c w)) = [].
Proof.
  intros Hc Hw. destruct (Hc w) as (_ & _ & Hin). rewrite Hw in Hin.
  destruct (write_plan (snd (c w))) as [|out plan]; [reflexivity|].
  destruct (Hin out (or_introl eq_refl)).
Qed.

Lemma update_order_present now order_id updates w i o :
  find_order order_id (orders (read_orders (orders_db w))) = Some (i, o) ->
  write_plan w = [] ->
  let updated := Order.merge o (updates ++ [Order.Set_updated_at now]) in
  let r := update_order now order_id updates w in
  fst r = Some updated
  /\ orders_db (snd r) =
     Holds (mkOrdersData
              (<[i := updated]> (orders (read_orders (orders_db w))))
              (next_id (read_orders (orders_db w))))
  /\ write_plan (snd r) = []
  /\ orders_writes (journal (snd r))
     = orders_writes (journal w) ++ [WriteOk].
Proof.
  intros F Hplan. unfold update_order. rewrite bind_run.
  rewrite get_orders_fst, F.
  destruct (get_orders_snd w) as (_ & _ & Ho & Hp & _ & Hj & _).
  set (w1 := snd (get_orders w)) in *. rewrite Hplan in Hp.
  rewrite bind_run. unfold save_orders, next_write. rewrite Hp. cbn.
  rewrite orders_writes_app, Hj. auto.
Qed.

(** With no write failure planned, an operator taking an active order gets
    it: the stored order is in progress and carries the operator. *)
Lemma take_active now caller tg order_id w o :
  fst (get_order order_id w) = Some o ->
  Order.status o = Order.active ->
  fst (check_operator ADMIN_ID caller w) = true ->
  write_plan w = [] ->
  let r := operator_take_order ADMIN_ID MAIN_CHAT_ID now caller tg order_id w in
  fst r = Order_taken
  /\ exists o', fst (get_order order_id (snd r)) = Some o'
                /\ Order.status o' = Order.in_progress
                /\ Order.operator_id o' = Some caller
                /\ Order.operator_username o' = Some (operator_name caller tg)
                /\ Order.updated_at o' = now.
Proof.
  intros Hget Hst Hok Hplan. unfold operator_take_order. rewrite bind_run.
  destruct (keeps_check_operator ADMIN_ID caller w) as (H1 & _).
  pose proof (plan_stays_empty _ w (keeps_check_operator ADMIN_ID caller)
                Hplan) as P1.
  set (w1 := snd (check_operator ADMIN_ID caller w)) in *.
  rewrite Hok. cbn [negb]. rewrite bind_run.
  destruct (keeps_get_order order_id w1) as (H2 & _).
  pose proof (plan_stays_empty _ w1 (keeps_get_order order_id) P1) as P2.
  set (w2 := snd (get_order order_id w1)) in *.
  rewrite get_order_fst in Hget |- *. rewrite H1.
  destruct (find_order order_id (orders (read_orders (orders_db w))))
    as [[i found]|] eqn:F; [|discriminate].
  cbn in Hget. injection Hget as ->. cbn [fmap option_fmap option_map snd].
  rewrite Hst. cbn [Order.status_eqb negb]. rewrite bind_run.
  assert (F2 : find_order order_id (orders (read_orders (orders_db w2)))
               = Some (i, o)) by (rewrite H2, H1; exact F).
  destruct (update_order_present now order_id
              [ Order.Set_status Order.in_progress;
                Order.Set_operator_id caller;
                Order.Set_operator_username (operator_name caller tg) ]
              w2 i o F2 P2) as (U1 & U2 & _).
  rewrite U1. rewrite bind_run. cbn [fst ret].
  split; [reflexivity|].
  destruct (keeps_notify_order_taken ADMIN_ID MAIN_CHAT_ID o
              (operator_name caller tg) caller order_id
              (snd (update_order now order_id
                      [ Order.Set_status Order.in_progress;
                        Order.Set_operator_id caller;
                        Order.Set_operator_username (operator_name caller tg) ]
                      w2))) as (N1 & _).
  cbn [snd ret]. rewrite get_order_fst, N1, U2. cbn [read_orders orders].
  pose proof (find_order_some _ _ _ _ F2) as [_ Hid].
  rewrite (find_order_insert order_id _ i o _ order_id F2)
    by (rewrite merge_id; exact Hid).
  rewrite Z.eqb_refl. eexists. split; [reflexivity|]. cbn. auto.
Qed.

(** C3. Completing an order that is not in progress (an active one in
    particular) is refused: the handler answers that the order is not in
    work (that the caller has no operator rights, when it has none), no
    write of the orders collection is attempted, the orders file is as
    before and the order reads back unchanged in every field. *)
Theorem complete_requires_in_progress
    (now now_update : string) (caller order_id : Z) (w : World) (o : Order.t)
    (Hfound : fst (get_order order_id w) = Some o)
    (Hstatus : Order.status o <> Order.in_progress) :
  let r := operator_complete_order ADMIN_ID MAIN_CHAT_ID now now_update
             caller order_id w in
  fst r = (if fst (check_operator ADMIN_ID caller w)
           then Order_not_in_progress else No_operator_rights)
  /\ orders_db (snd r) = orders_db w
  /\ orders_writes (journal (snd r)) = orders_writes (journal w)
  /\ fst (get_order order_id (snd r)) = Some o.
Proof. exact (complete_rejected now now_update caller order_id w o Hfound Hstatus). Qed.

(** C4. One lifecycle operation changes a stored order only by keeping its
    status, by active -> in_progress (a take of that order, which stamps
    the operator) or by in_progress -> completed (a completion of that
    order): in particular never active -> completed and never out of
    completed.  Completed stays completed along every run of operations
    with no truncating write failure.  Taking an order that is not active
    is refused without a write; taking an active one as an operator, with
    no write failure planned, puts it in progress under that operator. *)
Theorem lifecycle_transitions
    (w : World) (op : Op) (order_id : Z) (o : Order.t)
    (Hfound : fst (get_order order_id w) = Some o) :
  (forall o',
     fst (get_order order_id (snd (step ADMIN_ID MAIN_CHAT_ID op w)))
     = Some o' ->
     allowed op order_id o o'
     /\ ~ (Order.status o = Order.active
           /\ Order.status o' = Order.completed)
     /\ (Order.status o = Order.completed ->
         Order.status o' = Order.completed))
  /\ (Order.status o = Order.completed ->
      never_truncated w ->
      forall ops,
        status_of order_id (snd (run ADMIN_ID MAIN_CHAT_ID ops w))
        = Some Order.completed)
  /\ (Order.status o <> Order.active ->
      forall now caller tg,
        let r := operator_take_order ADMIN_ID MAIN_CHAT_ID now caller tg
                   order_id w in
        fst r = (if fst (check_operator ADMIN_ID caller w)
                 then Order_not_active else No_operator_rights)
        /\ orders_db (snd r) = orders_db w
        /\ orders_writes (journal (snd r)) = orders_writes (journal w)
        /\ fst (get_order order_id (snd r)) = Some o)
  /\ (Order.status o = Order.active ->
      forall now caller tg,
        fst (check_operator ADMIN_ID caller w) = true ->
        write_plan w = [] ->
        let r := operator_take_order ADMIN_ID MAIN_CHAT_ID now caller tg
                   order_id w in
        fst r = Order_taken
        /\ exists o', fst (get_order order_id (snd r)) = Some o'
                      /\ Order.status o' = Order.in_progress
                      /\ Order.operator_id o' = Some caller
                      /\ Order.operator_username o'
                         = Some (operator_name caller tg)
                      /\ Order.updated_at o' = now).
Proof.
  split; [|split; [|split]].
  - intros o' Hget'.
    destruct (step_order op w order_id o Hfound) as [_ Hstep].
    destruct Hstep as [[_ Hnone]|(o'' & Hget'' & Hal)]; [congruence|].
    assert (o'' = o') by congruence. subst o''.
    split; [exact Hal|].
    destruct Hal as [Hal|[(Ha & Hb & _)|(Ha & Hb & _)]];
      split; intros; intuition congruence.
  - intros Hst Hnt ops. apply completed_is_terminal; [exact Hnt|].
    unfold status_of. rewrite Hfound. cbn. now rewrite Hst.
  - intros Hst now caller tg.
    exact (take_rejected now caller tg order_id w o Hfound Hst).
  - intros Hst now caller tg Hok Hplan.
    exact (take_active now caller tg order_id w o Hfound Hst Hok Hplan).
Qed.

End Transitions.

(** ** Order numbering *)

Section Numbering.
Import Lifecycle.

Lemma parse_zeros k s d :
  NilEmpty.uint_of_string s = Some d ->
  exists d', NilEmpty.uint_of_string (String.append (zeros k) s) = Some d'
             /\ N.of_uint d' = N.of_uint d.
Proof.
  intros H. induction k as [|k (d' & Hd' & Hv)]; simpl.
  - exists d. auto.
  - rewrite Hd'. simpl. exists (Decimal.D0 d'). auto.
Qed.

Lemma parse_zero_fill width n :
  exists d', NilEmpty.uint_of_string (zero_fill width (digits n)) = Some d'
             /\ N.of_uint d' = n.
Proof.
  destruct (parse_zeros (width - String.length (digits n)) (digits n)
              (N.to_uint n) (NilEmpty.usu _)) as (d' & Hd' & Hv).
  exists d'. split; [exact Hd'|].
  rewrite Hv. apply DecimalN.Unsigned.of_to.
Qed.

Lemma zero_fill_inj width a b :
  zero_fill width (digits a) = zero_fill width (digits b) -> a = b.
Proof.
  intros H.
  destruct (parse_zero_fill width a) as (da & Ha & Va).
  destruct (parse_zero_fill width b) as (db & Hb & Vb).
  rewrite H, Hb in Ha. injection Ha as <-. congruence.
Qed.

Lemma parse_minus s : NilEmpty.uint_of_string (String "-"%char s) = None.
Proof. simpl. destruct (NilEmpty.uint_of_string s); reflexivity. Qed.

Lemma format_05d_inj a b : format_05d a = format_05d b -> a = b.
Proof.
  unfold format_05d. intros H.
  destruct (Z.ltb_spec a 0) as [Ha|Ha], (Z.ltb_spec b 0) as [Hb|Hb].
  - injection H as H. apply zero_fill_inj in H. lia.
  - exfalso. destruct (parse_zero_fill 5 (Z.to_N b)) as (d & Hd & _).
    rewrite <- H, parse_minus in Hd. discriminate.
  - exfalso. destruct (parse_zero_fill 5 (Z.to_N a)) as (d & Hd & _).
    rewrite H, parse_minus in Hd. discriminate.
  - apply zero_fill_inj in H. lia.
Qed.

(** The order number determines the identifier. *)
Lemma make_order_number_inj a b :
  make_order_number a = make_order_number b -> a = b.
Proof. unfold make_order_number. intros [= H]. exact (format_05d_inj a b H). Qed.





End Numbering.

(** ** Failed writes *)

Section FailedWrites.
Import Scenario.

(** The claim fails on the code: with the write failing, [save_orders] and
    [create_order] hand their caller exactly what they hand it when the
    write succeeds, nothing is stored, and the only trace of the failure is
    a log line. *)
Lemma failed_save_is_not_reported :
  let doc := mkOrdersData [order1] 2 in
  fst (save_orders doc fresh_failing) = fst (save_orders doc fresh)
  /\ orders_db (snd (save_orders doc fresh)) = Holds doc
  /\ orders_db (snd (save_orders doc fresh_failing)) = Holds empty_orders
  /\ log (snd (save_orders doc fresh_failing)) = [Error_saving_orders]
  /\ fst (create_order "t1" 5 "alice" Order.buy 1000 fresh_failing)
     = fst (create_order "t1" 5 "alice" Order.buy 1000 fresh)
  /\ fst (get_order 1
            (snd (create_order "t1" 5 "alice" Order.buy 1000 fresh_failing)))
     = None.
Proof. repeat split; reflexivity. Qed.

(** C8 (as the code has it). A save never reports a failed write: it
    returns to its caller in every case; on success the file holds the new
    document; when [open] fails the file is as before, when [json.dump]
    fails it is left unparsable, and either failure is only logged.  The
    attempt is journaled once.  This holds for the orders, users and
    configuration saves alike.  On read the stores fall back to their
    defaults without touching the file, and [create_order] returns the new
    order whatever became of its write. *)
Theorem saves_swallow_write_failures (w : World) :
  (forall doc,
     let w' := snd (save_orders doc w) in
     journal w' = journal w ++ [(OrdersDb, fst (next_write w))]
     /\ match fst (next_write w) with
        | WriteOk => orders_db w' = Holds doc /\ log w' = log w
        | WriteFailOpen =>
            orders_db w' = orders_db w
            /\ log w' = log w ++ [Error_saving_orders]
        | WriteFailDump =>
            orders_db w' = Unparsable
            /\ log w' = log w ++ [Error_saving_orders]
        end)
  /\ (forall doc,
        let w' := snd (save_users doc w) in
        journal w' = journal w ++ [(UsersDb, fst (next_write w))]
        /\ match fst (next_write w) with
           | WriteOk => users_db w' = Holds doc /\ log w' = log w
           | WriteFailOpen =>
               users_db w' = users_db w
               /\ log w' = log w ++ [Error_saving_users]
           | WriteFailDump =>
               users_db w' = Unparsable
               /\ log w' = log w ++ [Error_saving_users]
           end)
  /\ (forall doc,
        let w' := snd (save_config doc w) in
        journal w' = journal w ++ [(ConfigFile, fst (next_write w))]
        /\ match fst (next_write w) with
           | WriteOk =>
               config_file w' = Holds doc
               /\ log w' = log w ++ [Info_configuration_saved]
           | WriteFailOpen =>
               config_file w' = config_file w
               /\ log w' = log w ++ [Error_saving_configuration]
           | WriteFailDump =>
               config_file w' = Unparsable
               /\ log w' = log w ++ [Error_saving_configuration]
           end)
  /\ (fst (get_orders w) = read_orders (orders_db w)
      /\ orders_db (snd (get_orders w)) = orders_db w
      /\ journal (snd (get_orders w)) = journal w)
  /\ (forall now user_id username order_type amount,
        let d := read_orders (orders_db w) in
        fst (create_order now user_id username order_type amount w)
        = Order.mk (next_id d) (make_order_number (next_id d)) user_id
            username order_type amount Order.active now now
            None None None None).
Proof.
  split; [|split; [|split; [|split]]].
  - intros doc. unfold save_orders.
    destruct (next_write w) as [[| |] plan]; cbn; auto.
  - intros doc. unfold save_users.
    destruct (next_write w) as [[| |] plan]; cbn; auto.
  - intros doc. unfold save_config.
    destruct (next_write w) as [[| |] plan]; cbn; auto.
  - destruct (get_orders_snd w) as (_ & _ & Ho & _ & _ & Hj & _).
    split; [apply get_orders_fst | split; assumption].
  - intros. unfold create_order. rewrite bind_run, get_orders_fst.
    rewrite bind_run. reflexivity.
Qed.

End FailedWrites.

(** ** Referral payout *)

Section ReferralPayout.
Import Scenario Operator.

(** What the payout adds, in general: the spread times the value returned
    by [get_referral_percentage] (already a fraction), divided by 100. *)
Lemma referral_bonus_amount
    (w : World) users cfg levels user_id referrer_id user referrer spread :
  users_db w = Holds users ->
  config_file w = Holds cfg ->
  referral cfg = Some levels ->
  write_plan w = [] ->
  users !! user_id = Some user ->
  User.referrer_id user = Some referrer_id ->
  referrer_id <> 0%Z ->
  users !! referrer_id = Some referrer ->
  let p := scan_levels levels
             (Z.of_nat (List.length (User.referrals referrer))) in
  Qle_bool p 0 = false ->
  Qle_bool (spread * p / 100) 0 = false ->
  users_db (snd (process_referral_bonus user_id spread w))
  = Holds (<[referrer_id :=
               User.with_balance
                 (User.balance referrer + spread * p / 100) referrer]> users).
Proof.
  intros Hu Hc Hl Hp Huser Href Hnz Hreferrer p Hpos Hbonus.
  destruct w as [cf us os wp sp jr lg ob]. cbn in Hu, Hc, Hp. subst cf us wp.
  unfold process_referral_bonus, get_user, get_users, bind. cbn.
  rewrite Huser, Href.
  destruct (Z.eqb_spec referrer_id 0) as [?|_]; [contradiction|].
  cbn. rewrite Hreferrer.
  unfold get_referral_percentage, load_config, bind. cbn. rewrite Hl. cbn.
  fold p. rewrite Hpos, Hbonus.
  unfold save_user, get_users, save_users, bind. cbn.
  destruct (send_message _ _ _) as [sent w'] eqn:E.
  unfold send_message in E. cbn in E.
  destruct sp as [|[|] rest]; cbn in E; injection E as <- <-; reflexivity.
Qed.

(** Without a referrer the payout does nothing at all. *)
Lemma referral_bonus_skipped_without_referrer
    (w : World) users user_id user spread :
  users_db w = Holds users ->
  users !! user_id = Some user ->
  User.referrer_id user = None ->
  process_referral_bonus user_id spread w = (tt, w).
Proof.
  intros Hu Huser Href.
  unfold process_referral_bonus, get_user, get_users, bind.
  rewrite Hu. cbn. rewrite Huser, Href. reflexivity.
Qed.

(** C1, evaluated on the code.  The operator completes order 2 (a purchase
    of 5880 by user 5, whose referrer, user 9, has one referral).  The
    spread is 264, the referrer's level is the 10 percent one, and
    [get_referral_percentage] returns it as the fraction 0.10, which
    [process_referral_bonus] divides by 100 once more: the referrer's
    balance goes from 0 to 0.264, not to 264 * 10 / 100 = 26.4.  The owner's
    balance is untouched, and a payout for a user without referrer (user 9)
    leaves the users file as it was. *)
Theorem referral_bonus_pays_a_hundredth :
  let r := operator_complete_order ADMIN_ID MAIN_CHAT_ID
             "2024-01-02T09:00:00" "2024-01-02T09:00:01" 7 2 shop in
  fst r = Order_completed
  /\ (exists q, Order.spread <$> fst (get_order 2 (snd r)) = Some (Some q)
                /\ q == 264)
  /\ level_percentage <$> List.find (level_contains 1) default_levels
     = Some 10
  /\ fst (get_referral_percentage 1 shop) == 10 / 100
  /\ (exists b, User.balance <$> fst (get_user 9 (snd r)) = Some b
                /\ b == 0 + 264 * (10 / 100) / 100
                /\ b == 264 # 1000
                /\ ~ b == 0 + 264 * 10 / 100)
  /\ (exists b, User.balance <$> fst (get_user 5 (snd r)) = Some b /\ b == 0)
  /\ users_db (snd (process_referral_bonus 9 264 shop)) = users_db shop.
Proof.
  cbv zeta.
  split; [vm_compute; reflexivity|].
  split; [eexists; split; [vm_compute; reflexivity | reflexivity]|].
  split; [reflexivity|].
  split; [reflexivity|].
  split.
  { eexists. split; [vm_compute; reflexivity|].
    split; [reflexivity|]. split; [reflexivity|].
    intros H. vm_compute in H. discriminate H. }
  split; [eexists; split; [vm_compute; reflexivity | reflexivity]|].
  reflexivity.
Qed.

End ReferralPayout.

(** ** The theorems at work on the concrete shop *)

Section Witnesses.
Import Scenario Operator Lifecycle.

Lemma update_order_unknown_id_witness :
  (forall o, In o (orders (fst (get_orders shop))) -> Order.id o <> 42%Z)
  /\ fst (update_order "2024-01-02T09:00:00" 42
            [Order.Set_status Order.completed] shop) = None
  /\ orders_db (snd (update_order "2024-01-02T09:00:00" 42
                       [Order.Set_status Order.completed] shop))
     = orders_db shop.
Proof.
  assert (Habsent : forall o, In o (orders (fst (get_orders shop))) ->
                              Order.id o <> 42%Z).
  { intros o Hin. cbn in Hin.
    destruct Hin as [<-|[<-|[<-|[]]]]; discriminate. }
  split; [exact Habsent|].
  pose proof (update_order_unknown_id "2024-01-02T09:00:00" 42
                [Order.Set_status Order.completed] shop Habsent) as H.
  cbv zeta in H. destruct H as (H1 & H2 & _).
  split; [exact H1 | exact H2].
Defined.

Lemma complete_requires_in_progress_witness :
  fst (get_order 1 shop) = Some order1
  /\ Order.status order1 <> Order.in_progress
  /\ fst (operator_complete_order ADMIN_ID MAIN_CHAT_ID
            "2024-01-02T09:00:00" "2024-01-02T09:00:01" 7 1 shop)
     = Order_not_in_progress
  /\ fst (get_order 1
            (snd (operator_complete_order ADMIN_ID MAIN_CHAT_ID
                    "2024-01-02T09:00:00" "2024-01-02T09:00:01" 7 1 shop)))
     = Some order1.
Proof.
  assert (H1 : fst (get_order 1 shop) = Some order1) by reflexivity.
  assert (H2 : Order.status order1 <> Order.in_progress) by discriminate.
  split; [exact H1|]. split; [exact H2|].
  pose proof (complete_requires_in_progress ADMIN_ID MAIN_CHAT_ID
                "2024-01-02T09:00:00" "2024-01-02T09:00:01" 7 1 shop order1
                H1 H2) as H.
  cbv zeta in H. destruct H as (Ha & _ & _ & Hg).
  split; [exact Ha | exact Hg].
Defined.

Lemma lifecycle_transitions_witness :
  fst (get_order 1 shop) = Some order1
  /\ fst (operator_take_order ADMIN_ID MAIN_CHAT_ID "2024-01-02T09:00:00"
            7 (Some "carol"%string) 1 shop) = Order_taken
  /\ (exists o',
        fst (get_order 1
               (snd (operator_take_order ADMIN_ID MAIN_CHAT_ID
                       "2024-01-02T09:00:00" 7 (Some "carol"%string) 1 shop)))
        = Some o'
        /\ Order.status o' = Order.in_progress
        /\ Order.operator_id o' = Some 7%Z)
  /\ fst (get_order 3 shop) = Some order3
  /\ status_of 3
       (snd (run ADMIN_ID MAIN_CHAT_ID
               [ Take "2024-01-02T09:00:00" 7 (Some "carol"%string) 3;
                 Complete "2024-01-02T09:05:00" "2024-01-02T09:05:01" 7 3;
                 Create "2024-01-02T09:10:00" 5 "alice" Order.buy 1000 ]
               shop))
     = Some Order.completed.
Proof.
  assert (H1 : fst (get_order 1 shop) = Some order1) by reflexivity.
  assert (H3 : fst (get_order 3 shop) = Some order3) by reflexivity.
  pose proof (lifecycle_transitions ADMIN_ID MAIN_CHAT_ID shop
                (Take "2024-01-02T09:00:00" 7 (Some "carol"%string) 1)
                1 order1 H1) as (_ & _ & _ & Htake).
  pose proof (lifecycle_transitions ADMIN_ID MAIN_CHAT_ID shop
                (Take "2024-01-02T09:00:00" 7 (Some "carol"%string) 3)
                3 order3 H3) as (_ & Hterminal & _ & _).
  specialize (Htake eq_refl "2024-01-02T09:00:00"%string 7%Z
                (Some "carol"%string) eq_refl eq_refl).
  cbv zeta in Htake. destruct Htake as (Hans & o' & Hget & Hst & Hop & _).
  split; [exact H1|]. split; [exact Hans|].
  split; [exists o'; auto|]. split; [exact H3|].
  apply (Hterminal eq_refl). intros [].
Defined.


End Witnesses.


(** * Further properties *)

(** ** The calculator, continued *)

Section RatesMore.
Import RatesModel.

Lemma direction_rate_pos (r : Rates) (is_buy : bool) :
  valid_rates r -> 0 < direction_rate is_buy r.
Proof.
  intros (Hlb & Hls & Hub & Hus).
  destruct is_buy; apply Qmult_lt_0_compat; assumption.
Qed.

Lemma amount_from_rubles_value (r : Rates) (rub : Q) (is_buy : bool) :
  valid_rates r ->
  calculate_ltc_amount_from_rubles rub is_buy r
  = Some (rub / direction_rate is_buy r).
Proof.
  intros Hv. pose proof (direction_rate_pos r is_buy Hv) as Hpos.
  unfold calculate_ltc_amount_from_rubles, direction_rate in *.
  destruct is_buy; apply py_div_nonzero; lra.
Qed.

Lemma price_as_product (r : Rates) (c : Q) (is_buy : bool) :
  calculate_ltc_price_in_rubles c is_buy r == c * direction_rate is_buy r.
Proof.
  unfold calculate_ltc_price_in_rubles, direction_rate.
  destruct is_buy; ring.
Qed.

(** X1. For a valid rate set, the crypto amount a fiat amount buys (or
    sells for) is defined, and priced back in the same direction it is
    worth the fiat amount. *)
Theorem roundtrip_fiat_crypto
    (r : Rates) (rub : Q) (is_buy : bool) (Hvalid : valid_rates r) :
  exists c,
    calculate_ltc_amount_from_rubles rub is_buy r = Some c
    /\ calculate_ltc_price_in_rubles c is_buy r == rub.
Proof.
  pose proof (direction_rate_pos r is_buy Hvalid) as Hpos.
  exists (rub / direction_rate is_buy r).
  split; [apply amount_from_rubles_value; exact Hvalid|].
  rewrite price_as_product. field. lra.
Qed.

Lemma roundtrip_fiat_crypto_witness :
  valid_rates scenario_rates
  /\ exists c,
       calculate_ltc_amount_from_rubles 1000 true scenario_rates = Some c
       /\ calculate_ltc_price_in_rubles c true scenario_rates == 1000.
Proof.
  assert (Hv : valid_rates scenario_rates)
    by (unfold valid_rates; simpl; repeat split; reflexivity).
  split; [exact Hv|].
  exact (roundtrip_fiat_crypto scenario_rates 1000 true Hv).
Defined.

Lemma spread_as_product (r : Rates) (rub : Q) (is_buy : bool) :
  valid_rates r ->
  exists s,
    calculate_spread rub is_buy r = Some s
    /\ s == Qabs (rub / direction_rate is_buy r
                  * (direction_rate is_buy r - direction_rate (negb is_buy) r)).
Proof.
  intros Hv. unfold calculate_spread.
  rewrite (amount_from_rubles_value r rub is_buy Hv).
  destruct is_buy; cbn [negb]; (eexists; split; [reflexivity|]);
    apply Qabs_wd; unfold direction_rate; ring.
Qed.

(** X2. For a valid rate set the spread is defined, never negative, and
    equals |amount| * |buy price - sell price| / (price of the requested
    direction): it scales with the amount and vanishes when both
    directions price a unit alike. *)
Theorem spread_closed_form
    (r : Rates) (rub : Q) (is_buy : bool) (Hvalid : valid_rates r) :
  exists s,
    calculate_spread rub is_buy r = Some s
    /\ s == Qabs rub * Qabs (direction_rate true r - direction_rate false r)
            / direction_rate is_buy r
    /\ 0 <= s.
Proof.
  pose proof (direction_rate_pos r is_buy Hvalid) as Hpos.
  destruct (spread_as_product r rub is_buy Hvalid) as (s & Hs & Heq).
  exists s. split; [exact Hs|]. split.
  - rewrite Heq, Qabs_Qmult. unfold Qdiv at 1. rewrite Qabs_Qmult.
    rewrite (Qabs_pos (/ direction_rate is_buy r))
      by (apply Qlt_le_weak, Qinv_lt_0_compat; exact Hpos).
    assert (Hd : Qabs (direction_rate is_buy r - direction_rate (negb is_buy) r)
                 == Qabs (direction_rate true r - direction_rate false r)).
    { destruct is_buy; cbn [negb]; [reflexivity|].
      rewrite Qabs_Qminus. reflexivity. }
    rewrite Hd. field. lra.
  - rewrite Heq. apply Qabs_nonneg.
Qed.

Lemma spread_closed_form_witness :
  valid_rates scenario_rates
  /\ exists s,
       calculate_spread 1000 false scenario_rates = Some s
       /\ s == Qabs 1000
               * Qabs (direction_rate true scenario_rates
                       - direction_rate false scenario_rates)
               / direction_rate false scenario_rates
       /\ 0 <= s.
Proof.
  assert (Hv : valid_rates scenario_rates)
    by (unfold valid_rates; simpl; repeat split; reflexivity).
  split; [exact Hv|].
  exact (spread_closed_form scenario_rates 1000 false Hv).
Defined.

End RatesMore.

(** ** The handlers' spread *)

Section HelperSpread.
Import RatesModel.

Lemma load_config_fst (w : World) :
  fst (load_config w) = read_config (config_file w).
Proof.
  unfold load_config. destruct (config_file w); [|reflexivity|reflexivity].
  cbn. unfold bind. destruct (save_config DEFAULT_CONFIG _). reflexivity.
Qed.

Lemma helper_spread_value (w : World) (amount : Q) (ty : Order.OrderType) :
  let r := rates (read_config (config_file w)) in
  fst (Helpers.calculate_spread amount ty w) =
  match py_div amount (direction_rate (Order.is_buy ty) r) with
  | None => None
  | Some ltc_amount =>
      Some (round2
              (if Order.is_buy ty
               then amount - ltc_amount * direction_rate false r
               else ltc_amount * direction_rate true r - amount))
  end.
Proof.
  cbv zeta. unfold Helpers.calculate_spread, get_current_rates.
  rewrite bind_run, bind_run, load_config_fst. cbn [ret fst snd].
  unfold direction_rate.
  destruct ty; cbn [Order.is_buy];
    destruct (py_div amount _); reflexivity.
Qed.

End HelperSpread.

(** ** Referral levels of the older layout *)

Section LegacyLevels.

Lemma insert_sorted_in x l y :
  In y (insert_sorted x l) <-> y = x \/ In y l.
Proof.
  induction l as [|z l IH]; simpl; [intuition congruence|].
  destruct (pair_leb x z); simpl; [intuition congruence|].
  rewrite IH. intuition congruence.
Qed.

Lemma sorted_in l y : In y (sorted l) <-> In y l.
Proof.
  unfold sorted. induction l as [|x l IH]; simpl; [tauto|].
  rewrite insert_sorted_in, IH. intuition congruence.
Qed.

Lemma insert_sorted_strict x l :
  StronglySorted by_threshold l ->
  ~ In (fst x) (List.map fst l) ->
  StronglySorted by_threshold (insert_sorted x l).
Proof.
  induction 1 as [|z l Hs IH Hz]; intros Hfresh; simpl.
  - repeat constructor.
  - simpl in Hfresh.
    assert (Hne : fst z <> fst x) by tauto.
    assert (Hfresh' : ~ In (fst x) (List.map fst l)) by tauto.
    unfold pair_leb.
    destruct (Z.ltb_spec (fst x) (fst z)) as [Hlt|Hge]; simpl.
    + constructor; [constructor; assumption|].
      constructor; [exact Hlt|].
      apply List.Forall_forall. intros y Hy.
      rewrite List.Forall_forall in Hz. specialize (Hz y Hy).
      unfold by_threshold in *. lia.
    + destruct (Z.eqb_spec (fst x) (fst z)) as [He|_]; [congruence|].
      simpl. constructor; [apply IH; exact Hfresh'|].
      apply List.Forall_forall. intros y Hy.
      apply (proj1 (insert_sorted_in _ _ _)) in Hy. destruct Hy as [->|Hy].
      * unfold by_threshold. lia.
      * rewrite List.Forall_forall in Hz. exact (Hz y Hy).
Qed.

Lemma sorted_strict l :
  List.NoDup (List.map fst l) -> StronglySorted by_threshold (sorted l).
Proof.
  unfold sorted. induction l as [|x l IH]; simpl; intros Hnd.
  - constructor.
  - inversion Hnd as [|k ks Hk Hks]; subst.
    apply insert_sorted_strict; [apply IH; exact Hks|].
    intros Hin. apply Hk.
    apply List.in_map_iff in Hin. destruct Hin as (y & Hy & Hin).
    apply List.in_map_iff. exists y. split; [exact Hy|].
    apply (proj1 (sorted_in _ _)). exact Hin.
Qed.

Lemma scan_old_levels_above l : forall acc count,
  (forall k v, In (k, v) l -> (count < k)%Z) ->
  StronglySorted by_threshold l ->
  scan_old_levels acc l count = acc.
Proof.
  destruct l as [|[k v] l]; intros acc count Hall _; simpl; [reflexivity|].
  specialize (Hall k v (or_introl eq_refl)).
  destruct (Z.geb_spec count k); [lia|reflexivity].
Qed.

Lemma scan_old_levels_reached l : forall acc count k v,
  StronglySorted by_threshold l ->
  In (k, v) l -> (k <= count)%Z ->
  (forall k' v', In (k', v') l -> (k' <= count)%Z -> (k' <= k)%Z) ->
  scan_old_levels acc l count = v.
Proof.
  induction l as [|[k0 v0] l IH]; intros acc count k v Hs Hin Hk Hmax;
    [destruct Hin|].
  inversion Hs as [|z zs Hs' Hz]; subst. rewrite List.Forall_forall in Hz.
  simpl. destruct Hin as [[= -> ->]|Hin].
  - destruct (Z.geb_spec count k); [|lia].
    apply scan_old_levels_above; [|exact Hs'].
    intros k' v' Hin'. specialize (Hz _ Hin'). unfold by_threshold in Hz.
    simpl in Hz.
    destruct (Z.ltb_spec count k') as [|Hle]; [assumption|].
    specialize (Hmax k' v' (or_intror Hin') Hle). lia.
  - pose proof (Hz _ Hin) as Hlt. unfold by_threshold in Hlt. simpl in Hlt.
    destruct (Z.geb_spec count k0); [|lia].
    apply (IH v0 count k v Hs' Hin Hk).
    intros k' v' Hin' Hle'. exact (Hmax k' v' (or_intror Hin') Hle').
Qed.

(** X4. In the older configuration layout (no [referral] entry, a
    [referral_levels] dictionary with distinct thresholds),
    [get_referral_percentage] returns the value attached to the greatest
    threshold not above the count, whatever the order of the dictionary,
    and 0 when the count is below every threshold. *)
Theorem legacy_levels_greatest_threshold
    (w : World) (levels : list (Z * Q)) (count : Z)
    (Hnew : referral (read_config (config_file w)) = None)
    (Hold : referral_levels (read_config (config_file w)) = Some levels)
    (Hkeys : List.NoDup (List.map fst levels)) :
  (forall k v,
     In (k, v) levels -> (k <= count)%Z ->
     (forall k' v', In (k', v') levels -> (k' <= count)%Z -> (k' <= k)%Z) ->
     fst (get_referral_percentage count w) = v)
  /\ ((forall k v, In (k, v) levels -> (count < k)%Z) ->
      fst (get_referral_percentage count w) = 0).
Proof.
  assert (Hval : fst (get_referral_percentage count w)
                 = scan_old_levels 0 (sorted levels) count).
  { unfold get_referral_percentage. rewrite bind_run, load_config_fst.
    rewrite Hnew, Hold. reflexivity. }
  rewrite Hval. pose proof (sorted_strict levels Hkeys) as Hs. split.
  - intros k v Hin Hk Hmax.
    apply (scan_old_levels_reached (sorted levels) 0 count k v Hs).
    + apply (proj2 (sorted_in _ _)). exact Hin.
    + exact Hk.
    + intros k' v' Hin'. apply (proj1 (sorted_in _ _)) in Hin'.
      exact (Hmax k' v' Hin').
  - intros Hall. apply scan_old_levels_above; [|exact Hs].
    intros k v Hin. apply (proj1 (sorted_in _ _)) in Hin.
    exact (Hall k v Hin).
Qed.

Lemma legacy_levels_greatest_threshold_witness :
  referral (read_config (config_file MoreScenarios.legacy_shop)) = None
  /\ fst (get_referral_percentage 7 MoreScenarios.legacy_shop) = 15 # 100
  /\ fst (get_referral_percentage 0 MoreScenarios.legacy_shop) = 0.
Proof.
  assert (Hnew : referral (read_config (config_file MoreScenarios.legacy_shop))
                 = None) by reflexivity.
  assert (Hkeys : List.NoDup (List.map fst
                    [(10%Z, 2 # 10); (1%Z, 1 # 10); (20%Z, 25 # 100);
                     (5%Z, 15 # 100)])).
  { repeat constructor; simpl; intuition discriminate. }
  destruct (legacy_levels_greatest_threshold MoreScenarios.legacy_shop
              _ 7 Hnew eq_refl Hkeys) as [Hreach _].
  destruct (legacy_levels_greatest_threshold MoreScenarios.legacy_shop
              _ 0 Hnew eq_refl Hkeys) as [_ Hbelow].
  split; [exact Hnew|]. split.
  - apply (Hreach 5%Z (15 # 100)).
    + simpl. auto.
    + lia.
    + intros k' v' Hin Hle. simpl in Hin.
      destruct Hin as [[= <- <-]|[[= <- <-]|[[= <- <-]|[[= <- <-]|[]]]]]; lia.
  - apply Hbelow. intros k v Hin. simpl in Hin.
    destruct Hin as [[= <- <-]|[[= <- <-]|[[= <- <-]|[[= <- <-]|[]]]]]; lia.
Defined.

End LegacyLevels.

(** ** Which computations leave users and configuration alone *)

Lemma settings_ret {A} (a : A) : keeps_settings (ret a).
Proof. intros w. simpl. auto. Qed.

Lemma settings_bind {A B} (c : M A) (k : A -> M B) :
  keeps_settings c -> (forall a, keeps_settings (k a)) ->
  keeps_settings (bind c k).
Proof.
  intros Hc Hk w. rewrite bind_run.
  destruct (Hc w) as [H1 H2].
  destruct (Hk (fst (c w)) (snd (c w))) as [K1 K2].
  split; congruence.
Qed.

Lemma settings_logger e : keeps_settings (logger e).
Proof. intros w. simpl. auto. Qed.

Lemma settings_send_message chat text :
  keeps_settings (send_message chat text).
Proof.
  intros w. unfold send_message.
  destruct (send_plan w) as [|[|] rest]; simpl; auto.
Qed.

Lemma settings_get_users : keeps_settings get_users.
Proof.
  intros w. unfold get_users. destruct (users_db w) eqn:E; cbn; auto.
Qed.

Lemma settings_get_orders : keeps_settings get_orders.
Proof.
  intros w. unfold get_orders. destruct (orders_db w) eqn:E; cbn; auto.
Qed.

Lemma settings_save_orders d : keeps_settings (save_orders d).
Proof.
  intros w. unfold save_orders.
  destruct (next_write w) as [[| |] plan]; cbn; auto.
Qed.

(** Loading may write the default over a missing file: the file then still
    reads as the default. *)
Lemma settings_load_config : keeps_settings load_config.
Proof.
  intros w. destruct w as [cf us os wp sp jr lg ob].
  unfold load_config, save_config, next_write.
  destruct cf as [| |doc]; cbn; auto.
  destruct wp as [|[| |] plan]; cbn; auto.
Qed.

Create HintDb settings discriminated.
#[local] Hint Resolve settings_ret settings_logger settings_send_message
  settings_get_users settings_get_orders settings_save_orders
  settings_load_config : settings.

Ltac settings_step :=
  match goal with
  | |- keeps_settings (bind _ _) => apply settings_bind; [|intros ?]
  | |- keeps_settings (match ?x with _ => _ end) => destruct x
  | |- keeps_settings _ => solve [auto with settings]
  end.
Ltac settings_auto := repeat settings_step.

Lemma settings_get_user uid : keeps_settings (get_user uid).
Proof. unfold get_user. settings_auto. Qed.

Lemma settings_get_order oid : keeps_settings (get_order oid).
Proof. unfold get_order. settings_auto. Qed.

Lemma settings_is_admin adm uid : keeps_settings (is_admin adm uid).
Proof. unfold is_admin. settings_auto. Qed.

Lemma settings_get_current_rates : keeps_settings get_current_rates.
Proof. unfold get_current_rates. settings_auto. Qed.

Lemma settings_get_referral_percentage n :
  keeps_settings (get_referral_percentage n).
Proof. unfold get_referral_percentage. settings_auto. Qed.

#[local] Hint Resolve settings_get_user settings_get_order settings_is_admin
  settings_get_current_rates settings_get_referral_percentage : settings.

Lemma settings_check_admin adm uid : keeps_settings (check_admin adm uid).
Proof. unfold check_admin. settings_auto. Qed.
#[local] Hint Resolve settings_check_admin : settings.

Lemma settings_check_operator adm uid :
  keeps_settings (check_operator adm uid).
Proof. unfold check_operator. settings_auto. Qed.

Lemma settings_calculate_spread amount ty :
  keeps_settings (Helpers.calculate_spread amount ty).
Proof. unfold Helpers.calculate_spread. settings_auto. Qed.

Lemma settings_update_order now oid updates :
  keeps_settings (update_order now oid updates).
Proof. unfold update_order. settings_auto. Qed.

Lemma settings_create_order now uid name ty amount :
  keeps_settings (create_order now uid name ty amount).
Proof. unfold create_order. settings_auto. Qed.

#[local] Hint Resolve settings_check_operator settings_calculate_spread
  settings_update_order settings_create_order : settings.

(** ** Who counts as admin and as operator *)

Section Authorization.
Variable ADMIN_ID : Z.

Lemma get_user_fst (uid : Z) (w : World) :
  fst (get_user uid w) = read_users (users_db w) !! uid.
Proof.
  unfold get_user, get_users. rewrite bind_run.
  destruct (users_db w); reflexivity.
Qed.

Lemma is_admin_fst (uid : Z) (w : World) :
  fst (is_admin ADMIN_ID uid w)
  = (uid =? ADMIN_ID)%Z
    || existsb (Z.eqb uid) (admin_ids (read_config (config_file w))).
Proof.
  unfold is_admin. destruct (uid =? ADMIN_ID)%Z; [reflexivity|].
  rewrite bind_run, load_config_fst. reflexivity.
Qed.

(** The rights a user record and the configuration give to [uid]. *)
Lemma check_admin_fst (uid : Z) (w : World) :
  fst (check_admin ADMIN_ID uid w)
  = (uid =? ADMIN_ID)%Z
    || match read_users (users_db w) !! uid with
       | None => false
       | Some u =>
           User.is_admin_role (User.role u)
           || existsb (Z.eqb uid) (admin_ids (read_config (config_file w)))
       end.
Proof.
  unfold check_admin. destruct (uid =? ADMIN_ID)%Z eqn:E; [reflexivity|].
  rewrite bind_run, get_user_fst.
  destruct (settings_get_user uid w) as [_ Hc].
  destruct (read_users (users_db w) !! uid) as [u|]; [|reflexivity].
  destruct (User.is_admin_role (User.role u)); [reflexivity|].
  rewrite is_admin_fst, E, Hc. reflexivity.
Qed.

Lemma check_operator_fst (uid : Z) (w : World) :
  fst (check_operator ADMIN_ID uid w)
  = (uid =? ADMIN_ID)%Z
    || match read_users (users_db w) !! uid with
       | None => false
       | Some u =>
           User.is_operator_or_admin_role (User.role u)
           || existsb (Z.eqb uid) (admin_ids (read_config (config_file w)))
       end.
Proof.
  unfold check_operator. rewrite bind_run, check_admin_fst.
  destruct (settings_check_admin ADMIN_ID uid w) as [Hu _].
  destruct (uid =? ADMIN_ID)%Z; [reflexivity|]. cbn [orb].
  destruct (read_users (users_db w) !! uid) as [u|] eqn:Eu.
  - destruct (User.is_admin_role (User.role u)
              || existsb (Z.eqb uid)
                   (admin_ids (read_config (config_file w)))) eqn:Ea.
    + cbn. destruct (User.role u); cbn in *; try reflexivity;
        rewrite Ea; reflexivity.
    + rewrite bind_run, get_user_fst, Hu, Eu. cbn.
      apply orb_false_iff in Ea. destruct Ea as [_ ->].
      now rewrite orb_false_r.
  - rewrite bind_run, get_user_fst, Hu, Eu. reflexivity.
Qed.

(** X5. [check_operator] grants operator rights exactly to the fixed
    super-admin and to users that have a record and either the role
    operator or admin or an entry in the configuration's admin list;
    [check_admin] likewise with the role admin only.  Neither changes the
    users file, the orders file or what the configuration reads as. *)
Theorem operator_rights (uid : Z) (w : World) :
  fst (check_operator ADMIN_ID uid w)
  = (uid =? ADMIN_ID)%Z
    || match read_users (users_db w) !! uid with
       | None => false
       | Some u =>
           User.is_operator_or_admin_role (User.role u)
           || existsb (Z.eqb uid) (admin_ids (read_config (config_file w)))
       end
  /\ fst (check_admin ADMIN_ID uid w)
     = (uid =? ADMIN_ID)%Z
       || match read_users (users_db w) !! uid with
          | None => false
          | Some u =>
              User.is_admin_role (User.role u)
              || existsb (Z.eqb uid) (admin_ids (read_config (config_file w)))
          end
  /\ users_db (snd (check_operator ADMIN_ID uid w)) = users_db w
  /\ read_config (config_file (snd (check_operator ADMIN_ID uid w)))
     = read_config (config_file w)
  /\ orders_db (snd (check_operator ADMIN_ID uid w)) = orders_db w
  /\ users_db (snd (check_admin ADMIN_ID uid w)) = users_db w
  /\ read_config (config_file (snd (check_admin ADMIN_ID uid w)))
     = read_config (config_file w)
  /\ orders_db (snd (check_admin ADMIN_ID uid w)) = orders_db w.
Proof.
  split; [apply check_operator_fst|]. split; [apply check_admin_fst|].
  destruct (settings_check_operator ADMIN_ID uid w) as [Hu Hc].
  destruct (keeps_check_operator ADMIN_ID uid w) as (Ho & _).
  destruct (settings_check_admin ADMIN_ID uid w) as [Hu' Hc'].
  destruct (keeps_check_admin ADMIN_ID uid w) as (Ho' & _).
  repeat split; assumption.
Qed.

(** X6. A user listed in the configuration's admin list who has no user
    record (and is not the super-admin) is an admin for [is_admin] and yet
    neither admin nor operator for [check_admin] and [check_operator],
    the checks the handlers use. *)
Theorem listed_admin_without_record
    (uid : Z) (w : World)
    (Hsuper : uid <> ADMIN_ID)
    (Hlisted : In uid (admin_ids (read_config (config_file w))))
    (Hrecord : read_users (users_db w) !! uid = None) :
  fst (is_admin ADMIN_ID uid w) = true
  /\ fst (check_admin ADMIN_ID uid w) = false
  /\ fst (check_operator ADMIN_ID uid w) = false.
Proof.
  rewrite is_admin_fst, check_admin_fst, check_operator_fst, Hrecord.
  destruct (Z.eqb_spec uid ADMIN_ID) as [?|_]; [contradiction|].
  cbn [orb]. repeat split.
  apply existsb_exists. exists uid. split; [exact Hlisted|apply Z.eqb_refl].
Qed.

End Authorization.

Lemma listed_admin_without_record_witness :
  11%Z <> Scenario.ADMIN_ID
  /\ In 11%Z (admin_ids (read_config (config_file MoreScenarios.legacy_shop)))
  /\ read_users (users_db MoreScenarios.legacy_shop) !! 11%Z = None
  /\ fst (is_admin Scenario.ADMIN_ID 11 MoreScenarios.legacy_shop) = true
  /\ fst (check_admin Scenario.ADMIN_ID 11 MoreScenarios.legacy_shop) = false
  /\ fst (check_operator Scenario.ADMIN_ID 11 MoreScenarios.legacy_shop)
     = false.
Proof.
  assert (H1 : 11%Z <> Scenario.ADMIN_ID) by discriminate.
  assert (H2 : In 11%Z (admin_ids (read_config
                 (config_file MoreScenarios.legacy_shop))))
    by (simpl; auto).
  assert (H3 : read_users (users_db MoreScenarios.legacy_shop) !! 11%Z = None)
    by reflexivity.
  split; [exact H1|]. split; [exact H2|]. split; [exact H3|].
  exact (listed_admin_without_record Scenario.ADMIN_ID 11
           MoreScenarios.legacy_shop H1 H2 H3).
Defined.

(** ** Users: saving, reading back, referrals *)

Section UsersStore.
Import Queries.

Lemma save_user_stores (uid : Z) (data : User.t) (w : World) :
  let w1 := snd (save_user uid data w) in
  users_db w1
  = write_file (fst (next_write w))
      (<[uid := data]> (read_users (users_db w))) (users_db w)
  /\ config_file w1 = config_file w
  /\ orders_db w1 = orders_db w.
Proof.
  destruct w as [cf us os wp sp jr lg ob].
  unfold save_user, get_users, save_users, next_write, bind.
  destruct us as [| |users]; destruct wp as [|[| |] plan]; cbn; auto.
Qed.

(** X7. After a [save_user] whose write succeeds, [get_user] returns the
    saved record and every other user reads as before; the file then holds
    the users read before plus this record, so on a missing or unreadable
    file it holds this record alone. *)
Theorem save_user_then_get_user
    (uid : Z) (data : User.t) (w : World)
    (Hok : fst (next_write w) = WriteOk) :
  let w1 := snd (save_user uid data w) in
  fst (get_user uid w1) = Some data
  /\ (forall other, other <> uid ->
        fst (get_user other w1) = fst (get_user other w))
  /\ users_db w1 = Holds (<[uid := data]> (read_users (users_db w)))
  /\ (users_db w <> Holds (read_users (users_db w)) ->
      users_db w1 = Holds {[uid := data]}).
Proof.
  cbv zeta. destruct (save_user_stores uid data w) as (Hu & _ & _).
  rewrite Hok in Hu. cbn [write_file] in Hu.
  split; [|split; [|split]].
  - rewrite get_user_fst, Hu. cbn. apply lookup_insert_eq.
  - intros other Hne. rewrite !get_user_fst, Hu. cbn.
    apply lookup_insert_ne. congruence.
  - exact Hu.
  - intros Hbad. rewrite Hu.
    destruct (users_db w) as [| |users]; cbn in *;
      [reflexivity|reflexivity|congruence].
Qed.

Lemma save_user_then_get_user_witness :
  fst (next_write Scenario.shop) = WriteOk
  /\ fst (get_user 8 (snd (save_user 8 Scenario.clerk Scenario.shop)))
     = Some Scenario.clerk
  /\ fst (get_user 5 (snd (save_user 8 Scenario.clerk Scenario.shop)))
     = Some Scenario.owner.
Proof.
  assert (Hok : fst (next_write Scenario.shop) = WriteOk) by reflexivity.
  pose proof (save_user_then_get_user 8 Scenario.clerk Scenario.shop Hok) as H.
  cbv zeta in H. destruct H as (H1 & H2 & _).
  split; [exact Hok|]. split; [exact H1|].
  rewrite (H2 5%Z) by discriminate. reflexivity.
Defined.

Lemma existsb_eqb_in (x : Z) (l : list Z) :
  existsb (Z.eqb x) l = true <-> In x l.
Proof.
  rewrite existsb_exists. split.
  - intros (y & Hy & He). apply Z.eqb_eq in He. now subst.
  - intros H. exists x. split; [exact H | apply Z.eqb_refl].
Qed.

(** X8. [add_referral] treats the referral list as a set: for an existing
    user (and no write failure) the referral is in the list afterwards, is
    appended only when it was not there, a list without duplicates stays
    so, no other user changes, and repeating the call changes nothing.
    For an unknown user nothing is written. *)
Theorem add_referral_is_set_insertion
    (uid referral : Z) (w : World)
    (Hplan : write_plan w = []) :
  let w1 := snd (add_referral uid referral w) in
  match read_users (users_db w) !! uid with
  | Some u =>
      fst (get_referrals uid w1)
      = (if existsb (Z.eqb referral) (User.referrals u)
         then User.referrals u else User.referrals u ++ [referral])
      /\ In referral (fst (get_referrals uid w1))
      /\ (List.NoDup (User.referrals u) ->
          List.NoDup (fst (get_referrals uid w1)))
      /\ (forall other, other <> uid ->
            fst (get_user other w1) = fst (get_user other w))
      /\ snd (add_referral uid referral w1) = w1
  | None =>
      users_db w1 = users_db w /\ journal w1 = journal w
      /\ fst (get_referrals uid w1) = []
  end.
Proof.
  destruct w as [cf us os wp sp jr lg ob]. cbn in Hplan. subst wp.
  cbv zeta. cbn [users_db].
  destruct (read_users us !! uid) as [u|] eqn:Eu.
  - destruct us as [| |users]; cbn in Eu;
      try (rewrite lookup_empty in Eu; discriminate).
    unfold add_referral, get_referrals, get_user, get_users, bind.
    cbn. rewrite Eu.
    destruct (existsb (Z.eqb referral) (User.referrals u)) eqn:Ein; cbn.
    + rewrite Eu. cbn. rewrite Ein.
      repeat split; try reflexivity; try tauto.
      apply existsb_eqb_in. exact Ein.
    + unfold save_user, get_users, save_users, bind, next_write. cbn.
      rewrite lookup_insert_eq. cbn.
      assert (Hnow : existsb (Z.eqb referral)
                       (User.referrals u ++ [referral]) = true).
      { apply existsb_eqb_in, in_or_app. right. left. reflexivity. }
      rewrite Hnow.
      split; [reflexivity|]. split; [apply in_or_app; right; left; reflexivity|].
      split; [|split; [|reflexivity]].
      * intros Hnd. apply List.NoDup_app; [exact Hnd| |].
        -- repeat constructor. intros [].
        -- intros x Hx [<-|[]].
           apply existsb_eqb_in in Hx. congruence.
      * intros other Hne. rewrite lookup_insert_ne by congruence. reflexivity.
  - unfold add_referral, get_referrals, get_user, get_users, bind.
    destruct us as [| |users]; cbn in *; rewrite ?Eu; cbn; auto.
    rewrite Eu. auto.
Qed.

Lemma add_referral_is_set_insertion_witness :
  write_plan Scenario.shop = []
  /\ fst (get_referrals 9 (snd (add_referral 9 6 Scenario.shop))) = [5; 6]%Z
  /\ fst (get_referrals 9 (snd (add_referral 9 5 Scenario.shop))) = [5]%Z.
Proof.
  assert (Hp : write_plan Scenario.shop = []) by reflexivity.
  pose proof (add_referral_is_set_insertion 9 6 Scenario.shop Hp) as H6.
  pose proof (add_referral_is_set_insertion 9 5 Scenario.shop Hp) as H5.
  cbv zeta in H6, H5.
  change (read_users (users_db Scenario.shop) !! 9%Z)
    with (Some Scenario.referrer) in H6, H5.
  destruct H6 as (H6 & _). destruct H5 as (H5 & _).
  split; [exact Hp|]. split; [exact H6 | exact H5].
Defined.

End UsersStore.

(** ** The numbering of the orders document *)

Section NumberingInvariant.
Import Operator Lifecycle Queries.
Variables ADMIN_ID MAIN_CHAT_ID : Z.

Lemma merge_order_number o updates :
  Order.order_number (Order.merge o updates) = Order.order_number o.
Proof.
  unfold Order.merge. revert o.
  induction updates as [|a updates IH]; intros o; simpl; [reflexivity|].
  rewrite IH. destruct a; reflexivity.
Qed.

Lemma in_list_insert {A} (l : list A) i x y :
  In y (<[i := x]> l) -> y = x \/ In y l.
Proof.
  revert i. induction l as [|z l IH]; intros i H; [destruct H|].
  destruct i as [|i]; simpl in H.
  - destruct H as [<-|H]; [left; reflexivity | right; right; exact H].
  - destruct H as [<-|H]; [right; left; reflexivity|].
    destruct (IH i H) as [->|Hin]; [left; reflexivity | right; right; exact Hin].
Qed.

Lemma rewrite_keeps_numbering (d : OrdersData) i o o' :
  orders d !! i = Some o ->
  Order.id o' = Order.id o ->
  Order.order_number o' = Order.order_number o ->
  well_numbered d ->
  well_numbered (mkOrdersData (<[i := o']> (orders d)) (next_id d)).
Proof.
  intros Hi Hid Hnum [Hnd Hall]. split; cbn [orders next_id].
  - change (List.map Order.id (<[i := o']> (orders d)))
      with (Order.id <$> <[i := o']> (orders d)).
    rewrite list_fmap_insert, Hid.
    rewrite list_insert_id; [exact Hnd|].
    rewrite list_lookup_fmap, Hi. reflexivity.
  - intros x Hx. apply in_list_insert in Hx. destruct Hx as [->|Hx].
    + assert (Hin : In o (orders d))
        by (apply list_elem_of_In, list_elem_of_lookup; eauto).
      rewrite Hid, Hnum. exact (Hall o Hin).
    + exact (Hall x Hx).
Qed.

Lemma lifecycle_write_keeps_numbering op d d' :
  lifecycle_write op d d' -> well_numbered d -> well_numbered d'.
Proof.
  intros Hw Hwf. destruct Hw as
    [ now user_id username order_type amount d
    | now caller tg target d j old Hold Hst
    | now now_update caller target d j old spread Hold Hst Hop ].
  - destruct Hwf as [Hnd Hall]. split; cbn [orders next_id].
    + rewrite List.map_app. cbn [List.map Order.id].
      apply List.NoDup_app; [exact Hnd|repeat constructor; intros []|].
      intros x Hx [<-|[]].
      apply List.in_map_iff in Hx. destruct Hx as (o & Ho & Hin).
      destruct (Hall o Hin) as [Hlt _]. lia.
    + intros o Hin. apply in_app_or in Hin. destruct Hin as [Hin|[<-|[]]].
      * destruct (Hall o Hin) as [Hlt Hnum]. split; [lia | exact Hnum].
      * cbn. split; [lia | reflexivity].
  - destruct (find_order_some _ _ _ _ Hold) as [Hi _].
    apply (rewrite_keeps_numbering d j old); auto using merge_id,
      merge_order_number.
  - destruct (find_order_some _ _ _ _ Hold) as [Hi _].
    apply (rewrite_keeps_numbering d j old); auto using merge_id,
      merge_order_number.
Qed.

Lemma empty_orders_well_numbered : well_numbered empty_orders.
Proof. split; [constructor | intros o []]. Qed.

Lemma step_keeps_numbering op w :
  well_numbered (read_orders (orders_db w)) ->
  well_numbered
    (read_orders (orders_db (snd (step ADMIN_ID MAIN_CHAT_ID op w)))).
Proof.
  intros Hwf.
  destruct (effect_step ADMIN_ID MAIN_CHAT_ID op w) as [_ Heff].
  destruct Heff as [[Hsame _]|(out & d' & _ & HR & Hdb)].
  - rewrite Hsame. exact Hwf.
  - rewrite Hdb. destruct out; cbn [write_file read_orders].
    + exact (lifecycle_write_keeps_numbering _ _ _ HR Hwf).
    + exact Hwf.
    + exact empty_orders_well_numbered.
Qed.

(** X9. Along every run of lifecycle operations, whatever the outcomes of
    the writes, the orders document stays well numbered: identifiers are
    pairwise distinct and below [next_id], and every order number is the
    one derived from its identifier. *)
Theorem numbering_is_invariant
    (ops : list Op) (w : World)
    (Hwf : well_numbered (read_orders (orders_db w))) :
  well_numbered
    (read_orders (orders_db (snd (run ADMIN_ID MAIN_CHAT_ID ops w)))).
Proof.
  revert w Hwf. induction ops as [|op ops IH]; intros w Hwf; [exact Hwf|].
  rewrite (run_cons ADMIN_ID MAIN_CHAT_ID). apply IH.
  apply step_keeps_numbering. exact Hwf.
Qed.

Lemma find_by_number_is_find_by_id (l : list Order.t) (k : Z) :
  (forall o, In o l ->
     Order.order_number o = make_order_number (Order.id o)) ->
  List.find (fun o => String.eqb (Order.order_number o) (make_order_number k))
    l
  = snd <$> find_order k l.
Proof.
  induction l as [|o l IH]; intros Hnum; [reflexivity|].
  cbn [List.find find_order].
  rewrite (Hnum o (or_introl eq_refl)).
  destruct (Z.eqb_spec (Order.id o) k) as [->|Hne].
  - rewrite String.eqb_refl. reflexivity.
  - destruct (String.eqb_spec (make_order_number (Order.id o))
                (make_order_number k)) as [He|_].
    + apply make_order_number_inj in He. contradiction.
    + rewrite IH by (intros x Hx; apply Hnum; right; exact Hx).
      destruct (find_order k l) as [[i found]|]; reflexivity.
Qed.

(** X10. On a well-numbered orders document, looking an order up by the
    number derived from an identifier gives what looking it up by the
    identifier gives (the same order, or none). *)
Theorem lookup_by_number_is_lookup_by_id
    (k : Z) (w : World)
    (Hwf : well_numbered (read_orders (orders_db w))) :
  fst (get_order_by_number (make_order_number k) w) = fst (get_order k w).
Proof.
  rewrite get_order_fst. unfold get_order_by_number.
  rewrite bind_run, get_orders_fst. cbn [ret fst].
  apply find_by_number_is_find_by_id.
  intros o Hin. exact (proj2 (proj2 Hwf o Hin)).
Qed.

End NumberingInvariant.

Lemma shop_well_numbered :
  well_numbered (read_orders (orders_db Scenario.shop)).
Proof.
  split.
  - cbn. repeat constructor; simpl; intuition discriminate.
  - intros o Hin. cbn in Hin.
    destruct Hin as [<-|[<-|[<-|[]]]]; split; reflexivity.
Qed.

Lemma numbering_is_invariant_witness :
  well_numbered (read_orders (orders_db Scenario.shop))
  /\ well_numbered
       (read_orders
          (orders_db
             (snd (Lifecycle.run Scenario.ADMIN_ID Scenario.MAIN_CHAT_ID
                     [ Lifecycle.Take "2024-01-02T09:00:00" 7
                         (Some "carol"%string) 1;
                       Lifecycle.Create "2024-01-02T09:10:00" 5 "alice"
                         Order.buy 1000 ]
                     Scenario.shop)))).
Proof.
  split; [exact shop_well_numbered|].
  exact (numbering_is_invariant Scenario.ADMIN_ID Scenario.MAIN_CHAT_ID _
           Scenario.shop shop_well_numbered).
Defined.

Lemma lookup_by_number_is_lookup_by_id_witness :
  well_numbered (read_orders (orders_db Scenario.shop))
  /\ fst (Queries.get_order_by_number (make_order_number 2) Scenario.shop)
     = fst (get_order 2 Scenario.shop).
Proof.
  split; [exact shop_well_numbered|].
  exact (lookup_by_number_is_lookup_by_id 2 Scenario.shop shop_well_numbered).
Defined.

(** ** What the operator handlers refuse *)

Section HandlerGuards.
Import Operator Lifecycle.
Variables ADMIN_ID MAIN_CHAT_ID : Z.

Lemma update_order_fst now order_id updates (w : World) :
  fst (update_order now order_id updates w)
  = match find_order order_id (orders (read_orders (orders_db w))) with
    | Some (_, o) =>
        Some (Order.merge o (updates ++ [Order.Set_updated_at now]))
    | None => None
    end.
Proof.
  unfold update_order. rewrite bind_run, get_orders_fst.
  destruct (find_order order_id (orders (read_orders (orders_db w))))
    as [[i o]|]; [|reflexivity].
  rewrite bind_run. reflexivity.
Qed.

(** X11. [operator_complete_order] answers that the order is completed
    only to a caller with operator rights to whom the order, in progress,
    is assigned (the super-admin included: an order assigned to someone
    else is refused); with any other answer it attempts no write of the
    orders collection and leaves the orders file as it was. *)
Theorem completion_is_reserved
    (now now_update : string) (caller order_id : Z) (w : World) :
  let r := operator_complete_order ADMIN_ID MAIN_CHAT_ID now now_update
             caller order_id w in
  (fst r = Order_completed ->
   fst (check_operator ADMIN_ID caller w) = true
   /\ exists o, fst (get_order order_id w) = Some o
                /\ Order.status o = Order.in_progress
                /\ Order.operator_id o = Some caller)
  /\ (fst r <> Order_completed ->
      orders_db (snd r) = orders_db w
      /\ orders_writes (journal (snd r)) = orders_writes (journal w)).
Proof.
  cbv zeta. unfold operator_complete_order. rewrite bind_run.
  destruct (keeps_check_operator ADMIN_ID caller w) as (H1 & J1 & _).
  set (w1 := snd (check_operator ADMIN_ID caller w)) in *.
  destruct (fst (check_operator ADMIN_ID caller w)); cbn [negb];
    [|cbn; split; [discriminate | auto]].
  rewrite bind_run.
  destruct (keeps_get_order order_id w1) as (H2 & J2 & _).
  set (w2 := snd (get_order order_id w1)) in *.
  rewrite (get_order_fst order_id w), (get_order_fst order_id w1), H1.
  destruct (find_order order_id (orders (read_orders (orders_db w))))
    as [[i o]|] eqn:F; cbn [fmap option_fmap option_map snd];
    [|cbn; split; [discriminate | split; congruence]].
  destruct (Order.status_eqb (Order.status o) Order.in_progress) eqn:Est;
    cbn [negb]; [|cbn; split; [discriminate | split; congruence]].
  apply status_eqb_eq in Est.
  destruct (bool_decide (Order.operator_id o = Some caller)) eqn:Eop;
    cbn [negb]; [|cbn; split; [discriminate | split; congruence]].
  apply bool_decide_eq_true in Eop.
  rewrite bind_run.
  destruct (keeps_calculate_spread (Order.amount o) (Order.order_type o) w2)
    as (H3 & J3 & _).
  set (w3 := snd (Helpers.calculate_spread _ _ w2)) in *.
  destruct (fst (Helpers.calculate_spread _ _ w2)) as [spread|];
    [|cbn; split; [discriminate | split; congruence]].
  rewrite bind_run, update_order_fst, H3, H2, H1, F.
  rewrite bind_run. cbn [ret fst snd].
  split; [|congruence].
  intros _. split; [reflexivity|]. exists o. auto.
Qed.

(** X12. [operator_take_order] answers that the order is taken only to a
    caller with operator rights and for an order that was active; with any
    other answer it attempts no write of the orders collection and leaves
    the orders file as it was. *)
Theorem taking_is_reserved
    (now : string) (caller : Z) (tg : option string) (order_id : Z)
    (w : World) :
  let r := operator_take_order ADMIN_ID MAIN_CHAT_ID now caller tg
             order_id w in
  (fst r = Order_taken ->
   fst (check_operator ADMIN_ID caller w) = true
   /\ exists o, fst (get_order order_id w) = Some o
                /\ Order.status o = Order.active)
  /\ (fst r <> Order_taken ->
      orders_db (snd r) = orders_db w
      /\ orders_writes (journal (snd r)) = orders_writes (journal w)).
Proof.
  cbv zeta. unfold operator_take_order. rewrite bind_run.
  destruct (keeps_check_operator ADMIN_ID caller w) as (H1 & J1 & _).
  set (w1 := snd (check_operator ADMIN_ID caller w)) in *.
  destruct (fst (check_operator ADMIN_ID caller w)); cbn [negb];
    [|cbn; split; [discriminate | auto]].
  rewrite bind_run.
  destruct (keeps_get_order order_id w1) as (H2 & J2 & _).
  set (w2 := snd (get_order order_id w1)) in *.
  rewrite (get_order_fst order_id w), (get_order_fst order_id w1), H1.
  destruct (find_order order_id (orders (read_orders (orders_db w))))
    as [[i o]|] eqn:F; cbn [fmap option_fmap option_map snd];
    [|cbn; split; [discriminate | split; congruence]].
  destruct (Order.status_eqb (Order.status o) Order.active) eqn:Est;
    cbn [negb]; [|cbn; split; [discriminate | split; congruence]].
  apply status_eqb_eq in Est.
  rewrite bind_run, update_order_fst, H2, H1, F.
  rewrite bind_run. cbn [ret fst snd].
  split; [|congruence].
  intros _. split; [reflexivity|]. exists o. auto.
Qed.

End HandlerGuards.

Lemma completion_is_reserved_witness :
  fst (Operator.operator_complete_order Scenario.ADMIN_ID
         Scenario.MAIN_CHAT_ID "2024-01-02T09:00:00" "2024-01-02T09:00:01"
         Scenario.ADMIN_ID 2 Scenario.shop) <> Operator.Order_completed
  /\ orders_db
       (snd (Operator.operator_complete_order Scenario.ADMIN_ID
               Scenario.MAIN_CHAT_ID "2024-01-02T09:00:00"
               "2024-01-02T09:00:01" Scenario.ADMIN_ID 2 Scenario.shop))
     = orders_db Scenario.shop.
Proof.
  assert (Hne : fst (Operator.operator_complete_order Scenario.ADMIN_ID
                       Scenario.MAIN_CHAT_ID "2024-01-02T09:00:00"
                       "2024-01-02T09:00:01" Scenario.ADMIN_ID 2
                       Scenario.shop) <> Operator.Order_completed)
    by (vm_compute; discriminate).
  split; [exact Hne|].
  exact (proj1 (proj2 (completion_is_reserved Scenario.ADMIN_ID
                         Scenario.MAIN_CHAT_ID "2024-01-02T09:00:00"
                         "2024-01-02T09:00:01" Scenario.ADMIN_ID 2
                         Scenario.shop) Hne)).
Defined.

Lemma taking_is_reserved_witness :
  fst (Operator.operator_take_order Scenario.ADMIN_ID Scenario.MAIN_CHAT_ID
         "2024-01-02T09:00:00" 5 None 1 Scenario.shop)
  <> Operator.Order_taken
  /\ orders_db
       (snd (Operator.operator_take_order Scenario.ADMIN_ID
               Scenario.MAIN_CHAT_ID "2024-01-02T09:00:00" 5 None 1
               Scenario.shop))
     = orders_db Scenario.shop.
Proof.
  assert (Hne : fst (Operator.operator_take_order Scenario.ADMIN_ID
                       Scenario.MAIN_CHAT_ID "2024-01-02T09:00:00" 5 None 1
                       Scenario.shop) <> Operator.Order_taken)
    by (vm_compute; discriminate).
  split; [exact Hne|].
  exact (proj1 (proj2 (taking_is_reserved Scenario.ADMIN_ID
                         Scenario.MAIN_CHAT_ID "2024-01-02T09:00:00" 5 None 1
                         Scenario.shop) Hne)).
Defined.

(** ** Completing an order *)

Section Completion.
Import Operator Lifecycle.
Variables ADMIN_ID MAIN_CHAT_ID : Z.

Lemma py_div_zero (a b : Q) : b == 0 -> RatesModel.py_div a b = None.
Proof.
  intros H. unfold RatesModel.py_div.
  now rewrite (proj2 (Qeq_bool_iff b 0) H).
Qed.

(** The worlds the completion handler goes through before it updates the
    order read the same orders, users and configuration as the first. *)
Lemma before_update (caller order_id : Z) (amount : Q)
    (ty : Order.OrderType) (w : World) :
  let w1 := snd (check_operator ADMIN_ID caller w) in
  let w2 := snd (get_order order_id w1) in
  let w3 := snd (Helpers.calculate_spread amount ty w2) in
  orders_db w1 = orders_db w /\ orders_db w2 = orders_db w
  /\ orders_db w3 = orders_db w
  /\ orders_writes (journal w3) = orders_writes (journal w)
  /\ read_config (config_file w2) = read_config (config_file w)
  /\ (write_plan w = [] -> write_plan w3 = []).
Proof.
  cbv zeta.
  destruct (keeps_check_operator ADMIN_ID caller w) as (H1 & J1 & _).
  destruct (settings_check_operator ADMIN_ID caller w) as (_ & C1).
  set (w1 := snd (check_operator ADMIN_ID caller w)) in *.
  destruct (keeps_get_order order_id w1) as (H2 & J2 & _).
  destruct (settings_get_order order_id w1) as (_ & C2).
  set (w2 := snd (get_order order_id w1)) in *.
  destruct (keeps_calculate_spread amount ty w2) as (H3 & J3 & _).
  repeat split; try congruence.
  intros Hp.
  apply plan_stays_empty; [apply keeps_calculate_spread|].
  apply plan_stays_empty; [apply keeps_get_order|].
  apply plan_stays_empty; [apply keeps_check_operator | exact Hp].
Qed.

(** X13. When the configured rates make the price of the order's
    direction zero, completing an order (in progress, by its operator)
    ends in the division error: the orders file is not written and the
    order stays in progress. *)
Theorem completion_with_zero_rate
    (now now_update : string) (caller order_id : Z) (w : World) (o : Order.t)
    (Hop : fst (check_operator ADMIN_ID caller w) = true)
    (Hfound : fst (get_order order_id w) = Some o)
    (Hstatus : Order.status o = Order.in_progress)
    (Hassigned : Order.operator_id o = Some caller)
    (Hzero : direction_rate (Order.is_buy (Order.order_type o))
               (rates (read_config (config_file w))) == 0) :
  let r := operator_complete_order ADMIN_ID MAIN_CHAT_ID now now_update
             caller order_id w in
  fst r = Raised_ZeroDivisionError
  /\ orders_db (snd r) = orders_db w
  /\ orders_writes (journal (snd r)) = orders_writes (journal w)
  /\ fst (get_order order_id (snd r)) = Some o.
Proof.
  cbv zeta. unfold operator_complete_order. rewrite bind_run, Hop.
  cbn [negb]. rewrite bind_run.
  destruct (before_update caller order_id (Order.amount o)
              (Order.order_type o) w) as (H1 & H2 & H3 & J3 & C2 & _).
  cbv zeta in H1, H2, H3, J3, C2.
  set (w1 := snd (check_operator ADMIN_ID caller w)) in *.
  set (w2 := snd (get_order order_id w1)) in *.
  assert (Hget1 : fst (get_order order_id w1) = Some o)
    by (rewrite get_order_fst, H1, <- get_order_fst; exact Hfound).
  rewrite Hget1, Hstatus. cbn [Order.status_eqb negb].
  rewrite (bool_decide_eq_true_2 _ Hassigned). cbn [negb].
  rewrite bind_run.
  set (w3 := snd (Helpers.calculate_spread _ _ w2)) in *.
  rewrite (helper_spread_value w2), C2, (py_div_zero _ _ Hzero).
  cbn. repeat split; [exact H3 | exact J3|].
  rewrite get_order_fst, H3, <- get_order_fst. exact Hfound.
Qed.

(** X14. With no write failure planned and a non-zero price for the
    order's direction, the operator an order in progress is assigned to
    completes it: the stored order is completed, stamped with the
    completion time and with the spread computed from the current rates,
    and keeps its identifier, owner, amount, type and operator. *)
Theorem completion_succeeds
    (now now_update : string) (caller order_id : Z) (w : World) (o : Order.t)
    (Hop : fst (check_operator ADMIN_ID caller w) = true)
    (Hfound : fst (get_order order_id w) = Some o)
    (Hstatus : Order.status o = Order.in_progress)
    (Hassigned : Order.operator_id o = Some caller)
    (Hrate : ~ direction_rate (Order.is_buy (Order.order_type o))
                 (rates (read_config (config_file w))) == 0)
    (Hplan : write_plan w = []) :
  let r := operator_complete_order ADMIN_ID MAIN_CHAT_ID now now_update
             caller order_id w in
  fst r = Order_completed
  /\ exists o' s,
       fst (get_order order_id (snd r)) = Some o'
       /\ fst (Helpers.calculate_spread (Order.amount o)
                 (Order.order_type o) w) = Some s
       /\ Order.status o' = Order.completed
       /\ Order.spread o' = Some s
       /\ Order.completed_at o' = Some now
       /\ Order.updated_at o' = now_update
       /\ Order.id o' = Order.id o
       /\ Order.order_number o' = Order.order_number o
       /\ Order.user_id o' = Order.user_id o
       /\ Order.amount o' = Order.amount o
       /\ Order.order_type o' = Order.order_type o
       /\ Order.operator_id o' = Some caller.
Proof.
  cbv zeta. unfold operator_complete_order. rewrite bind_run, Hop.
  cbn [negb]. rewrite bind_run.
  destruct (before_update caller order_id (Order.amount o)
              (Order.order_type o) w) as (H1 & H2 & H3 & J3 & C2 & P3).
  cbv zeta in H1, H2, H3, J3, C2, P3. specialize (P3 Hplan).
  set (w1 := snd (check_operator ADMIN_ID caller w)) in *.
  set (w2 := snd (get_order order_id w1)) in *.
  assert (Hget1 : fst (get_order order_id w1) = Some o)
    by (rewrite get_order_fst, H1, <- get_order_fst; exact Hfound).
  rewrite Hget1, Hstatus. cbn [Order.status_eqb negb].
  rewrite (bool_decide_eq_true_2 _ Hassigned). cbn [negb].
  rewrite bind_run.
  set (w3 := snd (Helpers.calculate_spread _ _ w2)) in *.
  rewrite (helper_spread_value w), (helper_spread_value w2), C2.
  rewrite (py_div_nonzero _ _ Hrate).
  set (s := round2 _).
  rewrite get_order_fst in Hfound.
  destruct (find_order order_id (orders (read_orders (orders_db w))))
    as [[i found]|] eqn:F; [|discriminate].
  cbn in Hfound. injection Hfound as ->.
  assert (F3 : find_order order_id (orders (read_orders (orders_db w3)))
               = Some (i, o)) by (rewrite H3; exact F).
  rewrite bind_run.
  destruct (update_order_present now_update order_id
              [ Order.Set_status Order.completed;
                Order.Set_completed_at now;
                Order.Set_spread s ] w3 i o F3 P3) as (U1 & U2 & _).
  rewrite U1. rewrite bind_run. cbn [fst snd ret].
  split; [reflexivity|].
  set (updated := Order.merge o _) in *.
  destruct (keeps_send_order_notification ADMIN_ID MAIN_CHAT_ID updated
              (snd (update_order now_update order_id
                      [ Order.Set_status Order.completed;
                        Order.Set_completed_at now;
                        Order.Set_spread s ] w3))) as (N1 & _).
  rewrite get_order_fst, N1, U2. cbn [read_orders orders].
  pose proof (find_order_some _ _ _ _ F3) as [_ Hid].
  rewrite (find_order_insert order_id _ i o _ order_id F3)
    by (unfold updated; rewrite merge_id; exact Hid).
  rewrite Z.eqb_refl. exists updated, s. cbn.
  repeat split; try reflexivity. exact Hassigned.
Qed.

End Completion.

Lemma completion_succeeds_witness :
  fst (check_operator Scenario.ADMIN_ID 7 Scenario.shop) = true
  /\ fst (get_order 2 Scenario.shop) = Some Scenario.order2
  /\ fst (Operator.operator_complete_order Scenario.ADMIN_ID
            Scenario.MAIN_CHAT_ID "2024-01-02T09:00:00" "2024-01-02T09:00:01"
            7 2 Scenario.shop) = Operator.Order_completed.
Proof.
  assert (H1 : fst (check_operator Scenario.ADMIN_ID 7 Scenario.shop) = true)
    by reflexivity.
  assert (H2 : fst (get_order 2 Scenario.shop) = Some Scenario.order2)
    by reflexivity.
  assert (H3 : ~ direction_rate (Order.is_buy (Order.order_type Scenario.order2))
                   (rates (read_config (config_file Scenario.shop))) == 0)
    by (vm_compute; discriminate).
  split; [exact H1|]. split; [exact H2|].
  exact (proj1 (completion_succeeds Scenario.ADMIN_ID Scenario.MAIN_CHAT_ID
                  "2024-01-02T09:00:00" "2024-01-02T09:00:01" 7 2
                  Scenario.shop Scenario.order2 H1 H2 eq_refl eq_refl H3
                  eq_refl)).
Defined.

Lemma completion_with_zero_rate_witness :
  fst (check_operator Scenario.ADMIN_ID 7 MoreScenarios.zero_rate_shop) = true
  /\ fst (get_order 2 MoreScenarios.zero_rate_shop) = Some Scenario.order2
  /\ direction_rate (Order.is_buy (Order.order_type Scenario.order2))
       (rates (read_config (config_file MoreScenarios.zero_rate_shop))) == 0
  /\ fst (Operator.operator_complete_order Scenario.ADMIN_ID
            Scenario.MAIN_CHAT_ID "2024-01-02T09:00:00" "2024-01-02T09:00:01"
            7 2 MoreScenarios.zero_rate_shop)
     = Operator.Raised_ZeroDivisionError
  /\ fst (get_order 2
            (snd (Operator.operator_complete_order Scenario.ADMIN_ID
                    Scenario.MAIN_CHAT_ID "2024-01-02T09:00:00"
                    "2024-01-02T09:00:01" 7 2 MoreScenarios.zero_rate_shop)))
     = Some Scenario.order2.
Proof.
  assert (H1 : fst (check_operator Scenario.ADMIN_ID 7
                      MoreScenarios.zero_rate_shop) = true) by reflexivity.
  assert (H2 : fst (get_order 2 MoreScenarios.zero_rate_shop)
               = Some Scenario.order2) by reflexivity.
  assert (H3 : direction_rate (Order.is_buy (Order.order_type Scenario.order2))
                 (rates (read_config
                    (config_file MoreScenarios.zero_rate_shop))) == 0)
    by reflexivity.
  pose proof (completion_with_zero_rate Scenario.ADMIN_ID
                Scenario.MAIN_CHAT_ID "2024-01-02T09:00:00"
                "2024-01-02T09:00:01" 7 2 MoreScenarios.zero_rate_shop
                Scenario.order2 H1 H2 eq_refl eq_refl H3) as H.
  cbv zeta in H. destruct H as (Ha & _ & _ & Hg).
  repeat split; assumption.
Defined.

(** ** What a completion does to the users *)

Section Settlement.
Variables ADMIN_ID MAIN_CHAT_ID : Z.

Lemma settings_bonus_notice rid text :
  keeps_settings
    (bind (send_message rid text)
       (fun sent => match sent with
                    | SendOk => ret tt
                    | SendFail => logger Error_bonus_notification
                    end)).
Proof. settings_auto. Qed.

(** The payout leaves the users file as it is, or attempts one write that
    credits the referrer. *)
Lemma bonus_effect (uid : Z) (spread : Q) (w : World) users :
  users_db w = Holds users ->
  let w' := snd (process_referral_bonus uid spread w) in
  users_db w' = Holds users
  \/ exists rid ref bonus out,
       users !! rid = Some ref /\ 0 < bonus
       /\ (write_plan w = [] -> out = WriteOk)
       /\ users_db w'
          = write_file out
              (<[rid := User.with_balance (User.balance ref + bonus) ref]>
                 users)
              (Holds users).
Proof.
  intros Hu. cbv zeta. unfold process_referral_bonus. rewrite bind_run.
  destruct (settings_get_user uid w) as [U1 _].
  pose proof (plan_stays_empty _ w (keeps_get_user uid)) as P1.
  set (w1 := snd (get_user uid w)) in *. rewrite Hu in U1.
  rewrite get_user_fst, Hu. cbn [read_users].
  destruct (users !! uid) as [u|]; [|left; cbn; exact U1].
  destruct (User.referrer_id u) as [rid|]; [|left; exact U1].
  destruct (rid =? 0)%Z; [left; exact U1|].
  rewrite bind_run.
  destruct (settings_get_user rid w1) as [U2 _].
  pose proof (plan_stays_empty _ w1 (keeps_get_user rid)) as P2.
  set (w2 := snd (get_user rid w1)) in *. rewrite U1 in U2.
  rewrite get_user_fst, U1. cbn [read_users].
  destruct (users !! rid) as [ref|] eqn:Eref; [|left; cbn; exact U2].
  rewrite bind_run.
  set (n := Z.of_nat (List.length (User.referrals ref))).
  destruct (settings_get_referral_percentage n w2) as [U3 _].
  pose proof (plan_stays_empty _ w2 (keeps_get_referral_percentage n)) as P3.
  set (w3 := snd (get_referral_percentage n w2)) in *. rewrite U2 in U3.
  set (p := fst (get_referral_percentage n w2)).
  destruct (Qle_bool p 0); [left; exact U3|].
  destruct (Qle_bool (spread * p / 100) 0) eqn:Eb; [left; exact U3|].
  right. exists rid, ref, (spread * p / 100), (fst (next_write w3)).
  split; [exact Eref|]. split.
  { apply Qnot_le_lt. intros Hle. apply Qle_bool_iff in Hle. congruence. }
  split.
  { intros Hp. unfold next_write. rewrite (P3 (P2 (P1 Hp))). reflexivity. }
  rewrite bind_run.
  destruct (settings_bonus_notice rid
              (Msg_referral_bonus (User.username u) (spread * p / 100) p
                 (User.balance
                    (User.with_balance
                       (User.balance ref + spread * p / 100) ref)))
              (snd (save_user rid
                      (User.with_balance
                         (User.balance ref + spread * p / 100) ref) w3)))
    as [U5 _].
  cbv beta. rewrite U5.
  destruct (save_user_stores rid
              (User.with_balance (User.balance ref + spread * p / 100) ref)
              w3) as (U4 & _ & _).
  rewrite U4, U3. reflexivity.
Qed.

(** X15. The referral payout only ever credits: if the users file is
    readable before and after, either no user changed or exactly one
    record, the referrer's, was rewritten with a strictly larger balance
    and every other field as before. *)
Theorem referral_payout_only_credits
    (uid : Z) (spread : Q) (w : World) (users users' : gmap Z User.t)
    (Hbefore : users_db w = Holds users)
    (Hafter : users_db (snd (process_referral_bonus uid spread w))
              = Holds users') :
  users' = users
  \/ exists rid ref bonus,
       users !! rid = Some ref /\ 0 < bonus
       /\ users' = <[rid := User.with_balance (User.balance ref + bonus) ref]>
                     users.
Proof.
  destruct (bonus_effect uid spread w users Hbefore)
    as [Hsame|(rid & ref & bonus & out & Href & Hpos & _ & Hdb)].
  - left. congruence.
  - rewrite Hdb in Hafter. destruct out; cbn in Hafter.
    + right. exists rid, ref, bonus. injection Hafter as <-. auto.
    + left. congruence.
    + discriminate.
Qed.

(** X16. When the completion notice cannot be delivered to the order's
    owner, the settlement is skipped altogether: no referral bonus, no
    update of the owner's statistics, no write to any file; the failure is
    logged. *)
Theorem undelivered_notice_skips_settlement
    (order : Order.t) (w : World) (rest : list send_outcome)
    (Howner : Order.user_id order <> 0%Z)
    (Hfail : send_plan w = SendFail :: rest) :
  let w' := snd (send_order_notification ADMIN_ID MAIN_CHAT_ID order w) in
  users_db w' = users_db w
  /\ orders_db w' = orders_db w
  /\ config_file w' = config_file w
  /\ journal w' = journal w
  /\ log w' = log w ++ [Error_order_notification].
Proof.
  destruct w as [cf us os wp sp jr lg ob]. cbn in Hfail. subst sp.
  cbv zeta. unfold send_order_notification.
  destruct (Z.eqb_spec (Order.user_id order) 0) as [?|_]; [contradiction|].
  unfold notification_failed, send_message, logger, bind. cbn.
  destruct rest as [|[|] rest]; cbn; auto.
Qed.

End Settlement.

Lemma referral_payout_only_credits_witness :
  users_db Scenario.shop = Holds Scenario.shop_users
  /\ (exists users',
        users_db (snd (process_referral_bonus 5 264 Scenario.shop))
        = Holds users'
        /\ (users' = Scenario.shop_users
            \/ exists rid ref bonus,
                 Scenario.shop_users !! rid = Some ref /\ 0 < bonus
                 /\ users' = <[rid := User.with_balance
                                        (User.balance ref + bonus) ref]>
                               Scenario.shop_users)).
Proof.
  assert (H1 : users_db Scenario.shop = Holds Scenario.shop_users)
    by reflexivity.
  split; [exact H1|].
  eexists. split; [vm_compute; reflexivity|].
  apply (referral_payout_only_credits 5 264 Scenario.shop _ _ H1).
  vm_compute. reflexivity.
Defined.

Lemma undelivered_notice_skips_settlement_witness :
  Order.user_id MoreScenarios.order2_completed <> 0%Z
  /\ send_plan MoreScenarios.unreachable_shop = [SendFail]
  /\ users_db
       (snd (send_order_notification Scenario.ADMIN_ID Scenario.MAIN_CHAT_ID
               MoreScenarios.order2_completed MoreScenarios.unreachable_shop))
     = users_db MoreScenarios.unreachable_shop.
Proof.
  assert (H1 : Order.user_id MoreScenarios.order2_completed <> 0%Z)
    by discriminate.
  assert (H2 : send_plan MoreScenarios.unreachable_shop = [SendFail])
    by reflexivity.
  split; [exact H1|]. split; [exact H2|].
  exact (proj1 (undelivered_notice_skips_settlement Scenario.ADMIN_ID
                  Scenario.MAIN_CHAT_ID MoreScenarios.order2_completed
                  MoreScenarios.unreachable_shop [] H1 H2)).
Defined.

Section OwnerStatistics.
Variables ADMIN_ID MAIN_CHAT_ID : Z.

Lemma send_message_delivered chat text (w : World) :
  send_plan w = [] ->
  fst (send_message chat text w) = SendOk
  /\ send_plan (snd (send_message chat text w)) = []
  /\ users_db (snd (send_message chat text w)) = users_db w
  /\ write_plan (snd (send_message chat text w)) = write_plan w.
Proof.
  intros H. unfold send_message. rewrite H. cbn. auto.
Qed.

(** X17. When a completed order is notified with every message delivered
    and every write succeeding, the owner's record ends with the order's
    amount added to the total volume and one more completed order; the
    balance has not decreased and role, referrals and referrer are as
    before. *)
Theorem completion_updates_owner_statistics
    (order : Order.t) (w : World) (users : gmap Z User.t) (u : User.t) (s : Q)
    (Husers : users_db w = Holds users)
    (Howner : users !! Order.user_id order = Some u)
    (Hid : Order.user_id order <> 0%Z)
    (Hspread : Order.spread order = Some s)
    (Hplan : write_plan w = [])
    (Hsend : send_plan w = []) :
  let w' := snd (send_order_notification ADMIN_ID MAIN_CHAT_ID order w) in
  exists u',
    fst (get_user (Order.user_id order) w') = Some u'
    /\ User.total_volume u' = User.total_volume u + Order.amount order
    /\ User.completed_orders u' = (User.completed_orders u + 1)%Z
    /\ User.balance u <= User.balance u'
    /\ User.role u' = User.role u
    /\ User.referrals u' = User.referrals u
    /\ User.referrer_id u' = User.referrer_id u.
Proof.
  cbv zeta. unfold send_order_notification.
  destruct (Z.eqb_spec (Order.user_id order) 0) as [?|_]; [contradiction|].
  rewrite bind_run.
  destruct (send_message_delivered (Order.user_id order)
              (Msg_client_completed order) w Hsend) as (A1 & S1 & U1 & P1).
  set (w1 := snd (send_message (Order.user_id order) _ w)) in *.
  rewrite A1, bind_run.
  destruct (send_message_delivered MAIN_CHAT_ID (Msg_group_completed order)
              w1 S1) as (A2 & S2 & U2 & P2).
  set (w2 := snd (send_message MAIN_CHAT_ID _ w1)) in *.
  rewrite A2. unfold settle_completed. rewrite Hspread, bind_run.
  assert (Hu2 : users_db w2 = Holds users) by congruence.
  assert (Hp2 : write_plan w2 = []) by congruence.
  set (c := if Qlt_le_dec 0 s
            then process_referral_bonus (Order.user_id order) s
            else ret tt).
  assert (H3 : write_plan (snd (c w2)) = []
               /\ exists users3 u3,
                    users_db (snd (c w2)) = Holds users3
                    /\ users3 !! Order.user_id order = Some u3
                    /\ User.balance u <= User.balance u3
                    /\ User.total_volume u3 = User.total_volume u
                    /\ User.completed_orders u3 = User.completed_orders u
                    /\ User.role u3 = User.role u
                    /\ User.referrals u3 = User.referrals u
                    /\ User.referrer_id u3 = User.referrer_id u).
  { unfold c. destruct (Qlt_le_dec 0 s).
    - split; [apply plan_stays_empty;
              [apply keeps_process_referral_bonus | exact Hp2]|].
      destruct (bonus_effect (Order.user_id order) s w2 users Hu2)
        as [Hsame|(rid & ref & bonus & out & Href & Hpos & Hout & Hdb)].
      + exists users, u. rewrite Hsame. repeat split; auto. apply Qle_refl.
      + rewrite (Hout Hp2) in Hdb. cbn in Hdb.
        destruct (Z.eq_dec rid (Order.user_id order)) as [->|Hne].
        * assert (ref = u) by congruence. subst ref.
          eexists _, _. split; [exact Hdb|]. rewrite lookup_insert_eq.
          split; [reflexivity|]. cbn. repeat split; try reflexivity. lra.
        * exists (<[rid := User.with_balance (User.balance ref + bonus) ref]>
                    users), u.
          split; [exact Hdb|]. rewrite lookup_insert_ne by exact Hne.
          repeat split; auto. apply Qle_refl.
    - split; [exact Hp2|]. exists users, u. cbn.
      repeat split; auto. apply Qle_refl. }
  destruct H3 as (P3 & users3 & u3 & U3 & L3 & Hbal & Hvol & Hcnt & Hrole
                  & Hrefs & Hrid).
  set (w3 := snd (c w2)) in *.
  rewrite bind_run. cbv beta. fold w3.
  rewrite (get_user_fst (Order.user_id order) w3), U3.
  cbn [read_users]. rewrite L3.
  destruct (settings_get_user (Order.user_id order) w3) as [U4 _].
  pose proof (plan_stays_empty _ w3 (keeps_get_user (Order.user_id order)) P3)
    as P4.
  set (w4 := snd (get_user (Order.user_id order) w3)) in *.
  destruct (save_user_stores (Order.user_id order)
              (User.with_stats (User.total_volume u3 + Order.amount order)
                 (User.completed_orders u3 + 1)%Z u3) w4) as (U5 & _ & _).
  rewrite get_user_fst, U5. unfold next_write. rewrite P4.
  cbn [fst write_file read_users]. rewrite lookup_insert_eq.
  eexists. split; [reflexivity|]. cbn.
  rewrite Hvol, Hcnt. repeat split; auto.
Qed.

End OwnerStatistics.

Lemma completion_updates_owner_statistics_witness :
  users_db Scenario.shop = Holds Scenario.shop_users
  /\ Scenario.shop_users !! Order.user_id MoreScenarios.order2_completed
     = Some Scenario.owner
  /\ exists u',
       fst (get_user (Order.user_id MoreScenarios.order2_completed)
              (snd (send_order_notification Scenario.ADMIN_ID
                      Scenario.MAIN_CHAT_ID MoreScenarios.order2_completed
                      Scenario.shop))) = Some u'
       /\ User.completed_orders u'
          = (User.completed_orders Scenario.owner + 1)%Z.
Proof.
  assert (H1 : users_db Scenario.shop = Holds Scenario.shop_users)
    by reflexivity.
  assert (H2 : Scenario.shop_users
               !! Order.user_id MoreScenarios.order2_completed
               = Some Scenario.owner) by reflexivity.
  assert (H3 : Order.user_id MoreScenarios.order2_completed <> 0%Z)
    by discriminate.
  split; [exact H1|]. split; [exact H2|].
  destruct (completion_updates_owner_statistics Scenario.ADMIN_ID
              Scenario.MAIN_CHAT_ID MoreScenarios.order2_completed
              Scenario.shop Scenario.shop_users Scenario.owner 264
              H1 H2 H3 eq_refl eq_refl eq_refl)
    as (u' & Hget & _ & Hcnt & _).
  exists u'. split; assumption.
Defined.

(** ** The operators' views of the orders *)

Section Views.
Import Operator Lifecycle Queries.
Variables ADMIN_ID MAIN_CHAT_ID : Z.

Lemma filter_insert_count {A} (P : A -> bool) (l : list A) i o o' :
  l !! i = Some o ->
  (List.length (List.filter P (<[i := o']> l)) + Nat.b2n (P o)
   = List.length (List.filter P l) + Nat.b2n (P o'))%nat.
Proof.
  revert i. induction l as [|x l IH]; intros i H; [discriminate|].
  destruct i as [|i].
  - change (<[0%nat := o']> (x :: l)) with (o' :: l).
    injection H as <-. cbn [List.filter].
    destruct (P x), (P o'); cbn [Datatypes.length Nat.b2n]; lia.
  - change (<[S i := o']> (x :: l)) with (x :: <[i := o']> l).
    specialize (IH i H). cbn [List.filter].
    destruct (P x); cbn [Datatypes.length]; lia.
Qed.

Lemma filter_insert_unaffected {A} (P : A -> bool) (l : list A) i o o' :
  l !! i = Some o -> P o = false -> P o' = false ->
  List.filter P (<[i := o']> l) = List.filter P l.
Proof.
  revert i. induction l as [|x l IH]; intros i H Ho Ho'; [discriminate|].
  destruct i as [|i].
  - change (<[0%nat := o']> (x :: l)) with (o' :: l).
    injection H as <-. cbn [List.filter]. now rewrite Ho, Ho'.
  - change (<[S i := o']> (x :: l)) with (x :: <[i := o']> l).
    cbn [List.filter]. rewrite (IH i H Ho Ho'). reflexivity.
Qed.

Lemma in_insert_self {A} (l : list A) i o o' :
  l !! i = Some o -> In o' (<[i := o']> l).
Proof.
  revert i. induction l as [|x l IH]; intros i H; [discriminate|].
  destruct i as [|i]; cbn in H |- *; [left; reflexivity|].
  right. exact (IH i H).
Qed.

(** What a successful take leaves in the orders file. *)
Lemma take_active_store now caller tg order_id w i o :
  find_order order_id (orders (read_orders (orders_db w))) = Some (i, o) ->
  Order.status o = Order.active ->
  fst (check_operator ADMIN_ID caller w) = true ->
  write_plan w = [] ->
  orders_db
    (snd (operator_take_order ADMIN_ID MAIN_CHAT_ID now caller tg order_id w))
  = Holds
      (mkOrdersData
         (<[i := Order.merge o
                   [ Order.Set_status Order.in_progress;
                     Order.Set_operator_id caller;
                     Order.Set_operator_username (operator_name caller tg);
                     Order.Set_updated_at now ]]>
            (orders (read_orders (orders_db w))))
         (next_id (read_orders (orders_db w)))).
Proof.
  intros F Hst Hok Hplan. unfold operator_take_order.
  rewrite bind_run, Hok. cbn [negb].
  destruct (keeps_check_operator ADMIN_ID caller w) as (H1 & _).
  pose proof (plan_stays_empty _ w (keeps_check_operator ADMIN_ID caller)
                Hplan) as P1.
  set (w1 := snd (check_operator ADMIN_ID caller w)) in *.
  rewrite bind_run.
  destruct (keeps_get_order order_id w1) as (H2 & _).
  pose proof (plan_stays_empty _ w1 (keeps_get_order order_id) P1) as P2.
  set (w2 := snd (get_order order_id w1)) in *.
  rewrite (get_order_fst order_id w1), H1, F.
  cbn [fmap option_fmap option_map snd].
  rewrite Hst. cbn [Order.status_eqb negb]. rewrite bind_run.
  assert (F2 : find_order order_id (orders (read_orders (orders_db w2)))
               = Some (i, o)) by (rewrite H2, H1; exact F).
  destruct (update_order_present now order_id
              [ Order.Set_status Order.in_progress;
                Order.Set_operator_id caller;
                Order.Set_operator_username (operator_name caller tg) ]
              w2 i o F2 P2) as (U1 & U2 & _).
  rewrite U1, bind_run. cbn [snd ret].
  destruct (keeps_notify_order_taken ADMIN_ID MAIN_CHAT_ID o
              (operator_name caller tg) caller order_id
              (snd (update_order now order_id
                      [ Order.Set_status Order.in_progress;
                        Order.Set_operator_id caller;
                        Order.Set_operator_username (operator_name caller tg) ]
                      w2))) as (N1 & _).
  rewrite N1, U2, H2, H1. reflexivity.
Qed.

Lemma active_orders_fst (w : World) :
  fst (get_active_orders w)
  = List.filter (fun o => Order.status_eqb (Order.status o) Order.active)
      (orders (read_orders (orders_db w))).
Proof. unfold get_active_orders. now rewrite bind_run, get_orders_fst. Qed.

Lemma in_progress_orders_fst (w : World) :
  fst (get_in_progress_orders w)
  = List.filter (fun o => Order.status_eqb (Order.status o) Order.in_progress)
      (orders (read_orders (orders_db w))).
Proof. unfold get_in_progress_orders. now rewrite bind_run, get_orders_fst. Qed.

Lemma completed_orders_fst (w : World) :
  fst (get_completed_orders w)
  = List.filter (fun o => Order.status_eqb (Order.status o) Order.completed)
      (orders (read_orders (orders_db w))).
Proof. unfold get_completed_orders. now rewrite bind_run, get_orders_fst. Qed.

Lemma operator_orders_fst (op : Z) (w : World) :
  fst (get_operator_orders op w)
  = List.filter (fun o => bool_decide (Order.operator_id o = Some op))
      (orders (read_orders (orders_db w))).
Proof. unfold get_operator_orders. now rewrite bind_run, get_orders_fst. Qed.

(** X18. A successful take (active order, caller with operator rights, no
    write failure) moves exactly one order between the views: one active
    order fewer, one order in progress more, the completed orders as
    before; the order as stored is among the caller's orders and among the
    orders in progress. *)
Theorem take_moves_order_between_views
    (now : string) (caller : Z) (tg : option string) (order_id : Z)
    (w : World) (o : Order.t)
    (Hfound : fst (get_order order_id w) = Some o)
    (Hactive : Order.status o = Order.active)
    (Hop : fst (check_operator ADMIN_ID caller w) = true)
    (Hplan : write_plan w = []) :
  let w1 := snd (operator_take_order ADMIN_ID MAIN_CHAT_ID now caller tg
                   order_id w) in
  S (List.length (fst (get_active_orders w1)))
  = List.length (fst (get_active_orders w))
  /\ List.length (fst (get_in_progress_orders w1))
     = S (List.length (fst (get_in_progress_orders w)))
  /\ fst (get_completed_orders w1) = fst (get_completed_orders w)
  /\ exists o',
       fst (get_order order_id w1) = Some o'
       /\ In o' (fst (get_operator_orders caller w1))
       /\ In o' (fst (get_in_progress_orders w1)).
Proof.
  cbv zeta. rewrite get_order_fst in Hfound.
  destruct (find_order order_id (orders (read_orders (orders_db w))))
    as [[i found]|] eqn:F; [|discriminate].
  cbn in Hfound. injection Hfound as ->.
  pose proof (take_active_store now caller tg order_id w i o F Hactive Hop
                Hplan) as Hdb.
  destruct (find_order_some _ _ _ _ F) as [Hi Hid].
  set (o' := Order.merge o _) in Hdb.
  rewrite !active_orders_fst, !in_progress_orders_fst, !completed_orders_fst.
  rewrite get_order_fst, operator_orders_fst, Hdb. cbn [read_orders orders].
  split; [|split; [|split]].
  - pose proof (filter_insert_count
                  (fun x => Order.status_eqb (Order.status x) Order.active)
                  _ i o o' Hi) as Hc.
    cbv beta in Hc. rewrite Hactive in Hc.
    change (Order.status o') with Order.in_progress in Hc.
    cbn [Order.status_eqb Nat.b2n] in Hc. lia.
  - pose proof (filter_insert_count
                  (fun x => Order.status_eqb (Order.status x)
                              Order.in_progress)
                  _ i o o' Hi) as Hc.
    cbv beta in Hc. rewrite Hactive in Hc.
    change (Order.status o') with Order.in_progress in Hc.
    cbn [Order.status_eqb Nat.b2n] in Hc. lia.
  - apply (filter_insert_unaffected _ _ i o o' Hi);
      [rewrite Hactive; reflexivity | reflexivity].
  - rewrite (find_order_insert order_id _ i o o' order_id F)
      by (unfold o'; rewrite merge_id; exact Hid).
    rewrite Z.eqb_refl. exists o'. split; [reflexivity|].
    split; apply List.filter_In; (split; [exact (in_insert_self _ i o o' Hi)|]).
    + cbn. apply bool_decide_eq_true_2. reflexivity.
    + reflexivity.
Qed.

End Views.

Lemma take_moves_order_between_views_witness :
  fst (get_order 1 Scenario.shop) = Some Scenario.order1
  /\ fst (check_operator Scenario.ADMIN_ID 7 Scenario.shop) = true
  /\ List.length
       (fst (Queries.get_in_progress_orders
               (snd (Operator.operator_take_order Scenario.ADMIN_ID
                       Scenario.MAIN_CHAT_ID "2024-01-02T09:00:00" 7 None 1
                       Scenario.shop))))
     = S (List.length (fst (Queries.get_in_progress_orders Scenario.shop))).
Proof.
  assert (H1 : fst (get_order 1 Scenario.shop) = Some Scenario.order1)
    by reflexivity.
  assert (H2 : fst (check_operator Scenario.ADMIN_ID 7 Scenario.shop) = true)
    by reflexivity.
  split; [exact H1|]. split; [exact H2|].
  exact (proj1 (proj2 (take_moves_order_between_views Scenario.ADMIN_ID
                         Scenario.MAIN_CHAT_ID "2024-01-02T09:00:00" 7 None 1
                         Scenario.shop Scenario.order1 H1 eq_refl H2
                         eq_refl))).
Defined.


(** ** The configuration's lists and settings *)

Section ConfigMutators.
Import Extended ConfigAdmin.
Variable ADMIN_ID : Z.

Lemma xbind_run {A B} (c : MX A) (k : A -> MX B) (x : XWorld) :
  xbind c k x = k (fst (c x)) (snd (c x)).
Proof. unfold xbind. destruct (c x). reflexivity. Qed.

Lemma lift_fst {A} (c : M A) (x : XWorld) :
  fst (lift c x) = fst (c (base x)).
Proof. unfold lift. destruct (c (base x)). reflexivity. Qed.

Lemma lift_base {A} (c : M A) (x : XWorld) :
  base (snd (lift c x)) = snd (c (base x)).
Proof. unfold lift. destruct (c (base x)). reflexivity. Qed.

(** What a mutator's [load_config] followed by [save_config] leaves, on a
    configuration file that holds a document. *)
Lemma load_then_save (w : World) (cfg cfg' : Config) :
  config_file w = Holds cfg ->
  let w1 := snd (save_config cfg' (snd (load_config w))) in
  fst (load_config w) = cfg
  /\ config_file w1 = write_file (fst (next_write w)) cfg' (Holds cfg)
  /\ users_db w1 = users_db w
  /\ orders_db w1 = orders_db w
  /\ journal w1 = journal w ++ [(ConfigFile, fst (next_write w))].
Proof.
  destruct w as [cf us os wp sp jr lg ob]. cbn. intros ->.
  unfold load_config, save_config, next_write, bind. cbn.
  destruct wp as [|[| |] plan]; cbn; auto.
Qed.

Lemma load_only (w : World) (cfg : Config) :
  config_file w = Holds cfg ->
  fst (load_config w) = cfg
  /\ config_file (snd (load_config w)) = Holds cfg
  /\ users_db (snd (load_config w)) = users_db w
  /\ orders_db (snd (load_config w)) = orders_db w
  /\ journal (snd (load_config w)) = journal w.
Proof.
  destruct w as [cf us os wp sp jr lg ob]. cbn. intros ->.
  unfold load_config, bind. cbn. auto.
Qed.

Lemma existsb_eqb_app (u uid : Z) (l : list Z) :
  existsb (Z.eqb u) (l ++ [uid]) = existsb (Z.eqb u) l || (u =? uid)%Z.
Proof. rewrite existsb_app. cbn. rewrite orb_false_r. reflexivity. Qed.

Lemma in_remove_first (x u : Z) (l : list Z) :
  List.NoDup l -> (In u (remove_first x l) <-> u <> x /\ In u l).
Proof.
  induction 1 as [|y l Hy Hnd IH]; cbn; [tauto|].
  destruct (y =? x)%Z eqn:E.
  - apply Z.eqb_eq in E. subst y. split.
    + intros Hin. split; [intros ->; contradiction|auto].
    + intros [Hne [Heq|Hin]]; [congruence|assumption].
  - apply Z.eqb_neq in E. cbn. rewrite IH. split.
    + intros [->|[? ?]]; auto.
    + intros [Hne [Heq|Hin]]; auto.
Qed.

Lemma nodup_remove_first (x : Z) (l : list Z) :
  List.NoDup l -> List.NoDup (remove_first x l).
Proof.
  induction 1 as [|y l Hy Hnd IH]; cbn; [constructor|].
  destruct (y =? x)%Z; [assumption|].
  constructor; [|assumption].
  intros Hin. apply in_remove_first in Hin; tauto.
Qed.

Lemma existsb_remove_first (x u : Z) (l : list Z) :
  List.NoDup l ->
  existsb (Z.eqb u) (remove_first x l)
  = negb (u =? x)%Z && existsb (Z.eqb u) l.
Proof.
  intros Hnd. apply eq_true_iff_eq.
  rewrite andb_true_iff, negb_true_iff, Z.eqb_neq.
  rewrite !existsb_exists. split.
  - intros (v & Hin & Hv). apply Z.eqb_eq in Hv. subst v.
    apply in_remove_first in Hin; [|assumption].
    split; [tauto|]. exists u. split; [tauto|apply Z.eqb_refl].
  - intros (Hne & v & Hin & Hv). apply Z.eqb_eq in Hv. subst v.
    exists u. split; [|apply Z.eqb_refl].
    apply in_remove_first; auto.
Qed.

(** X19. On a configuration file that holds a document, [add_admin]
    followed by a successful write makes the list the old one plus the
    user, every other setting kept: afterwards [is_admin] holds of this
    user and of exactly those it held of before, a list without
    duplicates stays so, and for a user already listed nothing is
    written. *)
Theorem add_admin_is_set_insertion
    (uid : Z) (x : XWorld) (cfg : Config)
    (Hfile : config_file (base x) = Holds cfg)
    (Hok : fst (next_write (base x)) = WriteOk) :
  let x1 := snd (add_admin uid x) in
  (exists ids,
      config_file (base x1) = Holds (with_admin_ids ids cfg)
      /\ (forall u, In u ids <-> u = uid \/ In u (admin_ids cfg))
      /\ (List.NoDup (admin_ids cfg) -> List.NoDup ids))
  /\ (forall u, fst (is_admin ADMIN_ID u (base x1))
                = (u =? uid)%Z || fst (is_admin ADMIN_ID u (base x)))
  /\ (In uid (admin_ids cfg) -> journal (base x1) = journal (base x))
  /\ users_db (base x1) = users_db (base x)
  /\ orders_db (base x1) = orders_db (base x).
Proof.
  cbv zeta. unfold add_admin. rewrite xbind_run, lift_fst.
  destruct (load_only (base x) cfg Hfile) as (Hc & Hf & Hu & Ho & Hj).
  destruct (load_then_save (base x) cfg
              (with_admin_ids (admin_ids cfg ++ [uid]) cfg) Hfile)
    as (_ & Sf & Su & So & Sj).
  rewrite Hok in Sf. cbn [write_file] in Sf.
  rewrite Hc.
  destruct (existsb (Z.eqb uid) (admin_ids cfg)) eqn:E.
  - cbn [xret snd]. rewrite lift_base.
    apply existsb_eqb_in in E.
    split; [|split; [|split; [|split]]]; try assumption.
    + exists (admin_ids cfg). split; [|split].
      * rewrite Hf. destruct cfg; reflexivity.
      * intros u. split; [auto|]. intros [->|H]; assumption.
      * auto.
    + intros u. rewrite !is_admin_fst, Hf, Hfile. cbn [read_config].
      destruct (u =? uid)%Z eqn:Eu; [|reflexivity].
      apply Z.eqb_eq in Eu. subst u.
      apply existsb_eqb_in in E. rewrite E, orb_true_r. reflexivity.
    + intros _. assumption.
  - rewrite !xbind_run. cbn [xlogger snd base]. rewrite !lift_base.
    split; [|split; [|split; [|split]]]; try assumption.
    + exists (admin_ids cfg ++ [uid]). split; [exact Sf|]. split.
      * intros u. rewrite in_app_iff. cbn. intuition.
      * intros Hnd. apply List.NoDup_app; [assumption| |].
        -- constructor; [intros []|constructor].
        -- intros v Hv [->|[]].
           apply existsb_eqb_in in Hv. congruence.
    + intros u. rewrite !is_admin_fst, Sf, Hfile. cbn [read_config].
      cbn [with_admin_ids admin_ids]. rewrite existsb_eqb_app.
      destruct (u =? ADMIN_ID)%Z, (u =? uid)%Z,
        (existsb (Z.eqb u) (admin_ids cfg)); reflexivity.
    + intros Hin. apply existsb_eqb_in in Hin. congruence.
Qed.

(** X20. On a configuration file that holds a document whose admin list
    has no duplicate, [remove_admin] followed by a successful write leaves
    exactly the other listed ids.  [is_admin] then fails for the removed
    user unless it is [ADMIN_ID], which no removal affects. *)
Theorem remove_admin_revokes
    (uid : Z) (x : XWorld) (cfg : Config)
    (Hfile : config_file (base x) = Holds cfg)
    (Hok : fst (next_write (base x)) = WriteOk)
    (Hnodup : List.NoDup (admin_ids cfg)) :
  let x1 := snd (remove_admin uid x) in
  (exists ids,
      config_file (base x1) = Holds (with_admin_ids ids cfg)
      /\ (forall u, In u ids <-> u <> uid /\ In u (admin_ids cfg))
      /\ List.NoDup ids)
  /\ (forall u, fst (is_admin ADMIN_ID u (base x1))
                = (u =? ADMIN_ID)%Z
                  || negb (u =? uid)%Z && fst (is_admin ADMIN_ID u (base x)))
  /\ fst (is_admin ADMIN_ID ADMIN_ID (base x1)) = true.
Proof.
  cbv zeta. unfold remove_admin. rewrite xbind_run, lift_fst.
  destruct (load_only (base x) cfg Hfile) as (Hc & Hf & Hu & Ho & Hj).
  destruct (load_then_save (base x) cfg
              (with_admin_ids (remove_first uid (admin_ids cfg)) cfg) Hfile)
    as (_ & Sf & Su & So & Sj).
  rewrite Hok in Sf. cbn [write_file] in Sf.
  rewrite Hc.
  assert (Hself : forall w, fst (is_admin ADMIN_ID ADMIN_ID w) = true).
  { intros w. rewrite is_admin_fst, Z.eqb_refl. reflexivity. }
  destruct (existsb (Z.eqb uid) (admin_ids cfg)) eqn:E.
  - rewrite !xbind_run. cbn [xlogger snd base]. rewrite !lift_base.
    split; [|split]; [| |apply Hself].
    + exists (remove_first uid (admin_ids cfg)). split; [exact Sf|].
      split; [|apply nodup_remove_first; assumption].
      intros u. apply in_remove_first. assumption.
    + intros u. rewrite !is_admin_fst, Sf, Hfile. cbn [read_config].
      cbn [with_admin_ids admin_ids].
      rewrite existsb_remove_first by assumption.
      destruct (u =? ADMIN_ID)%Z, (u =? uid)%Z,
        (existsb (Z.eqb u) (admin_ids cfg)); reflexivity.
  - cbn [xret snd]. rewrite lift_base.
    assert (Hnot : ~ In uid (admin_ids cfg)).
    { intros Hin. apply existsb_eqb_in in Hin. congruence. }
    split; [|split]; [| |apply Hself].
    + exists (admin_ids cfg). split; [|split; [|assumption]].
      * rewrite Hf. destruct cfg; reflexivity.
      * intros u. split; [|tauto]. intros Hin. split; [|assumption].
        intros ->. contradiction.
    + intros u. rewrite !is_admin_fst, Hf, Hfile. cbn [read_config].
      destruct (u =? uid)%Z eqn:Eu.
      * apply Z.eqb_eq in Eu. subst u. rewrite E.
        destruct (uid =? ADMIN_ID)%Z; reflexivity.
      * destruct (u =? ADMIN_ID)%Z,
          (existsb (Z.eqb u) (admin_ids cfg)); reflexivity.
Qed.

Lemma is_operator_fst (uid : Z) (w : World) :
  fst (is_operator uid w)
  = existsb (Z.eqb uid)
      (match operator_ids (read_config (config_file w)) with
       | Some ids => ids
       | None => []
       end).
Proof.
  unfold is_operator. rewrite bind_run, load_config_fst.
  destruct (operator_ids (read_config (config_file w))); [reflexivity|].
  rewrite bind_run. reflexivity.
Qed.

(** X21. On a configuration file that holds a document, with or without
    an operator list, [add_operator] followed by a successful write makes
    [is_operator] hold of the user and changes it for no other; the admin
    list is kept, and the [is_operator] that follows writes nothing. *)
Theorem add_operator_then_is_operator
    (uid : Z) (x : XWorld) (cfg : Config)
    (Hfile : config_file (base x) = Holds cfg)
    (Hok : fst (next_write (base x)) = WriteOk) :
  let x1 := snd (add_operator uid x) in
  fst (is_operator uid (base x1)) = true
  /\ (forall u, u <> uid ->
        fst (is_operator u (base x1)) = fst (is_operator u (base x)))
  /\ (forall u, fst (is_admin ADMIN_ID u (base x1))
                = fst (is_admin ADMIN_ID u (base x)))
  /\ journal (snd (is_operator uid (base x1))) = journal (base x1).
Proof.
  cbv zeta.
  assert (Hquiet : forall w ids c,
             config_file w = Holds c -> operator_ids c = Some ids ->
             journal (snd (is_operator uid w)) = journal w).
  { intros w ids c Hw Hids. unfold is_operator. rewrite bind_run.
    destruct (load_only w c Hw) as (Hc & _ & _ & _ & Hj).
    rewrite Hc, Hids. exact Hj. }
  unfold add_operator. rewrite xbind_run, lift_fst.
  destruct (load_only (base x) cfg Hfile) as (Hc & Hf & Hu & Ho & Hj).
  rewrite Hc. cbv zeta.
  set (ids := match operator_ids cfg with Some l => l | None => [] end).
  destruct (load_then_save (base x) cfg
              (with_operator_ids (Some (ids ++ [uid])) cfg) Hfile)
    as (_ & Sf & _).
  rewrite Hok in Sf. cbn [write_file] in Sf.
  destruct (existsb (Z.eqb uid) ids) eqn:E.
  - cbn [xret snd]. rewrite lift_base.
    assert (Hsome : operator_ids cfg = Some ids).
    { subst ids. destruct (operator_ids cfg); [reflexivity|discriminate]. }
    split; [|split; [|split]].
    + rewrite is_operator_fst, Hf. cbn [read_config]. rewrite Hsome.
      exact E.
    + intros u _. rewrite !is_operator_fst, Hf, Hfile. reflexivity.
    + intros u. rewrite !is_admin_fst, Hf, Hfile. reflexivity.
    + exact (Hquiet _ ids cfg Hf Hsome).
  - rewrite !xbind_run. cbn [xlogger snd base]. rewrite !lift_base.
    split; [|split; [|split]].
    + rewrite is_operator_fst, Sf. cbn. rewrite existsb_eqb_app, Z.eqb_refl.
      apply orb_true_r.
    + intros u Hne. rewrite !is_operator_fst, Sf, Hfile. cbn.
      fold ids. rewrite existsb_eqb_app.
      apply Z.eqb_neq in Hne. rewrite Hne. apply orb_false_r.
    + intros u. rewrite !is_admin_fst, Sf, Hfile. reflexivity.
    + exact (Hquiet _ (ids ++ [uid]) _ Sf eq_refl).
Qed.

(** X22. On a configuration document without an operator list, the query
    [is_operator] answers [False] after writing the configuration file,
    so that a write failing in [json.dump] leaves the file unreadable and
    the admin list lost to [is_admin]; [remove_operator], on the same
    document, writes nothing. *)
Theorem missing_operator_list
    (uid : Z) (x : XWorld) (cfg : Config)
    (Hfile : config_file (base x) = Holds cfg)
    (Hnone : operator_ids cfg = None) :
  let w1 := snd (is_operator uid (base x)) in
  fst (is_operator uid (base x)) = false
  /\ journal w1
     = journal (base x) ++ [(ConfigFile, fst (next_write (base x)))]
  /\ config_file w1
     = write_file (fst (next_write (base x)))
         (with_operator_ids (Some []) cfg) (Holds cfg)
  /\ (fst (next_write (base x)) = WriteFailDump ->
      forall u, fst (is_admin ADMIN_ID u w1) = (u =? ADMIN_ID)%Z)
  /\ journal (base (snd (remove_operator uid x))) = journal (base x)
  /\ config_file (base (snd (remove_operator uid x))) = Holds cfg.
Proof.
  cbv zeta.
  destruct (load_only (base x) cfg Hfile) as (Hc & Hf & Hu & Ho & Hj).
  destruct (load_then_save (base x) cfg
              (with_operator_ids (Some []) cfg) Hfile)
    as (_ & Sf & _ & _ & Sj).
  assert (Hrun : snd (is_operator uid (base x))
                 = snd (save_config (with_operator_ids (Some []) cfg)
                          (snd (load_config (base x))))).
  { unfold is_operator. rewrite bind_run, Hc, Hnone, bind_run.
    reflexivity. }
  split; [|split; [|split; [|split; [|split]]]].
  - rewrite is_operator_fst, Hfile. cbn [read_config]. rewrite Hnone.
    reflexivity.
  - rewrite Hrun. exact Sj.
  - rewrite Hrun. exact Sf.
  - intros Hdump u. rewrite is_admin_fst, Hrun, Sf, Hdump. cbn.
    apply orb_false_r.
  - unfold remove_operator. rewrite xbind_run, lift_fst, Hc, Hnone.
    cbn [xret snd]. rewrite lift_base. exact Hj.
  - unfold remove_operator. rewrite xbind_run, lift_fst, Hc, Hnone.
    cbn [xret snd]. rewrite lift_base. exact Hf.
Qed.

(** X23. [update_rates] stores the four numbers it is given, unchecked,
    and keeps every other setting; the rates read next are these, so
    that after a zero buy rate is stored the spread of every purchase
    ends in the division error. *)
Theorem update_rates_then_read
    (ltc_usd_buy ltc_usd_sell usd_rub_buy usd_rub_sell : Q)
    (x : XWorld) (cfg : Config)
    (Hfile : config_file (base x) = Holds cfg)
    (Hok : fst (next_write (base x)) = WriteOk) :
  let r := RatesModel.mkRates ltc_usd_buy ltc_usd_sell usd_rub_buy
             usd_rub_sell in
  let x1 := snd (update_rates ltc_usd_buy ltc_usd_sell usd_rub_buy
                   usd_rub_sell x) in
  fst (get_current_rates (base x1)) = r
  /\ config_file (base x1) = Holds (with_rates r cfg)
  /\ (ltc_usd_buy * usd_rub_buy == 0 ->
      forall amount,
        fst (Helpers.calculate_spread amount Order.buy (base x1)) = None)
  /\ users_db (base x1) = users_db (base x)
  /\ orders_db (base x1) = orders_db (base x).
Proof.
  cbv zeta. unfold update_rates.
  rewrite !xbind_run, lift_fst. cbn [xlogger snd base]. rewrite !lift_base.
  destruct (load_only (base x) cfg Hfile) as (Hc & _).
  rewrite Hc.
  destruct (load_then_save (base x) cfg
              (with_rates
                 (RatesModel.mkRates ltc_usd_buy ltc_usd_sell usd_rub_buy
                    usd_rub_sell) cfg) Hfile)
    as (_ & Sf & Su & So & _).
  rewrite Hok in Sf. cbn [write_file] in Sf.
  split; [|split; [|split; [|split]]]; try assumption.
  - unfold get_current_rates. rewrite bind_run, load_config_fst, Sf.
    reflexivity.
  - intros Hzero amount. rewrite helper_spread_value, Sf.
    cbn [read_config with_rates rates Order.is_buy direction_rate].
    cbn [RatesModel.ltc_usd_buy RatesModel.usd_rub_buy].
    unfold RatesModel.py_div.
    rewrite (proj2 (Qeq_bool_iff _ 0) Hzero). reflexivity.
Qed.

(** X24. With no write failure planned, whatever the state of the
    configuration file, the amount [set_min_amount] stores is the one
    [get_min_amount] returns next; a document without the setting reads
    as 1000. *)
Theorem min_amount_roundtrip
    (amount : Q) (x : XWorld)
    (Hplan : write_plan (base x) = []) :
  fst (get_min_amount (base (snd (set_min_amount amount x)))) = amount
  /\ (min_amount (read_config (config_file (base x))) = None ->
      fst (get_min_amount (base x)) = 1000).
Proof.
  split.
  - destruct x as [[cf us os wp sp jr lg ob] cd cj xl xo].
    cbn in Hplan. subst wp.
    destruct cf as [| |cfg]; reflexivity.
  - intros Hnone. unfold get_min_amount.
    rewrite bind_run, load_config_fst, Hnone. reflexivity.
Qed.

End ConfigMutators.

Lemma add_admin_is_set_insertion_witness :
  config_file (Extended.base MoreScenarios.legacy_xshop)
  = Holds MoreScenarios.legacy_config
  /\ fst (is_admin 1 12
            (Extended.base
               (snd (ConfigAdmin.add_admin 12 MoreScenarios.legacy_xshop))))
     = true
  /\ fst (is_admin 1 11
            (Extended.base
               (snd (ConfigAdmin.add_admin 12 MoreScenarios.legacy_xshop))))
     = true.
Proof.
  pose proof (add_admin_is_set_insertion 1 12 MoreScenarios.legacy_xshop
                MoreScenarios.legacy_config eq_refl eq_refl) as H.
  cbv zeta in H. destruct H as (_ & H & _).
  split; [reflexivity|]. rewrite !H. split; reflexivity.
Defined.

Lemma remove_admin_revokes_witness :
  List.NoDup (admin_ids MoreScenarios.legacy_config)
  /\ fst (is_admin 1 11
            (Extended.base
               (snd (ConfigAdmin.remove_admin 11
                       MoreScenarios.legacy_xshop))))
     = false.
Proof.
  assert (Hnd : List.NoDup (admin_ids MoreScenarios.legacy_config)).
  { simpl. constructor; [intros []|constructor]. }
  pose proof (remove_admin_revokes 1 11 MoreScenarios.legacy_xshop
                MoreScenarios.legacy_config eq_refl eq_refl Hnd) as H.
  cbv zeta in H. destruct H as (_ & H & _).
  split; [exact Hnd|]. rewrite H. reflexivity.
Defined.

Lemma add_operator_then_is_operator_witness :
  operator_ids MoreScenarios.legacy_config = None
  /\ fst (ConfigAdmin.is_operator 7
            (Extended.base
               (snd (ConfigAdmin.add_operator 7
                       MoreScenarios.legacy_xshop))))
     = true.
Proof.
  pose proof (add_operator_then_is_operator 1 7 MoreScenarios.legacy_xshop
                MoreScenarios.legacy_config eq_refl eq_refl) as H.
  cbv zeta in H. destruct H as (H & _).
  split; [reflexivity|exact H].
Defined.

Lemma missing_operator_list_witness :
  fst (ConfigAdmin.is_operator 7
         (Extended.base MoreScenarios.legacy_xshop)) = false
  /\ journal (snd (ConfigAdmin.is_operator 7
                     (Extended.base MoreScenarios.legacy_xshop)))
     = [(ConfigFile, WriteOk)].
Proof.
  pose proof (missing_operator_list 1 7 MoreScenarios.legacy_xshop
                MoreScenarios.legacy_config eq_refl eq_refl) as H.
  cbv zeta in H. destruct H as (H1 & H2 & _).
  split; [exact H1|exact H2].
Defined.

Lemma update_rates_then_read_witness :
  0 * (735 # 10) == 0
  /\ fst (Helpers.calculate_spread 5880 Order.buy
            (Extended.base
               (snd (ConfigAdmin.update_rates 0 78 (735 # 10) 72
                       MoreScenarios.legacy_xshop))))
     = None.
Proof.
  assert (Hz : 0 * (735 # 10) == 0) by reflexivity.
  pose proof (update_rates_then_read 0 78 (735 # 10) 72
                MoreScenarios.legacy_xshop MoreScenarios.legacy_config
                eq_refl eq_refl) as H.
  cbv zeta in H. destruct H as (_ & _ & H & _).
  split; [exact Hz|exact (H Hz 5880)].
Defined.

Lemma min_amount_roundtrip_witness :
  fst (ConfigAdmin.get_min_amount
         (Extended.base MoreScenarios.legacy_xshop)) = 1000
  /\ fst (ConfigAdmin.get_min_amount
            (Extended.base
               (snd (ConfigAdmin.set_min_amount 500
                       MoreScenarios.legacy_xshop))))
     = 500.
Proof.
  destruct (min_amount_roundtrip 500 MoreScenarios.legacy_xshop eq_refl)
    as (H1 & H2).
  split; [exact (H2 eq_refl)|exact H1].
Defined.


(** ** Custom commands *)

Section CustomCommands.
Import Extended Commands.

Lemma get_commands_run (x : XWorld) :
  fst (get_commands x) = read_commands (commands_db x)
  /\ commands_db (snd (get_commands x)) = commands_db x
  /\ commands_journal (snd (get_commands x)) = commands_journal x
  /\ base (snd (get_commands x)) = base x.
Proof.
  unfold get_commands. destruct (commands_db x) eqn:E; cbn; auto.
Qed.

Lemma save_commands_run (commands : list Command) (x : XWorld) :
  commands_db (snd (save_commands commands x))
  = write_file (fst (next_write (base x))) commands (commands_db x)
  /\ commands_journal (snd (save_commands commands x))
     = commands_journal x ++ [fst (next_write (base x))]
  /\ base (snd (save_commands commands x)) = pop_write (base x).
Proof.
  unfold save_commands. rewrite xbind_run. cbn [write_commands fst snd].
  destruct (fst (next_write (base x))); cbn; auto.
Qed.

Lemma get_custom_command_fst (name : string) (x : XWorld) :
  fst (get_custom_command name x)
  = List.find (named name) (read_commands (commands_db x)).
Proof.
  unfold get_custom_command. rewrite xbind_run.
  destruct (get_commands_run x) as (H & _). rewrite H. reflexivity.
Qed.

Lemma replace_command_found name new l l' :
  command new = name ->
  replace_command name new l = Some l' ->
  existsb (named name) l = true
  /\ List.find (named name) l' = Some new
  /\ (forall other, other <> name ->
        List.find (named other) l' = List.find (named other) l)
  /\ List.map command l' = List.map command l.
Proof.
  intros Hnew.
  assert (Hself : named name new = true)
    by (unfold named; rewrite Hnew; apply String.eqb_refl).
  revert l'.
  induction l as [|cmd rest IH]; intros l' H; [discriminate|].
  cbn [replace_command] in H. cbn [existsb List.find List.map].
  destruct (named name cmd) eqn:E.
  - injection H as <-. cbn [List.find List.map orb]. rewrite Hself.
    unfold named in E. apply String.eqb_eq in E.
    split; [reflexivity|]. split; [reflexivity|]. split.
    + intros other Hne. unfold named. rewrite Hnew, E.
      destruct (String.eqb_spec name other); [congruence|reflexivity].
    + rewrite Hnew, E. reflexivity.
  - destruct (replace_command name new rest) as [rest'|] eqn:R;
      [|discriminate].
    injection H as <-. destruct (IH rest' eq_refl) as (H1 & H2 & H3 & H4).
    cbn [List.find List.map orb]. rewrite E.
    split; [exact H1|]. split; [exact H2|]. split.
    + intros other Hne. rewrite (H3 other Hne). reflexivity.
    + rewrite H4. reflexivity.
Qed.

Lemma replace_command_absent name new l :
  replace_command name new l = None -> existsb (named name) l = false.
Proof.
  induction l as [|cmd rest IH]; [reflexivity|].
  cbn [replace_command existsb].
  destruct (named name cmd); [discriminate|].
  destruct (replace_command name new rest); [discriminate|].
  intros _. apply IH. reflexivity.
Qed.

Lemma find_absent name (l : list Command) :
  existsb (named name) l = false -> List.find (named name) l = None.
Proof.
  induction l as [|cmd rest IH]; [reflexivity|].
  cbn. destruct (named name cmd); [discriminate|exact IH].
Qed.

Lemma find_app_last (P : Command -> bool) l new :
  List.find P (l ++ [new])
  = match List.find P l with
    | Some c => Some c
    | None => if P new then Some new else None
    end.
Proof.
  induction l as [|cmd rest IH]; [reflexivity|].
  cbn. destruct (P cmd); [reflexivity|exact IH].
Qed.

Lemma pop_write_stores (w : World) :
  config_file (pop_write w) = config_file w
  /\ users_db (pop_write w) = users_db w
  /\ orders_db (pop_write w) = orders_db w
  /\ journal (pop_write w) = journal w.
Proof. unfold pop_write. cbn. auto. Qed.

(** X25. [add_custom_command] followed by a successful write is an
    upsert by name: the command is then found with the new response and
    buttons ([None] read as no button), every other name finds what it
    found, and the list of names is the old one, extended by this name
    only if it was not there (a replaced command keeps its place).  The
    users, orders and configuration files are not touched. *)
Theorem add_custom_command_upserts
    (name response : string) (btns : option (list string)) (x : XWorld)
    (Hok : fst (next_write (base x)) = WriteOk) :
  let x1 := snd (add_custom_command name response btns x) in
  let old := read_commands (commands_db x) in
  fst (get_custom_command name x1)
  = Some (mkCommand name response (buttons_or_empty btns))
  /\ (forall other, other <> name ->
        fst (get_custom_command other x1) = fst (get_custom_command other x))
  /\ List.map command (read_commands (commands_db x1))
     = (if existsb (named name) old then List.map command old
        else List.map command old ++ [name])
  /\ users_db (base x1) = users_db (base x)
  /\ orders_db (base x1) = orders_db (base x)
  /\ config_file (base x1) = config_file (base x).
Proof.
  cbv zeta. unfold add_custom_command. rewrite xbind_run.
  destruct (get_commands_run x) as (Hg & Hd & Hj & Hb).
  rewrite Hg. cbv zeta.
  set (x0 := snd (get_commands x)) in *.
  set (old := read_commands (commands_db x)).
  set (new := mkCommand name response (buttons_or_empty btns)).
  assert (Hok0 : fst (next_write (base x0)) = WriteOk) by (rewrite Hb; exact Hok).
  destruct (pop_write_stores (base x0)) as (Pc & Pu & Po & _).
  rewrite Hb in Pc, Pu, Po.
  destruct (replace_command name new old) as [l'|] eqn:R.
  - destruct (save_commands_run l' x0) as (Sd & _ & Sb).
    rewrite Hok0 in Sd. cbn [write_file] in Sd.
    destruct (replace_command_found name new old l' eq_refl R)
      as (H1 & H2 & H3 & H4).
    rewrite !get_custom_command_fst, Sd, Sb. cbn [read_commands].
    fold old. rewrite H1.
    split; [exact H2|]. split; [|split; [exact H4|rewrite Hb; auto]].
    intros other Hne. rewrite !get_custom_command_fst, Sd.
    exact (H3 other Hne).
  - destruct (save_commands_run (old ++ [new]) x0) as (Sd & _ & Sb).
    rewrite Hok0 in Sd. cbn [write_file] in Sd.
    pose proof (replace_command_absent name new old R) as H1.
    rewrite !get_custom_command_fst, Sd, Sb. cbn [read_commands].
    fold old. rewrite H1.
    split; [|split; [|split]].
    + rewrite find_app_last, (find_absent name old H1).
      unfold named, new. cbn. rewrite String.eqb_refl. reflexivity.
    + intros other Hne. rewrite !get_custom_command_fst, Sd.
      cbn [read_commands]. fold old. rewrite find_app_last.
      destruct (List.find (named other) old); [reflexivity|].
      unfold named, new. cbn.
      destruct (String.eqb name other) eqn:E; [|reflexivity].
      apply String.eqb_eq in E. congruence.
    + rewrite List.map_app. reflexivity.
    + rewrite Hb. auto.
Qed.

Lemma filter_shorter (P : Command -> bool) (l : list Command) :
  (List.length (List.filter (fun c => negb (P c)) l) <? List.length l)%nat
  = existsb P l.
Proof.
  induction l as [|cmd rest IH]; [reflexivity|].
  cbn [List.filter existsb List.length].
  pose proof (List.filter_length_le (fun c => negb (P c)) rest) as Hle.
  destruct (P cmd); cbn [negb orb List.length].
  - apply Nat.ltb_lt. lia.
  - rewrite <- IH.
    destruct (Nat.ltb_spec
                (List.length (List.filter (fun c => negb (P c)) rest))
                (List.length rest));
      [apply Nat.ltb_lt|apply Nat.ltb_ge]; lia.
Qed.

Lemma find_filter_other name other (l : list Command) :
  other <> name ->
  List.find (named other) (List.filter (fun c => negb (named name c)) l)
  = List.find (named other) l.
Proof.
  intros Hne. induction l as [|cmd rest IH]; [reflexivity|].
  cbn [List.filter List.find].
  destruct (named name cmd) eqn:E; cbn [negb].
  - unfold named in E. apply String.eqb_eq in E.
    replace (named other cmd) with false; [exact IH|].
    symmetry. unfold named. apply String.eqb_neq. congruence.
  - cbn [List.find]. rewrite IH. reflexivity.
Qed.

Lemma find_filter_self name (l : list Command) :
  List.find (named name) (List.filter (fun c => negb (named name c)) l)
  = None.
Proof.
  induction l as [|cmd rest IH]; [reflexivity|].
  cbn [List.filter]. destruct (named name cmd) eqn:E; cbn [negb];
    [exact IH|].
  cbn [List.find]. rewrite E. exact IH.
Qed.

(** X26. [remove_custom_command] answers whether a command of that name
    was stored.  If none was, nothing is written; if one was and the
    write succeeds, every command of that name is gone and every other
    name finds what it found. *)
Theorem remove_custom_command_removes_all
    (name : string) (x : XWorld)
    (Hok : fst (next_write (base x)) = WriteOk) :
  let r := remove_custom_command name x in
  let old := read_commands (commands_db x) in
  fst r = existsb (named name) old
  /\ (fst r = false ->
      commands_db (snd r) = commands_db x
      /\ commands_journal (snd r) = commands_journal x)
  /\ fst (get_custom_command name (snd r)) = None
  /\ (forall other, other <> name ->
        fst (get_custom_command other (snd r))
        = fst (get_custom_command other x)).
Proof.
  cbv zeta. unfold remove_custom_command. rewrite xbind_run.
  destruct (get_commands_run x) as (Hg & Hd & Hj & Hb).
  rewrite Hg. cbv zeta.
  set (x0 := snd (get_commands x)) in *.
  set (old := read_commands (commands_db x)).
  rewrite (filter_shorter (named name) old).
  assert (Hok0 : fst (next_write (base x0)) = WriteOk) by (rewrite Hb; exact Hok).
  destruct (existsb (named name) old) eqn:E.
  - rewrite xbind_run. cbn [xret fst snd].
    destruct (save_commands_run
                (List.filter (fun c => negb (named name c)) old) x0)
      as (Sd & _ & _).
    rewrite Hok0 in Sd. cbn [write_file] in Sd.
    rewrite !get_custom_command_fst, Sd. cbn [read_commands]. fold old.
    split; [reflexivity|]. split; [discriminate|].
    split; [apply find_filter_self|].
    intros other Hne. rewrite !get_custom_command_fst, Sd.
    apply find_filter_other. exact Hne.
  - cbn [xret fst snd]. rewrite !get_custom_command_fst, Hd. fold old.
    split; [reflexivity|]. split; [auto|].
    split; [apply find_absent; exact E|].
    intros other _. rewrite !get_custom_command_fst, Hd. reflexivity.
Qed.

End CustomCommands.

Lemma add_custom_command_upserts_witness :
  fst (Commands.get_custom_command "help"
         (snd (Commands.add_custom_command "help" "Ask here." None
                 MoreScenarios.legacy_xshop)))
  = Some (Extended.mkCommand "help" "Ask here." [])
  /\ fst (Commands.get_custom_command "rates"
            (snd (Commands.add_custom_command "help" "Ask here." None
                    MoreScenarios.legacy_xshop)))
     = Some MoreScenarios.rates_command.
Proof.
  pose proof (add_custom_command_upserts "help" "Ask here." None
                MoreScenarios.legacy_xshop eq_refl) as H.
  cbv zeta in H. destruct H as (H1 & H2 & _).
  split; [exact H1|].
  rewrite (H2 "rates"%string) by discriminate. reflexivity.
Defined.

Lemma remove_custom_command_removes_all_witness :
  fst (Commands.remove_custom_command "help" MoreScenarios.legacy_xshop)
  = true
  /\ fst (Commands.get_custom_command "help"
            (snd (Commands.remove_custom_command "help"
                    MoreScenarios.legacy_xshop)))
     = None.
Proof.
  pose proof (remove_custom_command_removes_all "help"
                MoreScenarios.legacy_xshop eq_refl) as H.
  cbv zeta in H. destruct H as (H1 & _ & H3 & _).
  split; [rewrite H1; reflexivity|exact H3].
Defined.


(** ** Initialisation *)

Section Initialisation.
Import Extended Commands.

(** X27. [init_db] creates only what is missing.  Whatever its writes
    do, the users, orders and commands read afterwards are those read
    before, a file that exists (readable or not) is left as it is, and
    the configuration file is not touched.  With no write failure planned
    it returns, all three files exist, and a second [init_db] attempts no
    write. *)
Theorem init_db_creates_only_missing (x : XWorld) :
  let x1 := snd (init_db x) in
  read_users (users_db (base x1)) = read_users (users_db (base x))
  /\ read_orders (orders_db (base x1)) = read_orders (orders_db (base x))
  /\ read_commands (commands_db x1) = read_commands (commands_db x)
  /\ config_file (base x1) = config_file (base x)
  /\ (exists_file (users_db (base x)) = true ->
      users_db (base x1) = users_db (base x))
  /\ (exists_file (orders_db (base x)) = true ->
      orders_db (base x1) = orders_db (base x))
  /\ (exists_file (commands_db x) = true -> commands_db x1 = commands_db x)
  /\ (write_plan (base x) = [] ->
      fst (init_db x) = true
      /\ exists_file (users_db (base x1)) = true
      /\ exists_file (orders_db (base x1)) = true
      /\ exists_file (commands_db x1) = true
      /\ journal (base (snd (init_db x1))) = journal (base x1)
      /\ commands_journal (snd (init_db x1)) = commands_journal x1).
Proof.
  destruct x as [[cf us os wp sp jr lg ob] cd cj xl xo].
  destruct us as [| |users], os as [| |orders], cd as [| |commands];
    destruct wp as [|[| |] [|[| |] [|[| |] wp]]];
    cbn; repeat split; auto; discriminate.
Qed.

End Initialisation.

Lemma init_db_creates_only_missing_witness :
  fst (Commands.init_db MoreScenarios.first_start) = true
  /\ users_db (Extended.base (snd (Commands.init_db MoreScenarios.first_start)))
     = Holds ∅
  /\ journal
       (Extended.base
          (snd (Commands.init_db
                  (snd (Commands.init_db MoreScenarios.first_start)))))
     = [(UsersDb, WriteOk); (OrdersDb, WriteOk)].
Proof.
  destruct (init_db_creates_only_missing MoreScenarios.first_start)
    as (_ & _ & _ & _ & _ & _ & _ & H).
  destruct (H eq_refl) as (H1 & _ & _ & _ & H5 & _).
  split; [exact H1|]. split; [reflexivity|].
  rewrite H5. reflexivity.
Defined.


(** ** Registration and referral links *)

Section ReferralLinks.
Import Registration.

Lemma append_inj_l (p a b : string) :
  String.append p a = String.append p b -> a = b.
Proof.
  induction p as [|c p IH]; cbn; [auto|].
  intros [= H]. exact (IH H).
Qed.

Lemma digits_inj (a b : N) : digits a = digits b -> a = b.
Proof. exact (zero_fill_inj 0 a b). Qed.

Lemma digits_no_sign (n : N) (s : string) :
  digits n <> String "-"%char s.
Proof.
  intros H.
  pose proof (NilEmpty.usu (N.to_uint n)) as Hp.
  fold (digits n) in Hp. rewrite H, parse_minus in Hp. discriminate.
Qed.

Lemma str_int_inj (a b : Z) :
  Operator.str_int a = Operator.str_int b -> a = b.
Proof.
  unfold Operator.str_int.
  destruct (Z.ltb_spec a 0) as [Ha|Ha], (Z.ltb_spec b 0) as [Hb|Hb];
    intros H.
  - injection H as H. apply digits_inj in H. lia.
  - symmetry in H. destruct (digits_no_sign _ _ H).
  - destruct (digits_no_sign _ _ H).
  - apply digits_inj in H. lia.
Qed.

(** X28. Referral links identify their user: different users get
    different links. *)
Theorem referral_links_are_distinct (a b : Z) :
  a <> b -> generate_referral_link a <> generate_referral_link b.
Proof.
  unfold generate_referral_link. intros Hne H.
  apply append_inj_l in H. exact (Hne (str_int_inj a b H)).
Qed.

End ReferralLinks.

Lemma referral_links_are_distinct_witness :
  (9 <> -9)%Z
  /\ Registration.generate_referral_link 9
     <> Registration.generate_referral_link (-9).
Proof.
  assert (Hne : (9 <> -9)%Z) by lia.
  split; [exact Hne|].
  exact (referral_links_are_distinct 9 (-9) Hne).
Defined.


Section Registering.
Import Extended Registration Queries.
Variable ADMIN_ID : Z.

(** The two checks that end [start_command] read the users and change
    none. *)
Lemma rights_frame (uid : Z) (x : XWorld) :
  let r := xbind (lift (check_admin ADMIN_ID uid))
             (fun is_admin_user =>
                xbind (lift (check_operator ADMIN_ID uid))
                  (fun is_operator_user =>
                     xret (is_admin_user, is_operator_user))) x in
  users_db (base (snd r)) = users_db (base x)
  /\ xoutbox (snd r) = xoutbox x
  /\ fst r = (fst (check_admin ADMIN_ID uid (base x)),
              fst (check_operator ADMIN_ID uid (base x))).
Proof.
  cbv zeta. rewrite !xbind_run. cbn [xret fst snd].
  rewrite !lift_fst, !lift_base.
  destruct (settings_check_admin ADMIN_ID uid (base x)) as (U1 & C1).
  destruct (settings_check_operator ADMIN_ID uid
              (snd (check_admin ADMIN_ID uid (base x)))) as (U2 & C2).
  split; [congruence|]. split.
  - unfold lift.
    destruct (check_admin ADMIN_ID uid (base x)) as [a w1]. cbn.
    destruct (check_operator ADMIN_ID uid w1). reflexivity.
  - f_equal. rewrite !check_operator_fst, U1, C1. reflexivity.
Qed.

(** X29. For a user who already has a record, [start_command] changes no
    user record and notifies no one, whatever referral parameter comes
    with it: the referrer recorded at registration stays.  The rights it
    reports are those of [check_admin] and [check_operator]. *)
Theorem start_keeps_registered_user
    (uid : Z) (tg : option string) (arg : option Z) (x : XWorld) (u : User.t)
    (Hknown : fst (get_user uid (base x)) = Some u) :
  let r := start_command ADMIN_ID uid tg arg x in
  users_db (base (snd r)) = users_db (base x)
  /\ (forall v, fst (get_user v (base (snd r))) = fst (get_user v (base x)))
  /\ xoutbox (snd r) = xoutbox x
  /\ fst r = (fst (check_admin ADMIN_ID uid (base x)),
              fst (check_operator ADMIN_ID uid (base x))).
Proof.
  cbv zeta. unfold start_command. cbv zeta.
  rewrite xbind_run, lift_fst, Hknown, xbind_run. cbn [xret snd].
  set (x0 := snd (lift (get_user uid) x)).
  assert (Hb : base x0 = snd (get_user uid (base x)))
    by apply lift_base.
  assert (Ho : xoutbox x0 = xoutbox x).
  { unfold x0, lift. destruct (get_user uid (base x)). reflexivity. }
  destruct (settings_get_user uid (base x)) as (U0 & C0).
  destruct (rights_frame uid x0) as (U & O & R). cbv zeta in U, O, R.
  assert (Husers : users_db (base x0) = users_db (base x))
    by (rewrite Hb; exact U0).
  split; [congruence|]. split; [|split; [congruence|]].
  - intros v. rewrite !get_user_fst. congruence.
  - rewrite R. f_equal.
    + rewrite !check_admin_fst, Hb, U0, C0. reflexivity.
    + rewrite !check_operator_fst, Hb, U0, C0. reflexivity.
Qed.

Lemma add_referral_users (r uid : Z) (w : World) (users : gmap Z User.t) :
  users_db w = Holds users ->
  write_plan w = [] ->
  users_db (snd (add_referral r uid w))
  = Holds
      (match users !! r with
       | None => users
       | Some ref =>
           if existsb (Z.eqb uid) (User.referrals ref) then users
           else <[r := with_referrals (User.referrals ref ++ [uid]) ref]> users
       end).
Proof.
  destruct w as [cf us os wp sp jr lg ob]. cbn [users_db write_plan].
  intros -> ->.
  unfold add_referral, get_user, get_users, save_user, save_users, bind,
    next_write.
  cbn. destruct (users !! r) as [ref|]; [|reflexivity].
  destruct (existsb (Z.eqb uid) (User.referrals ref)); reflexivity.
Qed.

Lemma xsend_users chat text (x : XWorld) :
  users_db (base (snd (xsend chat text x))) = users_db (base x).
Proof.
  unfold xsend. destruct (send_plan (base x)) as [|[|] sp]; reflexivity.
Qed.

(** The users file after the registration steps of a new user. *)
Lemma register_users (uid : Z) (data : User.t) (rid : option Z)
    (name : string) (x0 : XWorld) :
  write_plan (base x0) = [] ->
  let mid :=
    snd (xbind (lift (save_user uid data))
           (fun _ =>
              match rid with
              | None => xret tt
              | Some referral_id =>
                  if (referral_id =? 0)%Z then xret tt
                  else
                    xbind (lift (add_referral referral_id uid))
                      (fun _ =>
                         xbind (lift (get_user referral_id))
                           (fun referrer =>
                              match referrer with
                              | None => xret tt
                              | Some _ =>
                                  xbind
                                    (xsend referral_id
                                       (Msg_new_referral name))
                                    (fun sent =>
                                       match sent with
                                       | SendOk => xret tt
                                       | SendFail =>
                                           xlogger Error_notify_referrer
                                       end)
                              end))
              end) x0) in
  let users1 := <[uid := data]> (read_users (users_db (base x0))) in
  users_db (base mid)
  = Holds
      (match rid with
       | None => users1
       | Some r =>
           if (r =? 0)%Z then users1
           else
             match users1 !! r with
             | None => users1
             | Some ref =>
                 if existsb (Z.eqb uid) (User.referrals ref) then users1
                 else
                   <[r := with_referrals (User.referrals ref ++ [uid]) ref]>
                     users1
             end
       end).
Proof.
  intros Hplan. cbv zeta. rewrite xbind_run.
  set (users1 := <[uid := data]> (read_users (users_db (base x0)))).
  set (x1 := snd (lift (save_user uid data) x0)).
  assert (Hu1 : users_db (base x1) = Holds users1).
  { unfold x1. rewrite lift_base.
    destruct (save_user_stores uid data (base x0)) as (Hu & _).
    rewrite Hu. unfold next_write. rewrite Hplan. reflexivity. }
  assert (Hp1 : write_plan (base x1) = []).
  { unfold x1. rewrite lift_base.
    apply plan_stays_empty; [apply keeps_save_user|exact Hplan]. }
  destruct rid as [r|]; [|exact Hu1].
  destruct (r =? 0)%Z; [exact Hu1|].
  rewrite !xbind_run.
  set (x2 := snd (lift (add_referral r uid) x1)).
  assert (Hu2 : users_db (base x2)
                = Holds
                    (match users1 !! r with
                     | None => users1
                     | Some ref =>
                         if existsb (Z.eqb uid) (User.referrals ref)
                         then users1
                         else <[r := with_referrals
                                       (User.referrals ref ++ [uid]) ref]>
                                users1
                     end)).
  { unfold x2. rewrite lift_base.
    exact (add_referral_users r uid (base x1) users1 Hu1 Hp1). }
  set (x3 := snd (lift (get_user r) x2)).
  assert (Hu3 : users_db (base x3) = users_db (base x2)).
  { unfold x3. rewrite lift_base. apply settings_get_user. }
  destruct (fst (lift (get_user r) x2)); [|cbn [xret snd]; congruence].
  rewrite xbind_run.
  pose proof (xsend_users r (Msg_new_referral name) x3) as Hu4.
  destruct (fst (xsend r (Msg_new_referral name) x3));
    cbn [xret xlogger snd base]; congruence.
Qed.

(** X30. With no write failure planned, [start_command] registers a user
    without a record as a plain user with zero balance and statistics,
    with the referral parameter as referrer, except one's own id, and
    whether or not such a user exists.  A referrer who has a record (and a
    non-zero id) gets the new user in the referral list, once; no other
    record changes. *)
Theorem start_registers_new_user
    (uid : Z) (tg : option string) (arg : option Z) (x : XWorld)
    (Hnew : fst (get_user uid (base x)) = None)
    (Hplan : write_plan (base x) = []) :
  let x1 := snd (start_command ADMIN_ID uid tg arg x) in
  let rid := referral_argument uid arg in
  fst (get_user uid (base x1))
  = Some (User.mk (display_name uid tg) User.user 0 0 0 [] rid)
  /\ rid <> Some uid
  /\ (forall r ref,
        rid = Some r -> r <> 0%Z ->
        fst (get_user r (base x)) = Some ref ->
        fst (get_user r (base x1))
        = Some (if existsb (Z.eqb uid) (User.referrals ref) then ref
                else with_referrals (User.referrals ref ++ [uid]) ref))
  /\ (forall other,
        other <> uid -> rid <> Some other ->
        fst (get_user other (base x1)) = fst (get_user other (base x))).
Proof.
  cbv zeta. unfold start_command. cbv zeta.
  rewrite xbind_run, lift_fst, Hnew, xbind_run.
  set (name := display_name uid tg).
  set (rid := referral_argument uid arg).
  set (data := User.mk name User.user 0 0 0 [] rid).
  set (x0 := snd (lift (get_user uid) x)).
  assert (Hb : base x0 = snd (get_user uid (base x))) by apply lift_base.
  destruct (settings_get_user uid (base x)) as (U0 & _).
  assert (Hp0 : write_plan (base x0) = []).
  { rewrite Hb. apply plan_stays_empty; [apply keeps_get_user|exact Hplan]. }
  pose proof (register_users uid data rid name x0 Hp0) as Hmid.
  cbv zeta in Hmid.
  match type of Hmid with
  | users_db (base ?m) = _ => set (mid := m) in *
  end.
  destruct (rights_frame uid mid) as (U & _ & _). cbv zeta in U.
  rewrite Hb, U0 in Hmid.
  rewrite get_user_fst in Hnew.
  set (users0 := read_users (users_db (base x))) in *.
  assert (Hself : rid <> Some uid).
  { unfold rid, referral_argument. destruct arg as [r|]; [|discriminate].
    destruct (Z.eqb_spec r uid); [discriminate|congruence]. }
  split; [|split; [exact Hself|split]].
  - rewrite get_user_fst, U, Hmid. cbn [read_users].
    destruct rid as [r|]; [|apply lookup_insert_eq].
    destruct (r =? 0)%Z; [apply lookup_insert_eq|].
    destruct (<[uid:=data]> users0 !! r) as [ref|];
      [|apply lookup_insert_eq].
    destruct (existsb (Z.eqb uid) (User.referrals ref));
      [apply lookup_insert_eq|].
    rewrite lookup_insert_ne by congruence. apply lookup_insert_eq.
  - intros r ref Hr Hnz Href.
    rewrite get_user_fst in Href. fold users0 in Href.
    rewrite get_user_fst, U, Hmid. cbn [read_users]. rewrite Hr.
    apply Z.eqb_neq in Hnz. rewrite Hnz.
    assert (Hru : r <> uid) by congruence.
    rewrite (lookup_insert_ne users0 uid r data) by congruence.
    rewrite Href.
    destruct (existsb (Z.eqb uid) (User.referrals ref)).
    + rewrite lookup_insert_ne by congruence. exact Href.
    + apply lookup_insert_eq.
  - intros other Hne Hnr.
    rewrite !get_user_fst, U, Hmid. cbn [read_users]. fold users0.
    assert (Hbase : <[uid:=data]> users0 !! other = users0 !! other)
      by (apply lookup_insert_ne; congruence).
    destruct rid as [r|]; [|exact Hbase].
    destruct (r =? 0)%Z; [exact Hbase|].
    destruct (<[uid:=data]> users0 !! r) as [ref|]; [|exact Hbase].
    destruct (existsb (Z.eqb uid) (User.referrals ref)); [exact Hbase|].
    rewrite lookup_insert_ne by congruence. exact Hbase.
Qed.

End Registering.

Lemma start_keeps_registered_user_witness :
  fst (get_user 5 (Extended.base MoreScenarios.legacy_xshop))
  = Some Scenario.owner
  /\ fst (get_user 5
            (Extended.base
               (snd (Registration.start_command 1 5 (Some "alice"%string)
                       (Some 7%Z) MoreScenarios.legacy_xshop))))
     = Some Scenario.owner.
Proof.
  assert (Hk : fst (get_user 5 (Extended.base MoreScenarios.legacy_xshop))
               = Some Scenario.owner) by reflexivity.
  pose proof (start_keeps_registered_user 1 5 (Some "alice"%string)
                (Some 7%Z) MoreScenarios.legacy_xshop Scenario.owner Hk)
    as H.
  cbv zeta in H. destruct H as (_ & H & _).
  split; [exact Hk|]. rewrite H. exact Hk.
Defined.

Lemma start_registers_new_user_witness :
  fst (get_user 6 (Extended.base MoreScenarios.legacy_xshop)) = None
  /\ fst (get_user 6
            (Extended.base
               (snd (Registration.start_command 1 6 (Some "dave"%string)
                       (Some 9%Z) MoreScenarios.legacy_xshop))))
     = Some (User.mk "dave" User.user 0 0 0 [] (Some 9%Z))
  /\ fst (get_user 9
            (Extended.base
               (snd (Registration.start_command 1 6 (Some "dave"%string)
                       (Some 9%Z) MoreScenarios.legacy_xshop))))
     = Some (Queries.with_referrals [5; 6]%Z Scenario.referrer).
Proof.
  assert (Hn : fst (get_user 6 (Extended.base MoreScenarios.legacy_xshop))
               = None) by reflexivity.
  pose proof (start_registers_new_user 1 6 (Some "dave"%string) (Some 9%Z)
                MoreScenarios.legacy_xshop Hn eq_refl) as H.
  cbv zeta in H. destruct H as (H1 & _ & H3 & _).
  split; [exact Hn|]. split; [exact H1|].
  exact (H3 9%Z Scenario.referrer eq_refl ltac:(discriminate) eq_refl).
Defined.
